(** * RideVehicleEditor: the vehicle view model, the spinner and viewport
      controls, the lists and labels of the side window, the stored
      preferences and the clipboard of the editor window

    A shallow embedding of the TypeScript sources.  JavaScript numbers that
    hold game values, list positions and bit masks are integers here ([Z], or
    [nat] for positions in an array); a nullable value is an [option]; a
    flexui store is a field of the record that stands for the object owning
    it, and writing to a store runs the subscribers of that store in the
    order in which they were attached.  Lines written with [Log.debug] go to
    the developer console only; they are kept in [_modifyVehicle], where a
    property speaks of them, and left out elsewhere. *)

From Stdlib Require Import ZArith List Bool String Ascii Lia DecimalString.
From Stdlib Require Import DecimalZ DecimalPos.
From coqutil Require Import Datatypes.RecordSetters.
Import ListNotations.
Import TriangleBracketNotations.
Open Scope string_scope.
Open Scope list_scope.
Open Scope Z_scope.

(** ** JavaScript primitives used by the sources *)

Module JS.

(** [ToInt32]: the operand conversion of the bitwise operators. *)
Definition toInt32 (n : Z) : Z :=
  let int32bit := n mod 2 ^ 32 in
  if 2 ^ 31 <=? int32bit then int32bit - 2 ^ 32 else int32bit.

(** The numbers [ToInt32] produces. *)
Definition int32 (n : Z) : Prop := - 2 ^ 31 <= n < 2 ^ 31.

(** [a | b], [a & b] and [~a]. *)
Definition bitor (a b : Z) : Z := toInt32 (Z.lor (toInt32 a) (toInt32 b)).
Definition bitand (a b : Z) : Z := toInt32 (Z.land (toInt32 a) (toInt32 b)).
Definition bitnot (a : Z) : Z := toInt32 (Z.lnot (toInt32 a)).

(** [n.toString()] for an integral number. *)
Definition toString (n : Z) : string := NilZero.string_of_int (Z.to_int n).

(** Truthiness of an optional boolean ([undefined] is falsy). *)
Definition truthy (b : option bool) : bool :=
  match b with Some true => true | _ => false end.

End JS.

(** ** Helpers of the repository that the sources import *)

Module Helpers.

(** Modelled from the spec: [helpers/utilityHelpers] is not among the
    sources.  The spec names its content "wrap/clamp arithmetic": [clamp]
    limits a value to the closed range between the two bounds. *)
Definition clamp (value minimum maximum : Z) : Z :=
  if value <? minimum then minimum
  else if maximum <? value then maximum
  else value.

(** Modelled from the spec: [helpers/utilityHelpers] is not among the
    sources.  [wrap] carries a value that leaves the closed range on one
    side over to the bound on the other side. *)
Definition wrap (value minimum maximum : Z) : Z :=
  if value <? minimum then maximum
  else if maximum <? value then minimum
  else value.

(** Modelled from the spec: [utilities/arrayHelper] is not among the
    sources.  [findIndex] gives the position of the first item that
    satisfies the predicate, or [null]; the callers compare its result
    with [null] and index the same array with it. *)
Fixpoint findIndex {T : Type} (items : list T) (predicate : T -> bool) : option nat :=
  match items with
  | [] => None
  | item :: rest =>
      if predicate item then Some 0%nat
      else option_map S (findIndex rest predicate)
  end.

End Helpers.

(** ** ui/spinner.ts *)

Module SpinnerComponent.

(** [type WrapMode = "wrap" | "clamp"]. *)
Inductive WrapMode := Wrap | Clamp.

Record SpinnerWidget := { text : string; isDisabled : bool }.

(** The fields of the class, the two it inherits from [Component]
    ([_name], [_isActive]), the widget it is bound to, and the lines it
    has written with [log]. *)
Record t := {
  _name : string;
  _isActive : bool;
  wrapMode : WrapMode;
  minimum : Z;
  maximum : Z;
  increment : Z;
  disabledMessage : string;
  format : option (Z -> string);
  _value : Z;
  widget : SpinnerWidget;
  console : list string
}.

Definition log (line : string) (s : t) : t :=
  s <| console := console s ++ [line] |>.

Definition performWrapMode (s : t) (value : Z) : Z :=
  match wrapMode s with
  | Wrap => Helpers.wrap value (minimum s) (maximum s - 1)
  | Clamp => Helpers.clamp value (minimum s) (maximum s - 1)
  end.

Definition refreshWidget (s : t) : t :=
  if _isActive s && (minimum s <? maximum s)
  then s <| widget := {| text := match format s with
                                 | Some f => f (_value s)
                                 | None => JS.toString (_value s)
                                 end;
                         isDisabled := maximum s - 1 <=? minimum s |} |>
  else s <| widget := {| text := disabledMessage s; isDisabled := true |} |>.

Definition set (value : Z) (s : t) : t :=
  if maximum s <=? minimum s
  then log ("(" ++ _name s ++ ") Minimum is equal to or larger than maximum, value "
                ++ JS.toString value ++ " was not applied.")%string s
  else if (value =? _value s) && _isActive s
  then s
  else refreshWidget (s <| _isActive := true |>
                        <| _value := performWrapMode s value |>).

(** The stored value is inside the configured bounds. *)
Definition inBounds (s : t) : Prop := minimum s <= _value s <= maximum s - 1.

End SpinnerComponent.

(** ** The game objects behind the view model

    [objects/parkRide], [objects/rideTrain], [objects/rideVehicle] and
    [objects/rideType] are not among the sources; the records below hold
    what the view model reads from them.  A ride carries its trains, a train
    its vehicles, and a vehicle the id of its car entity; the car itself is
    read from the game at the moment [_car()] is called. *)

Module Car.
(** The fields of the game's [Car] entity that the view model reads. *)
Record t := {
  id : Z;
  ride : Z;
  rideObject : Z;
  vehicleObject : Z;
  numSeats : Z;
  mass : Z;
  poweredAcceleration : Z;
  poweredMaxSpeed : Z;
  trackProgress : Z;
  x : Z;
  y : Z;
  z : Z;
  colours_body : Z;
  colours_trim : Z;
  colours_tertiary : Z;
  status : string
}.
End Car.

Module RideType.
(** Modelled from the spec: [objects/rideType] is not among the sources; the
    view model compares the [_id] of a ride type with the ride object of a
    car. *)
Record t := { _id : Z }.
End RideType.

Module RideVehicle.
(** Modelled from the spec: [objects/rideVehicle] is not among the sources.
    "Vehicle / car: the lowest-level entity"; the view model reads its
    [_id] and, through [_car()], the car entity with that id. *)
Record t := { _id : Z }.
End RideVehicle.

Module RideTrain.
(** Modelled from the spec: [objects/rideTrain] is not among the sources.
    "Train: an ordered sequence of vehicles traveling together"; a train
    exists through its first car, so the sequence is never empty. *)
Record t := { _head : RideVehicle.t; _rest : list RideVehicle.t }.
Definition _vehicles (train : t) : list RideVehicle.t := _head train :: _rest train.
Definition _at (train : t) (index : nat) : RideVehicle.t :=
  nth index (_vehicles train) (_head train).
End RideTrain.

Module ParkRide.
(** Modelled from the spec: [objects/parkRide] is not among the sources.
    "Ride: a host entity representing one attraction, owning zero or more
    trains." *)
Record t := { _id : Z; _trains : list RideTrain.t }.
End ParkRide.

(** What the game answers when it is asked, at one moment in time. *)
Record Game := {
  getEntity : Z -> Car.t;
  (** distance along the track between a car and the car in front of it,
      [None] when the game cannot resolve it *)
  distanceBetween : Car.t -> Car.t -> option Z
}.

Definition _car (game : Game) (vehicle : RideVehicle.t) : Car.t :=
  getEntity game (RideVehicle._id vehicle).

(** Modelled from the spec: [services/spacingEditor] is not among the
    sources.  "Spacing is computed relative to the immediately preceding
    vehicle in the same train; if the preceding vehicle's position cannot be
    resolved, the field becomes unavailable rather than a numeric value";
    the first vehicle of a train has no preceding vehicle. *)
Definition getSpacingToPrecedingVehicle
    (game : Game) (train : RideTrain.t) (car : Car.t) (index : nat) : option Z :=
  match index with
  | O => None
  | S before =>
      match nth_error (RideTrain._vehicles train) before with
      | Some preceding => distanceBetween game (_car game preceding) car
      | None => None
      end
  end.

(** [context.subscribe]: the game keeps the live subscriptions and hands out
    a disposable handle for each. *)
Module Context.

(** ["action.execute"] and ["interval.tick"]. *)
Inductive Hook := ActionExecute | IntervalTick.

Definition Hook_eqb (a b : Hook) : bool :=
  match a, b with
  | ActionExecute, ActionExecute | IntervalTick, IntervalTick => true
  | _, _ => false
  end.

(** An [IDisposable] is known by the number of its subscription. *)
Abbreviation IDisposable := nat (only parsing).

Record t := { nextHandle : nat; live : list (IDisposable * Hook) }.

Definition subscribe (hook : Hook) (context : t) : IDisposable * t :=
  (nextHandle context,
   {| nextHandle := S (nextHandle context);
      live := live context ++ [(nextHandle context, hook)] |}).

Definition dispose (handle : IDisposable) (context : t) : t :=
  context <| live := filter (fun s => negb (Nat.eqb (fst s) handle)) (live context) |>.

(** Number of live subscriptions to a hook. *)
Definition count (hook : Hook) (context : t) : nat :=
  List.length (filter (fun s => Hook_eqb (snd s) hook) (live context)).

(** Handles that were given out are below the next one. *)
Definition wellFormed (context : t) : Prop :=
  forall s, In s (live context) -> (fst s < nextHandle context)%nat.

End Context.

(** ** viewmodels/vehicleViewModel.ts *)

(** [VehicleSpan]: the id of a car and the number of cars from there on. *)
Definition VehicleSpan : Type := Z * Z.

(** The stores and private fields of [VehicleViewModel].  The computed stores
    [_trains], [_vehicles] and [_copyTargets] hold the value of their last
    computation.  Stores that only the widgets read or write ([_variants],
    [_isUnpowered], [_isPicking], [_clipboard]) are left out. *)
Record VehicleViewModel := {
  _selectedRide : option (ParkRide.t * nat);
  _selectedTrain : option (RideTrain.t * nat);
  _selectedVehicle : option (RideVehicle.t * nat);
  _rideTypes : list RideType.t;
  _rides : list ParkRide.t;
  _trains : list RideTrain.t;
  _vehicles : list RideVehicle.t;
  _type : option (RideType.t * nat);
  _variant : Z;
  _seats : Z;
  _mass : Z;
  _poweredAcceleration : Z;
  _poweredMaxSpeed : Z;
  _trackProgress : Z;
  _spacing : option Z;
  _x : Z;
  _y : Z;
  _z : Z;
  _primaryColour : Z;
  _secondaryColour : Z;
  _tertiaryColour : Z;
  _isMoving : bool;
  _multiplierIndex : Z;
  _copyFilters : Z;
  _copyTargetOption : Z;
  _copyTargets : list VehicleSpan;
  _synchronizeTargets : bool;
  _isOpen : option bool;
  _onPlayerAction : option Context.IDisposable;
  _onGameTick : option Context.IDisposable
}.

(** A store of the view model, as the function [updateSelectionOrNull]
    receives it: reading it, and writing it with its subscribers run. *)
Record Store (T : Type) := {
  get : VehicleViewModel -> T;
  set : T -> VehicleViewModel -> VehicleViewModel
}.
Arguments get {T} _ _.
Arguments set {T} _ _ _.

(** [_isEditDisabled], [_isPositionDisabled] and [_multiplier] are computed
    from stores only. *)
Definition _isEditDisabled (vm : VehicleViewModel) : bool :=
  match _selectedVehicle vm with Some _ => false | None => true end.
Definition _isPositionDisabled (vm : VehicleViewModel) : bool :=
  _isMoving vm || _isEditDisabled vm.
Definition _multiplier (vm : VehicleViewModel) : Z := 10 ^ _multiplierIndex vm.

(** If the vehicle is in a moving state, the xyz positions cannot be edited. *)
Definition isMoving (status : string) : bool :=
  existsb (String.eqb status)
    [ "arriving"; "crashing"; "departing"; "moving_to_end_of_station";
      "travelling_boat"; "travelling_cable_lift"; "travelling_dodgems";
      "travelling" ].

(** The [selection] that [updateSelectionOrNull] builds from the previous
    selection and the new items. *)
Definition nextSelection {T : Type}
    (previous : option (T * nat)) (items : list T) : option (T * nat) :=
  if (0 <? List.length items)%nat
  then
    let selectedIdx :=
      match previous with
      | Some (_, index) => if (index <? List.length items)%nat then index else 0%nat
      | None => 0%nat
      end in
    match nth_error items selectedIdx with
    | Some item => Some (item, selectedIdx)
    | None => None
    end
  else None.

(** Selects the correct entity based on the specified index in the store, or
    null if anything was deselected. *)
Definition updateSelectionOrNull {T : Type}
    (value : Store (option (T * nat))) (items : list T)
    (vm : VehicleViewModel) : VehicleViewModel :=
  let selection := nextSelection (get value vm) items in
  set value selection vm.

(** Updates the viewmodel with refreshed information from a car entity. *)
Definition _updateDynamicDataFromCar
    (game : Game) (car : Car.t) (index : nat)
    (vm : VehicleViewModel) : VehicleViewModel :=
  let vm := vm <| _variant := Car.vehicleObject car |>
               <| _mass := Car.mass car |>
               <| _trackProgress := Car.trackProgress car |>
               <| _x := Car.x car |>
               <| _y := Car.y car |>
               <| _z := Car.z car |> in
  match _selectedTrain vm with
  | Some (train, _) =>
      let status := Car.status (_car game (RideTrain._at train 0)) in
      vm <| _isMoving := isMoving status |>
         <| _spacing := getSpacingToPrecedingVehicle game train car index |>
  | None => vm
  end.

(** Updates the viewmodel with refreshed information from a ride vehicle. *)
Definition _updateVehicleInfo
    (game : Game) (vehicle : RideVehicle.t) (index : nat)
    (vm : VehicleViewModel) : VehicleViewModel :=
  let car := _car game vehicle in
  let types := _rideTypes vm in
  let typeIdx := Helpers.findIndex types (fun t => RideType._id t =? Car.rideObject car) in
  let vm := vm <| _type := match typeIdx with
                           | None => None
                           | Some i => option_map (fun t => (t, i)) (nth_error types i)
                           end |>
               <| _seats := Car.numSeats car |>
               <| _poweredAcceleration := Car.poweredAcceleration car |>
               <| _poweredMaxSpeed := Car.poweredMaxSpeed car |>
               <| _primaryColour := Car.colours_body car |>
               <| _secondaryColour := Car.colours_trim car |>
               <| _tertiaryColour := Car.colours_tertiary car |> in
  _updateDynamicDataFromCar game car index vm.

(** Synchronise the data of the model with the car. *)
Definition _onGameTickExecuted (game : Game) (vm : VehicleViewModel) : VehicleViewModel :=
  match _selectedVehicle vm with
  | Some (vehicle, index) => _updateDynamicDataFromCar game (_car game vehicle) index vm
  | None => vm
  end.

(** Toggle a filter on or off. *)
Definition _setFilter (filter : Z) (toggle : bool) (vm : VehicleViewModel) : VehicleViewModel :=
  let enabledFilters := _copyFilters vm in
  vm <| _copyFilters := if toggle
                        then JS.bitor enabledFilters filter
                        else JS.bitand enabledFilters (JS.bitnot filter) |>.

(** *** Writing to the stores

    [store.set(value)] keeps the value and calls the subscribers when the
    value is not identical to the one held.  Every selection written by the
    sources is [null] or a newly built pair, and every list a newly obtained
    array: only [null] over [null] goes unnoticed. *)

Section Stores.

(** [services/vehicleCopier.getTargets] is not among the sources: the
    target resolver is a parameter of the view model. *)
Variable getTargets :
  Z -> option (ParkRide.t * nat) -> option (RideTrain.t * nat) ->
  option (RideVehicle.t * nat) -> list VehicleSpan.

(** The computation behind the store [_copyTargets]. *)
Definition computeCopyTargets (vm : VehicleViewModel) : list VehicleSpan :=
  getTargets (_copyTargetOption vm) (_selectedRide vm) (_selectedTrain vm)
             (_selectedVehicle vm).

(** The state a constructed view model starts in. *)
Definition newVehicleViewModel : VehicleViewModel := {|
  _selectedRide := None;
  _selectedTrain := None;
  _selectedVehicle := None;
  _rideTypes := [];
  _rides := [];
  _trains := [];
  _vehicles := [];
  _type := None;
  _variant := 0;
  _seats := 0;
  _mass := 0;
  _poweredAcceleration := 0;
  _poweredMaxSpeed := 0;
  _trackProgress := 0;
  _spacing := Some 0;
  _x := 0;
  _y := 0;
  _z := 0;
  _primaryColour := 0;
  _secondaryColour := 0;
  _tertiaryColour := 0;
  _isMoving := false;
  _multiplierIndex := 0;
  _copyFilters := 0;
  _copyTargetOption := 0;
  _copyTargets := getTargets 0 None None None;
  _synchronizeTargets := false;
  _isOpen := None;
  _onPlayerAction := None;
  _onGameTick := None
|}.

(** Subscribers of [_selectedVehicle]: the computed store [_copyTargets],
    then the subscription made in the constructor. *)
Definition notify_selectedVehicle (game : Game) (vm : VehicleViewModel) : VehicleViewModel :=
  let vm := vm <| _copyTargets := computeCopyTargets vm |> in
  match _selectedVehicle vm with
  | Some (vehicle, index) =>
      if JS.truthy (_isOpen vm)
      then _updateVehicleInfo game vehicle index vm
      else vm
  | None => vm
  end.

Definition set_selectedVehicle (game : Game)
    (selection : option (RideVehicle.t * nat)) (vm : VehicleViewModel) : VehicleViewModel :=
  match _selectedVehicle vm, selection with
  | None, None => vm
  | _, _ => notify_selectedVehicle game (vm <| _selectedVehicle := selection |>)
  end.

Definition selectedVehicleStore (game : Game) : Store (option (RideVehicle.t * nat)) :=
  {| get := _selectedVehicle; set := set_selectedVehicle game |}.

(** [_vehicles], with the subscription made in the constructor. *)
Definition set_vehicles (game : Game)
    (items : list RideVehicle.t) (vm : VehicleViewModel) : VehicleViewModel :=
  updateSelectionOrNull (selectedVehicleStore game) items (vm <| _vehicles := items |>).

(** Subscriber of [_selectedTrain]: the computed store [_vehicles]. *)
Definition notify_selectedTrain (game : Game) (vm : VehicleViewModel) : VehicleViewModel :=
  set_vehicles game
    (match _selectedTrain vm with
     | Some (train, _) => RideTrain._vehicles train
     | None => []
     end) vm.

Definition set_selectedTrain (game : Game)
    (selection : option (RideTrain.t * nat)) (vm : VehicleViewModel) : VehicleViewModel :=
  match _selectedTrain vm, selection with
  | None, None => vm
  | _, _ => notify_selectedTrain game (vm <| _selectedTrain := selection |>)
  end.

Definition selectedTrainStore (game : Game) : Store (option (RideTrain.t * nat)) :=
  {| get := _selectedTrain; set := set_selectedTrain game |}.

(** [_trains], with the subscription made in the constructor. *)
Definition set_trains (game : Game)
    (items : list RideTrain.t) (vm : VehicleViewModel) : VehicleViewModel :=
  updateSelectionOrNull (selectedTrainStore game) items (vm <| _trains := items |>).

(** Subscriber of [_selectedRide]: the computed store [_trains]. *)
Definition notify_selectedRide (game : Game) (vm : VehicleViewModel) : VehicleViewModel :=
  set_trains game
    (match _selectedRide vm with
     | Some (ride, _) => ParkRide._trains ride
     | None => []
     end) vm.

Definition set_selectedRide (game : Game)
    (selection : option (ParkRide.t * nat)) (vm : VehicleViewModel) : VehicleViewModel :=
  match _selectedRide vm, selection with
  | None, None => vm
  | _, _ => notify_selectedRide game (vm <| _selectedRide := selection |>)
  end.

Definition selectedRideStore (game : Game) : Store (option (ParkRide.t * nat)) :=
  {| get := _selectedRide; set := set_selectedRide game |}.

(** [_rides], with the subscription made in the constructor. *)
Definition set_rides (game : Game)
    (items : list ParkRide.t) (vm : VehicleViewModel) : VehicleViewModel :=
  updateSelectionOrNull (selectedRideStore game) items (vm <| _rides := items |>).

(** [_copyTargetOption], whose subscriber is the computed [_copyTargets]. *)
Definition set_copyTargetOption (option : Z) (vm : VehicleViewModel) : VehicleViewModel :=
  if option =? _copyTargetOption vm
  then vm
  else let vm := vm <| _copyTargetOption := option |> in
       vm <| _copyTargets := computeCopyTargets vm |>.

(** *** The methods *)

(** Reload available rides and ride types when the window opens.  The two
    lists are what [getAllRideTypes()] and [getAllRides()] return. *)
Definition _open (game : Game) (allRideTypes : list RideType.t) (allRides : list ParkRide.t)
    (state : VehicleViewModel * Context.t) : VehicleViewModel * Context.t :=
  let (vm, context) := state in
  let vm := vm <| _isOpen := Some true |> in
  let vm := vm <| _rideTypes := allRideTypes |> in
  let vm := set_rides game allRides vm in
  let (vm, context) :=
    match _onPlayerAction vm with
    | Some _ => (vm, context)
    | None =>
        let (handle, context) := Context.subscribe Context.ActionExecute context in
        (vm <| _onPlayerAction := Some handle |>, context)
    end in
  match _onGameTick vm with
  | Some _ => (vm, context)
  | None =>
      let (handle, context) := Context.subscribe Context.IntervalTick context in
      (vm <| _onGameTick := Some handle |>, context)
  end.

(** Disposes events that were being listened for. *)
Definition _close (state : VehicleViewModel * Context.t) : VehicleViewModel * Context.t :=
  let (vm, context) := state in
  let vm := vm <| _isOpen := Some false |> in
  let context :=
    match _onPlayerAction vm with
    | Some handle => Context.dispose handle context
    | None => context
    end in
  let context :=
    match _onGameTick vm with
    | Some handle => Context.dispose handle context
    | None => context
    end in
  let vm := vm <| _onPlayerAction := None |> in
  let vm := vm <| _onGameTick := None |> in
  let vm := vm <| _multiplierIndex := 0 |> in
  let vm := vm <| _synchronizeTargets := false |> in
  (vm, context).

(** The two loops of [_select]: the first vehicle with the id of the car,
    train by train. *)
Fixpoint findVehicle (vehicles : list RideVehicle.t) (carId : Z) (v : nat)
    : option (RideVehicle.t * nat) :=
  match vehicles with
  | [] => None
  | vehicle :: rest =>
      if RideVehicle._id vehicle =? carId then Some (vehicle, v)
      else findVehicle rest carId (S v)
  end.

Fixpoint findTrain (trains : list RideTrain.t) (carId : Z) (t : nat)
    : option ((RideTrain.t * nat) * (RideVehicle.t * nat)) :=
  match trains with
  | [] => None
  | train :: rest =>
      match findVehicle (RideTrain._vehicles train) carId 0 with
      | Some found => Some ((train, t), found)
      | None => findTrain rest carId (S t)
      end
  end.

(** Select a specific car entity. *)
Definition _select (game : Game) (car : Car.t) (vm : VehicleViewModel) : VehicleViewModel :=
  let rides := _rides vm in
  let carId := Car.id car in
  let rideId := Car.ride car in
  match Helpers.findIndex rides (fun r => ParkRide._id r =? rideId) with
  | None => vm
  | Some carRideIndex =>
      match nth_error rides carRideIndex with
      | None => vm
      | Some ride =>
          let vm := set_selectedRide game (Some (ride, carRideIndex)) vm in
          match findTrain (_trains vm) carId 0 with
          | Some (train, vehicle) =>
              let vm := set_selectedTrain game (Some train) vm in
              set_selectedVehicle game (Some vehicle) vm
          | None => vm
          end
      end
  end.

(** The callback pushed on [refreshVehicle] in the constructor. *)
Definition onRefreshVehicle (game : Game) (id : Z) (vm : VehicleViewModel) : VehicleViewModel :=
  if negb (JS.truthy (_isOpen vm))
  then vm
  else
    match _selectedVehicle vm with
    | Some (vehicle, index) =>
        if RideVehicle._id vehicle =? id
        then _updateVehicleInfo game vehicle index vm
        else vm
    | None => vm
    end.

(** [onChange] of the vehicle list in [ui/sideWindow.ts]; the list reports
    positions of its own items. *)
Definition vehicleList_onChange (game : Game) (idx : nat) (vm : VehicleViewModel) : VehicleViewModel :=
  match nth_error (_vehicles vm) idx with
  | Some vehicle => set_selectedVehicle game (Some (vehicle, idx)) vm
  | None => vm
  end.

(** [value: twoway(model._trackProgress)] in [ui/sideWindow.ts]: the track
    progress spinner writes the value it is spun to into the store; the
    spinner is disabled by [_isEditDisabled]. *)
Definition trackProgress_twoway (value : Z) (vm : VehicleViewModel) : VehicleViewModel :=
  if _isEditDisabled vm then vm else vm <| _trackProgress := value |>.

(** *** What can happen to a view model

    The calls that reach the view model from the windows and from the
    game.  [_onPlayerActionExecuted] reaches the stores through
    [_rides.set] and [_trains.set] only. *)
Inductive Event :=
| WindowOpened (allRideTypes : list RideType.t) (allRides : list ParkRide.t)
| WindowClosed
| CarPicked (car : Car.t)
| GameTick
| VehicleRefreshed (id : Z)
| RidesReloaded (rides : list ParkRide.t)
| TrainsReloaded (trains : list RideTrain.t)
| VehicleChosen (idx : nat)
| FilterToggled (filter : Z) (toggle : bool)
| CopyTargetChosen (option : Z)
| SynchronizeToggled (enabled : bool)
| MultiplierChosen (idx : Z)
| TrackProgressSpun (value : Z).

Definition onModel (f : VehicleViewModel -> VehicleViewModel)
    (state : VehicleViewModel * Context.t) : VehicleViewModel * Context.t :=
  (f (fst state), snd state).

Definition step (game : Game) (event : Event)
    (state : VehicleViewModel * Context.t) : VehicleViewModel * Context.t :=
  match event with
  | WindowOpened allRideTypes allRides => _open game allRideTypes allRides state
  | WindowClosed => _close state
  | CarPicked car => onModel (_select game car) state
  | GameTick =>
      (* the tick reaches the model while its subscription is live *)
      match _onGameTick (fst state) with
      | Some _ => onModel (_onGameTickExecuted game) state
      | None => state
      end
  | VehicleRefreshed id => onModel (onRefreshVehicle game id) state
  | RidesReloaded rides => onModel (set_rides game rides) state
  | TrainsReloaded trains => onModel (set_trains game trains) state
  | VehicleChosen idx => onModel (vehicleList_onChange game idx) state
  | FilterToggled filter toggle => onModel (_setFilter filter toggle) state
  | CopyTargetChosen option => onModel (set_copyTargetOption option) state
  | SynchronizeToggled enabled =>
      onModel (fun vm => vm <| _synchronizeTargets := enabled |>) state
  | MultiplierChosen idx =>
      onModel (fun vm => vm <| _multiplierIndex := idx |>) state
  | TrackProgressSpun value => onModel (trackProgress_twoway value) state
  end.

(** A run: the events in the order they happen, each with the state of
    the game at that moment. *)
Fixpoint run (events : list (Game * Event))
    (state : VehicleViewModel * Context.t) : VehicleViewModel * Context.t :=
  match events with
  | [] => state
  | (game, event) :: rest => run rest (step game event state)
  end.

(** The states a view model can be in: those a run reaches from the
    constructed view model. *)
Definition reachable (context : Context.t) (state : VehicleViewModel * Context.t) : Prop :=
  exists events, state = run events (newVehicleViewModel, context).

(** The hierarchy is consistent: without a train there are no vehicles to
    choose from and none is selected, and while a vehicle is selected the
    store [_copyTargets] holds what the resolver gives for the stores as they
    are. *)
Definition consistent (vm : VehicleViewModel) : Prop :=
  (_selectedTrain vm = None -> _vehicles vm = [] /\ _selectedVehicle vm = None) /\
  (_selectedVehicle vm <> None -> _copyTargets vm = computeCopyTargets vm).

End Stores.

(** *** Editing the selected vehicle

    An edit action is a function of the repository's services; it is called
    with the spans to change and the value, and may change the game, the view
    model (through the refresh callbacks) and the developer console.  The
    machine holds the three. *)

Record Machine (W : Type) := {
  model : VehicleViewModel;
  world : W;
  debugLog : list (list string)
}.
Arguments model {W} _.
Arguments world {W} _.
Arguments debugLog {W} _.

(** A JavaScript function: its [name] and what calling it does. *)
Record Action (T W : Type) := {
  name : string;
  call : list VehicleSpan -> T -> Machine W -> Machine W
}.
Arguments name {T W} _.
Arguments call {T W} _ _ _ _.

(** [Log.debug(...)]: a line on the developer console. *)
Definition Log_debug {W : Type} (line : list string) (m : Machine W) : Machine W :=
  {| model := model m; world := world m; debugLog := debugLog m ++ [line] |}.

(** Attempt to modify the vehicle with the specified action, if a vehicle is
    selected.  [show] is the console's rendering of the value. *)
Definition _modifyVehicle {T W : Type} (show : T -> string)
    (action : Action T W) (value : T) (m : Machine W) : Machine W :=
  match _selectedVehicle (model m) with
  | Some (vehicle, _) =>
      if _synchronizeTargets (model m)
      then call action (_copyTargets (model m)) value m
      else call action [ (RideVehicle._id vehicle, 1) ] value m
  | None =>
      Log_debug [ "Failed to modify vehicle with"; name action; "to"; show value;
                  "; none is selected." ] m
  end.

(** An action that does nothing but note the spans it was called with. *)
Definition recorder {T : Type} : Action T (list (list VehicleSpan)) :=
  {| name := "recorder";
     call := fun vehicles _ m =>
       {| model := model m; world := world m ++ [vehicles]; debugLog := debugLog m |} |}.

(** ** ui/sideWindow.ts: the spacing spinner *)

(** [value: compute(model._spacing, v => v || 0)]. *)
Definition spacing_value (vm : VehicleViewModel) : Z :=
  match _spacing vm with
  | Some v => v
  | None => 0
  end.

(** [format] of the spacing spinner. *)
Definition spacing_format (vm : VehicleViewModel) : string :=
  match _spacing vm with
  | None => "Too far away"
  | Some spacing => JS.toString spacing
  end.

(** [disabled] of the spacing spinner. *)
Definition spacing_disabled (vm : VehicleViewModel) : bool :=
  _isEditDisabled vm ||
  match _selectedVehicle vm with
  | None => true
  | Some (_, index) => Nat.eqb index 0
  end.

(** The fifteen stores that mirror the selected car. *)
Definition identityFields (vm : VehicleViewModel) :=
  (_type vm, _seats vm, _poweredAcceleration vm, _poweredMaxSpeed vm,
   (_primaryColour vm, _secondaryColour vm, _tertiaryColour vm)).

Definition dynamicFields (vm : VehicleViewModel) :=
  (_variant vm, _mass vm, _trackProgress vm, (_x vm, _y vm, _z vm),
   _isMoving vm, _spacing vm).

Definition mirroredFields (vm : VehicleViewModel) :=
  (identityFields vm, dynamicFields vm).

(** Everything else the view model holds. *)
Definition otherFields (vm : VehicleViewModel) :=
  (_selectedRide vm, _selectedTrain vm, _selectedVehicle vm,
   (_rideTypes vm, _rides vm, _trains vm, _vehicles vm),
   (_multiplierIndex vm, _copyFilters vm, _copyTargetOption vm, _copyTargets vm,
    _synchronizeTargets vm),
   (_isOpen vm, _onPlayerAction vm, _onGameTick vm)).

(** The stores and fields that no write to a selection or to a list of the
    hierarchy reaches. *)
Definition fixedFields (vm : VehicleViewModel) :=
  (_rideTypes vm, _multiplierIndex vm, _copyFilters vm, _copyTargetOption vm,
   _synchronizeTargets vm, (_isOpen vm, _onPlayerAction vm, _onGameTick vm)).

(** The identity and appearance of a car, as [_updateVehicleInfo] reads
    them with the ride types at hand. *)
Definition carIdentity (types : list RideType.t) (car : Car.t) :=
  (match Helpers.findIndex types (fun t => RideType._id t =? Car.rideObject car) with
   | None => None
   | Some i => option_map (fun t => (t, i)) (nth_error types i)
   end,
   Car.numSeats car, Car.poweredAcceleration car, Car.poweredMaxSpeed car,
   (Car.colours_body car, Car.colours_trim car, Car.colours_tertiary car)).

(** The mirrored stores of [vm'] are those of [vm], or [vm'] is the result
    of one full pull of the selected vehicle on a view model with the
    mirrored stores of [vm]. *)
Definition pulledAtMostOnce (game : Game) (vm vm' : VehicleViewModel) : Prop :=
  mirroredFields vm' = mirroredFields vm \/
  exists vehicle index before,
    _selectedVehicle before = Some (vehicle, index) /\
    mirroredFields before = mirroredFields vm /\
    vm' = _updateVehicleInfo game vehicle index before.

(** The subscriptions the view model holds a handle of. *)
Definition ownSubscriptions (vm : VehicleViewModel) : list (Context.IDisposable * Context.Hook) :=
  match _onPlayerAction vm with
  | Some handle => [ (handle, Context.ActionExecute) ]
  | None => []
  end ++
  match _onGameTick vm with
  | Some handle => [ (handle, Context.IntervalTick) ]
  | None => []
  end.

(** The live subscriptions are those that were live before the view model
    was constructed and those it holds a handle of, and it holds both
    handles or none. *)
Definition subscribed (before : Context.t) (state : VehicleViewModel * Context.t) : Prop :=
  let (vm, context) := state in
  Context.live context = Context.live before ++ ownSubscriptions vm /\
  (Context.nextHandle before <= Context.nextHandle context)%nat /\
  (forall s, In s (ownSubscriptions vm) ->
     (Context.nextHandle before <= fst s < Context.nextHandle context)%nat) /\
  NoDup (map fst (ownSubscriptions vm)) /\
  (_onPlayerAction vm = None <-> _onGameTick vm = None).

(** What the subscribers of [_selectedVehicle] leave alone. *)
Definition aboveVehicle (vm : VehicleViewModel) :=
  (_selectedVehicle vm, _selectedRide vm, _selectedTrain vm,
   (_rides vm, _trains vm, _vehicles vm), fixedFields vm).

(** ** The editor window of [src/unnamed/part_000] and its clipboard *)

Module VehicleEditorWindow.

Section Clipboard.

(** [services/editor.VehicleSettings] is not among the sources; the
    window only stores and hands on values of this type. *)
Variable VehicleSettings : Type.

(** What the event handlers of the window act on. *)
Variable W : Type.

(** The module variable [copiedVehicleSettings], the two widgets of the
    window that the copy button touches, and the two event fields. *)
Record t := {
  copiedVehicleSettings : option VehicleSettings;
  copyButton_isPressed : bool;
  pasteButton_isDisabled : bool;
  onCopyVehicle : option (W -> option VehicleSettings);
  onPasteVehicle : option (VehicleSettings -> W -> W)
}.

(** The module is loaded with [let copiedVehicleSettings = null], and
    [createWindow] sets [isPressed] and [isDisabled] from it. *)
Definition createWindow (copied : option VehicleSettings)
    (copyHandler : option (W -> option VehicleSettings))
    (pasteHandler : option (VehicleSettings -> W -> W)) : t :=
  {| copiedVehicleSettings := copied;
     copyButton_isPressed := match copied with Some _ => true | None => false end;
     pasteButton_isDisabled := match copied with Some _ => false | None => true end;
     onCopyVehicle := copyHandler;
     onPasteVehicle := pasteHandler |}.

Definition loaded := createWindow None.

(** Enables and disables the copy/paste buttons depending on the copy
    state. *)
Definition onClickCopy (w : W) (window : t) : t :=
  let window :=
    if copyButton_isPressed window
    then window <| copyButton_isPressed := false |>
                <| copiedVehicleSettings := None |>
    else
      match onCopyVehicle window with
      | Some handler =>
          let window := window <| copiedVehicleSettings := handler w |> in
          match copiedVehicleSettings window with
          | Some _ => window <| copyButton_isPressed := true |>
          | None => window
          end
      | None => window
      end in
  window <| pasteButton_isDisabled := negb (copyButton_isPressed window) |>.

(** [onClick] of the paste button. *)
Definition onClickPaste (window : t) (w : W) : W :=
  match copiedVehicleSettings window, onPasteVehicle window with
  | Some settings, Some handler => handler settings w
  | _, _ => w
  end.

(** A click on one of the two buttons, or the game changing under the
    window. *)
Inductive Click := CopyClicked | PasteClicked | GameChanged (w : W).

Definition click (c : Click) (state : t * W) : t * W :=
  match c with
  | CopyClicked => (onClickCopy (snd state) (fst state), snd state)
  | PasteClicked => (fst state, onClickPaste (fst state) (snd state))
  | GameChanged w => (fst state, w)
  end.

Fixpoint clicks (cs : list Click) (state : t * W) : t * W :=
  match cs with
  | [] => state
  | c :: rest => clicks rest (click c state)
  end.

(** The copy button is pressed exactly while a snapshot is held, and the
    paste button is disabled exactly while none is. *)
Definition toggled (window : t) : Prop :=
  copyButton_isPressed window
    = match copiedVehicleSettings window with Some _ => true | None => false end /\
  pasteButton_isDisabled window = negb (copyButton_isPressed window).

End Clipboard.

Arguments copiedVehicleSettings {VehicleSettings W} _.
Arguments copyButton_isPressed {VehicleSettings W} _.
Arguments pasteButton_isDisabled {VehicleSettings W} _.
Arguments onCopyVehicle {VehicleSettings W} _.
Arguments onPasteVehicle {VehicleSettings W} _.
Arguments createWindow {VehicleSettings W} _ _ _.
Arguments loaded {VehicleSettings W} _ _.
Arguments onClickCopy {VehicleSettings W} _ _.
Arguments onClickPaste {VehicleSettings W} _ _.
Arguments CopyClicked {W}.
Arguments PasteClicked {W}.
Arguments GameChanged {W} _.
Arguments click {VehicleSettings W} _ _.
Arguments clicks {VehicleSettings W} _ _.
Arguments toggled {VehicleSettings W} _.

End VehicleEditorWindow.

(** ** The rule of the selection hierarchy, in the words of the spec

    "If the new list is empty, the selection is null; else if the previous
    selection's index is still within bounds, keep the same index (entity
    reference refreshed to the new list's item at that index); else
    index 0." *)
Definition followsSelectionRule {T : Type}
    (previous : option (T * nat)) (items : list T) (selection : option (T * nat)) : Prop :=
  (items = [] -> selection = None) /\
  (forall entity index,
     previous = Some (entity, index) -> (index < List.length items)%nat ->
     exists item, nth_error items index = Some item /\ selection = Some (item, index)) /\
  (forall first rest,
     items = first :: rest ->
     previous = None \/
     (exists entity index,
        previous = Some (entity, index) /\ (List.length items <= index)%nat) ->
     selection = Some (first, 0%nat)).

(** ** Concrete objects used in examples *)

Module Examples.

(** A spinner for ten variants, as the window builds it before it is
    bound and set. *)
Definition variantSpinner : SpinnerComponent.t := {|
  SpinnerComponent._name := "rve-variant-spinner";
  SpinnerComponent._isActive := false;
  SpinnerComponent.wrapMode := SpinnerComponent.Wrap;
  SpinnerComponent.minimum := 0;
  SpinnerComponent.maximum := 10;
  SpinnerComponent.increment := 1;
  SpinnerComponent.disabledMessage := "Not available";
  SpinnerComponent.format := None;
  SpinnerComponent._value := 0;
  SpinnerComponent.widget := {| SpinnerComponent.text := ""; SpinnerComponent.isDisabled := false |};
  SpinnerComponent.console := []
|}.

(** The same spinner after it was set to 5 and the ride type changed to
    one with three variants. *)
Definition narrowedSpinner : SpinnerComponent.t :=
  (SpinnerComponent.set 5 variantSpinner) <| SpinnerComponent.maximum := 3 |>.

(** A ride with two trains of three and two cars; every car seats four,
    stands seven steps behind the car in front of it and is waiting. *)
Definition carOf (id : Z) : Car.t := {|
  Car.id := id;
  Car.ride := 1;
  Car.rideObject := 7;
  Car.vehicleObject := 0;
  Car.numSeats := 4;
  Car.mass := 100 + id;
  Car.poweredAcceleration := 0;
  Car.poweredMaxSpeed := 0;
  Car.trackProgress := 3;
  Car.x := 32 * id;
  Car.y := 64;
  Car.z := 8;
  Car.colours_body := 1;
  Car.colours_trim := 2;
  Car.colours_tertiary := 3;
  Car.status := "waiting_for_passengers"
|}.

Definition game0 : Game :=
  {| getEntity := carOf; distanceBetween := fun _ _ => Some 7 |}.

(** The same park after the cars were given six seats each. *)
Definition game1 : Game :=
  {| getEntity := fun id =>
       let car := carOf id in
       {| Car.id := Car.id car; Car.ride := Car.ride car;
          Car.rideObject := Car.rideObject car;
          Car.vehicleObject := Car.vehicleObject car;
          Car.numSeats := 6;
          Car.mass := Car.mass car;
          Car.poweredAcceleration := Car.poweredAcceleration car;
          Car.poweredMaxSpeed := Car.poweredMaxSpeed car;
          Car.trackProgress := Car.trackProgress car;
          Car.x := Car.x car; Car.y := Car.y car; Car.z := Car.z car;
          Car.colours_body := Car.colours_body car;
          Car.colours_trim := Car.colours_trim car;
          Car.colours_tertiary := Car.colours_tertiary car;
          Car.status := Car.status car |};
     distanceBetween := fun _ _ => Some 7 |}.

Definition vehicle (id : Z) : RideVehicle.t := {| RideVehicle._id := id |}.

Definition train1 : RideTrain.t :=
  {| RideTrain._head := vehicle 10; RideTrain._rest := [vehicle 11; vehicle 12] |}.
Definition train2 : RideTrain.t :=
  {| RideTrain._head := vehicle 20; RideTrain._rest := [vehicle 21] |}.

Definition ride1 : ParkRide.t := {| ParkRide._id := 1; ParkRide._trains := [train1; train2] |}.
Definition ride2 : ParkRide.t := {| ParkRide._id := 2; ParkRide._trains := [] |}.

Definition type7 : RideType.t := {| RideType._id := 7 |}.

Definition noSubscriptions : Context.t := {| Context.nextHandle := 0; Context.live := [] |}.

(** A resolver that finds no targets, and a view model built with it. *)
Definition noTargets
    (mode : Z) (ride : option (ParkRide.t * nat)) (train : option (RideTrain.t * nat))
    (vehicle : option (RideVehicle.t * nat)) : list VehicleSpan := [].

Definition freshModel : VehicleViewModel := newVehicleViewModel noTargets.

(** The window was opened on the park with both rides: the first ride, its
    first train and the first car of that train are selected. *)
Definition openedRun : list (Game * Event) :=
  [ (game0, WindowOpened [type7] [ride1; ride2]) ].
Definition opened : VehicleViewModel * Context.t :=
  run noTargets openedRun (freshModel, noSubscriptions).

(** Then the second car of the train was chosen in the vehicle list. *)
Definition secondCarRun : list (Game * Event) := openedRun ++ [ (game0, VehicleChosen 1) ].
Definition secondCar : VehicleViewModel * Context.t :=
  run noTargets secondCarRun (freshModel, noSubscriptions).

(** Then the ride was closed and the game removed its trains. *)
Definition trainsRemovedRun : list (Game * Event) := secondCarRun ++ [ (game0, TrainsReloaded []) ].
Definition trainsRemoved : VehicleViewModel * Context.t :=
  run noTargets trainsRemovedRun (freshModel, noSubscriptions).

(** A resolver that answers with the whole selected train, and the opened
    window of a view model built with it, after "Synchronize" was pressed. *)
Definition wholeTrain
    (mode : Z) (ride : option (ParkRide.t * nat)) (train : option (RideTrain.t * nat))
    (vehicle : option (RideVehicle.t * nat)) : list VehicleSpan :=
  match train, vehicle with
  | Some (t, _), Some _ =>
      [ (RideVehicle._id (RideTrain._head t),
         Z.of_nat (List.length (RideTrain._vehicles t))) ]
  | _, _ => []
  end.

Definition synchronizedRun : list (Game * Event) :=
  [ (game0, WindowOpened [type7] [ride1; ride2]); (game0, SynchronizeToggled true) ].
Definition synchronized : VehicleViewModel * Context.t :=
  run wholeTrain synchronizedRun (newVehicleViewModel wholeTrain, noSubscriptions).

(** The window is opened, and opened again without being closed. *)
Definition reopenedRun : list (Game * Event) :=
  [ (game0, WindowOpened [type7] [ride1; ride2]);
    (game0, WindowOpened [type7] [ride1; ride2]) ].

(** An editor window whose copy handler captures the number the game
    shows at the moment of the click; the game shows 1. *)
Definition clipboardStart : VehicleEditorWindow.t Z Z * Z :=
  (VehicleEditorWindow.loaded (Some (fun w : Z => Some w)) None, 1).

(** A machine that holds a view model, with nothing noted so far. *)
Definition machineOf (vm : VehicleViewModel) : Machine (list (list VehicleSpan)) :=
  {| model := vm; world := []; debugLog := [] |}.

End Examples.

(** ** More of the sources *)

(** *** ui/spinner.ts: the callbacks of the widget *)

Module SpinnerCallbacks.

Import SpinnerComponent.

Section OnChange.

(** What the [onChange] callback of a spinner acts on. *)
Variable W : Type.

(** Triggered when a value is selected in the spinner.  [onChange] is the
    optional event field of the class. *)
Definition onWidgetChange (onChange : option (Z -> Z -> W -> W))
    (value adjustment : Z) (state : t * W) : t * W :=
  let (s, w) := state in
  if isDisabled (widget s)
  then (log ("(" ++ _name s ++ ") Widget is disabled, no change event triggered.")%string s, w)
  else
    let value := value + adjustment in
    let s := log ("--->(" ++ _name s ++ ") Try updating " ++ JS.toString (_value s)
                    ++ " -> " ++ JS.toString value ++ ", adjustment: "
                    ++ JS.toString adjustment ++ ".")%string s in
    let s := set value s in
    match onChange with
    | Some handler => (s, handler (_value s) adjustment w)
    | None => (s, w)
    end.

(** [onIncrement] and [onDecrement] of the widget [createWidget] builds. *)
Definition onIncrement (onChange : option (Z -> Z -> W -> W)) (state : t * W) : t * W :=
  onWidgetChange onChange (_value (fst state)) (increment (fst state)) state.

Definition onDecrement (onChange : option (Z -> Z -> W -> W)) (state : t * W) : t * W :=
  onWidgetChange onChange (_value (fst state)) (- increment (fst state)) state.

End OnChange.

Arguments onWidgetChange {W} _ _ _ _.
Arguments onIncrement {W} _ _.
Arguments onDecrement {W} _ _.

(** An [onChange] that notes what it is called with. *)
Definition noteChange : option (Z -> Z -> list (Z * Z) -> list (Z * Z)) :=
  Some (fun value adjustment calls => calls ++ [(value, adjustment)]).

End SpinnerCallbacks.

(** *** ui/viewport.ts *)

Module ViewportComponent.

(** [CoordsXY | CoordsXYZ]. *)
Definition Position : Type := Z * Z * option Z.

Definition farAway : Position := (-9000, -9000, None).

(** The two fields of the class, the two it inherits from [Component], and
    the positions its widget's viewport was moved to, in order.  The lines
    written with [log] are left out. *)
Record t := {
  _name : string;
  _isActive : bool;
  _entityId : Z;
  _updater : option Context.IDisposable;
  moves : list Position
}.

(** [widget.viewport.moveTo(position)]. *)
Definition moveTo (position : Position) (v : t) : t :=
  v <| moves := moves v ++ [position] |>.

(** Where the viewport was sent last, if it was sent anywhere. *)
Definition shown (v : t) : option Position := last (map Some (moves v)) None.

Section Following.

(** [map.getEntity(id)]: the position of the entity, if the game has it. *)
Variable getEntity : Z -> option (Z * Z * Z).

(** [error(...)] followed by [this.stop()]: [error] and [Component.active]
    are not among the sources; what they do when [update] finds no entity
    to follow is a parameter. *)
Variable withoutEntity : t * Context.t -> t * Context.t.

(** Update function that will run every tick if this viewport is following
    an entity. *)
Definition update (state : t * Context.t) : t * Context.t :=
  let (v, context) := state in
  if _entityId v =? -1
  then withoutEntity state
  else
    match getEntity (_entityId v) with
    | Some (x, y, z) => (moveTo (x, y, Some z) v, context)
    | None => state
    end.

Definition refreshWidget (state : t * Context.t) : t * Context.t :=
  let (v, context) := state in
  if _isActive v && negb (_entityId v =? -1)
  then
    update
      match _updater v with
      | None =>
          let (handle, context) := Context.subscribe Context.IntervalTick context in
          (v <| _updater := Some handle |>, context)
      | Some _ => (v, context)
      end
  else
    match _updater v with
    | Some handle =>
        (moveTo farAway (v <| _updater := None |>), Context.dispose handle context)
    | None => state
    end.

(** Sets the viewport to go to a specific position. *)
Definition goTo (position : Position) (state : t * Context.t) : t * Context.t :=
  let (v, context) := state in
  let v := v <| _isActive := true |> in
  let v := v <| _entityId := -1 |> in
  refreshWidget (moveTo position v, context).

End Following.

End ViewportComponent.

(** *** viewmodels/vehicleViewModel.ts: executed player actions *)

Module ArrayHelper.

(** Modelled from the spec: [utilities/arrayHelper] is not among the
    sources.  [find] gives the first item that satisfies the predicate, or
    [null]; its caller compares the result with [null]. *)
Fixpoint find {T : Type} (items : list T) (predicate : T -> bool) : option T :=
  match items with
  | [] => None
  | item :: rest => if predicate item then Some item else find rest predicate
  end.

End ArrayHelper.

Module PlayerAction.

(** The fields of [GameActionEventArgs] the handler branches on; [args_ride]
    is [args.ride] of a ["ridesetstatus"] action. *)
Record GameActionEventArgs := {
  isClientOnly : bool;
  action : string;
  args_ride : Z
}.

(** What the game objects answer while the handler runs: [getAllRides()],
    [ride._refresh()], [ride._trains()] after that refresh, and
    [train._refresh()]. *)
Record Answers := {
  getAllRides : list ParkRide.t;
  ride_refresh : ParkRide.t -> bool;
  ride_trains : ParkRide.t -> list RideTrain.t;
  train_refresh : RideTrain.t -> bool
}.

End PlayerAction.

Section PlayerActions.

Variable getTargets :
  Z -> option (ParkRide.t * nat) -> option (RideTrain.t * nat) ->
  option (RideVehicle.t * nat) -> list VehicleSpan.

(** Triggers for every executed player action. *)
Definition _onPlayerActionExecuted (game : Game) (answers : PlayerAction.Answers)
    (event : PlayerAction.GameActionEventArgs) (vm : VehicleViewModel) : VehicleViewModel :=
  if PlayerAction.isClientOnly event
  then vm
  else
    let action := PlayerAction.action event in
    if existsb (String.eqb action) [ "ridecreate"; "ridedemolish"; "ridesetname" ]
    then set_rides getTargets game (PlayerAction.getAllRides answers) vm
    else if String.eqb action "ridesetstatus"
    then
      let rideId := PlayerAction.args_ride event in
      let rides := _rides vm in
      match ArrayHelper.find rides (fun r => ParkRide._id r =? rideId) with
      | Some ride =>
          let rideExists := PlayerAction.ride_refresh answers ride in
          match _selectedRide vm with
          | Some (selected, _) =>
              if ParkRide._id selected =? rideId
              then
                let selectedTrain := _selectedTrain vm in
                if rideExists && match selectedTrain with Some _ => false | None => true end
                then set_trains getTargets game (PlayerAction.ride_trains answers ride) vm
                else if negb rideExists ||
                        match selectedTrain with
                        | Some (train, _) => negb (PlayerAction.train_refresh answers train)
                        | None => false
                        end
                then set_trains getTargets game [] vm
                else vm
              else vm
          | None => vm
          end
      | None => vm
      end
    else vm.

(** The handler runs while its subscription is live. *)
Definition playerActionExecuted (game : Game) (answers : PlayerAction.Answers)
    (event : PlayerAction.GameActionEventArgs)
    (state : VehicleViewModel * Context.t) : VehicleViewModel * Context.t :=
  match _onPlayerAction (fst state) with
  | Some _ => onModel (_onPlayerActionExecuted game answers event) state
  | None => state
  end.

End PlayerActions.

(** The selections point into the lists: each selected entity is the item
    at the selected position of its list, and the list of vehicles is that of
    the selected train. *)
Definition positioned (vm : VehicleViewModel) : Prop :=
  (forall ride index,
     _selectedRide vm = Some (ride, index) -> nth_error (_rides vm) index = Some ride) /\
  (forall train index,
     _selectedTrain vm = Some (train, index) -> nth_error (_trains vm) index = Some train) /\
  (forall vehicle index,
     _selectedVehicle vm = Some (vehicle, index) ->
     nth_error (_vehicles vm) index = Some vehicle) /\
  _vehicles vm = match _selectedTrain vm with
                 | Some (train, _) => RideTrain._vehicles train
                 | None => []
                 end.

(** The view model does not listen to the game while its window is not
    open. *)
Definition listensOnlyWhenOpen (vm : VehicleViewModel) : Prop :=
  JS.truthy (_isOpen vm) = false -> _onPlayerAction vm = None /\ _onGameTick vm = None.

(** What a pull of a vehicle writes into the fifteen mirrored stores while
    a train is selected: [_updateVehicleInfo] with the ride types at hand. *)
Definition pulledFields (game : Game) (types : list RideType.t)
    (train : RideTrain.t) (vehicle : RideVehicle.t) (index : nat) :=
  let car := _car game vehicle in
  (carIdentity types car,
   (Car.vehicleObject car, Car.mass car, Car.trackProgress car,
    (Car.x car, Car.y car, Car.z car),
    isMoving (Car.status (_car game (RideTrain._at train 0))),
    getSpacingToPrecedingVehicle game train car index)).

(** The fifteen mirrored stores of [vm] hold what a full pull of the
    vehicle that is selected in [vm] writes, in the given state of the game,
    with the train that is selected in [vm] and its ride types. *)
Definition mirrorsSelection (game : Game) (vm : VehicleViewModel) : Prop :=
  exists train position vehicle index,
    _selectedTrain vm = Some (train, position) /\
    _selectedVehicle vm = Some (vehicle, index) /\
    mirroredFields vm = pulledFields game (_rideTypes vm) train vehicle index.

(** What an event does to the mirrored stores, from [vm] to [vm']: nothing;
    or they are left as a full pull of the vehicle selected afterwards writes
    them; or the event is a game tick, a vehicle is selected, and its dynamic
    data are pulled; or the event is the track progress spinner being spun
    while a vehicle is selected, and the value is written to [_trackProgress]. *)
Definition mirrorWrite (game : Game) (event : Event) (vm vm' : VehicleViewModel) : Prop :=
  mirroredFields vm' = mirroredFields vm \/
  mirrorsSelection game vm' \/
  (exists vehicle index,
     event = GameTick /\
     _selectedVehicle vm = Some (vehicle, index) /\
     vm' = _updateDynamicDataFromCar game (_car game vehicle) index vm) \/
  (exists value,
     event = TrackProgressSpun value /\
     _selectedVehicle vm <> None /\
     vm' = vm <| _trackProgress := value |>).

(** ** ui/sideWindow.ts: lists, labels and limits *)

(** [isChecked: compute(model._copyFilters, f => !!(f & filter))] of the
    check boxes of the copy filters. *)
Definition filter_isChecked (filter : Z) (vm : VehicleViewModel) : bool :=
  negb (JS.bitand (_copyFilters vm) filter =? 0).

(** [maximum] of the spinner "Amount of vehicles to modify", whose
    [minimum] is 1. *)
Definition amount_maximum (vm : VehicleViewModel) : Z :=
  match _selectedVehicle vm with
  | Some (_, index) => Z.of_nat (List.length (_vehicles vm)) - Z.of_nat index
  | None => 1
  end.

Section RideTypeNames.

(** [rideType._object().name]: the name of the loaded ride object. *)
Variable objectName : RideType.t -> string.

(** The loop of [getUniqueRideTypeNames], from some position on; [streak]
    and [last] are [undefined] before the first round. *)
Fixpoint uniqueNamesLoop (rideTypes : list RideType.t) (streak last : option string)
    : list string :=
  match rideTypes with
  | [] => []
  | rideType :: rest =>
      let current := objectName rideType in
      let same := match streak with
                  | Some s => String.eqb current s
                  | None => false
                  end in
      let last := if same
                  then (match last with Some l => l | None => "undefined" end ++ " ")%string
                  else current in
      let streak := if same then streak else Some current in
      last :: uniqueNamesLoop rest streak (Some last)
  end.

(** Hack: make ride type names unique so they don't get mixed up. *)
Definition getUniqueRideTypeNames (rideTypes : list RideType.t) : list string :=
  uniqueNamesLoop rideTypes None None.

End RideTypeNames.

(** [count] invisible spaces. *)
Fixpoint spaces (count : nat) : string :=
  match count with
  | O => ""
  | S n => (spaces n ++ " ")%string
  end.

(** The number of leading items of [before] that are [name]. *)
Fixpoint streakOf (before : list string) (name : string) : nat :=
  match before with
  | [] => 0%nat
  | item :: rest => if String.eqb item name then S (streakOf rest name) else 0%nat
  end.

(** The number of items directly before position [index] that carry the
    name found at [index]. *)
Definition streakBefore (names : list string) (index : nat) : nat :=
  match nth_error names index with
  | Some name => streakOf (rev (firstn index names)) name
  | None => 0%nat
  end.

(** The labels, position by position: each name with one space for every
    equal name directly before it. *)
Fixpoint labelsAfter (before names : list string) : list string :=
  match names with
  | [] => []
  | name :: rest =>
      (name ++ spaces (streakOf before name))%string :: labelsAfter (name :: before) rest
  end.

(** The names are grouped: a name that comes again later in the list is
    also the name of the next item. *)
Definition grouped (names : list string) : Prop :=
  forall i j name, (i < j)%nat ->
    nth_error names i = Some name -> nth_error names j = Some name ->
    nth_error names (S i) = Some name.

(** The last character of a string is a space. *)
Fixpoint endsWithSpace (s : string) : bool :=
  match s with
  | EmptyString => false
  | String c EmptyString => Ascii.eqb c " "
  | String _ rest => endsWithSpace rest
  end.

(** The characters ['0'] to ['9'], and the digits a string starts with. *)
Definition isDigit (c : ascii) : bool :=
  let code := nat_of_ascii c in ((48 <=? code) && (code <=? 57))%nat.

Fixpoint leadingDigits (s : string) : string :=
  match s with
  | EmptyString => EmptyString
  | String c rest => if isDigit c then String c (leadingDigits rest) else EmptyString
  end.

Section Variants.

(** [objects/rideVehicleVariant] is not among the sources: the variants,
    the [_visibility] of a variant, the test [=== VehicleVisibility.Visible]
    and the test [!visibility] are parameters. *)
Variable RideVehicleVariant : Type.
Variable Visibility : Type.
Variable _visibility : RideVehicleVariant -> Visibility.
Variable isVisible : Visibility -> bool.
Variable isFalsy : Visibility -> bool.

(** Format function that labels variants invisible if they are. *)
Definition formatVariant (variant : RideVehicleVariant) (index : nat) : string :=
  let visibility := _visibility variant in
  if isVisible visibility
  then JS.toString (Z.of_nat index)
  else
    let visibilityLabel := if isFalsy visibility then "green square" else "invisible" in
    (JS.toString (Z.of_nat index) ++ "  (" ++ visibilityLabel ++ ")")%string.

(** [c.map((v, i) => formatVariant(v, i))], from position [index] on. *)
Fixpoint variantItemsFrom (variants : list RideVehicleVariant) (index : nat) : list string :=
  match variants with
  | [] => []
  | variant :: rest => formatVariant variant index :: variantItemsFrom rest (S index)
  end.

Definition variantItems (variants : list RideVehicleVariant) : list string :=
  variantItemsFrom variants 0.

End Variants.

Arguments formatVariant {RideVehicleVariant Visibility} _ _ _ _ _.
Arguments variantItemsFrom {RideVehicleVariant Visibility} _ _ _ _ _.
Arguments variantItems {RideVehicleVariant Visibility} _ _ _ _.

(** ** ui/mainWindow.ts and ui/sideWindow.ts: what is kept between sessions *)

(** [context.sharedStorage]: values kept under keys. *)
Module SharedStorage.

Inductive Value := Text (s : string) | Flag (b : bool).

Definition t : Type := string -> option Value.

(** [get(key)], which is [undefined] for a key never set, and
    [get(key, defaultValue)]. *)
Definition get (key : string) (storage : t) : option Value := storage key.

Definition getOr (key : string) (defaultValue : Value) (storage : t) : Value :=
  match storage key with
  | Some value => value
  | None => defaultValue
  end.

Definition set (key : string) (value : Value) (storage : t) : t :=
  fun k => if String.eqb k key then Some value else storage k.

(** Truthiness of what [get(key)] gives. *)
Definition truthy (value : option Value) : bool :=
  match value with
  | Some (Flag b) => b
  | Some (Text s) => negb (String.eqb s "")
  | None => false
  end.

Definition empty : t := fun _ => None.

End SharedStorage.

Module Windows.

(** The fields of a game [Window] the two modules write or read. *)
Record Window := { x : Z; y : Z; width : Z; height : Z }.

(** [store<Theme>(context.sharedStorage.get("rve.theme", "rct1"))]. *)
Definition theme (storage : SharedStorage.t) : SharedStorage.Value :=
  SharedStorage.getOr "rve.theme" (SharedStorage.Text "rct1") storage.

Definition setTheme (theme : string) (storage : SharedStorage.t) : SharedStorage.t :=
  SharedStorage.set "pe.theme" (SharedStorage.Text theme) storage.

Definition getTheme (theme : string) (storage : SharedStorage.t) : SharedStorage.Value :=
  SharedStorage.getOr "pe.theme" (SharedStorage.Text theme) storage.

(** [store<boolean>(context.sharedStorage.get("pe.sticky", true))]. *)
Definition stickySideWindow (storage : SharedStorage.t) : SharedStorage.Value :=
  SharedStorage.getOr "pe.sticky" (SharedStorage.Flag true) storage.

Definition setSticky (isSticky : bool) (storage : SharedStorage.t) : SharedStorage.t :=
  SharedStorage.set "pe.sticky" (SharedStorage.Flag isSticky) storage.

(** [isSideWindowSticky], run on every update of the side window: what it
    makes of the side window. *)
Definition isSideWindowSticky (storage : SharedStorage.t)
    (main side : option Window) : option Window :=
  if SharedStorage.truthy (SharedStorage.get "pe.sticky" storage)
  then
    match main, side with
    | Some main, Some side =>
        let side := side <| x := x main + width main |> in
        Some (side <| y := y main |>)
    | _, _ => side
    end
  else side.

End Windows.

(** ** The origin of what the clipboard holds *)

(** The window keeps its copy handler, and what it holds was returned by
    that handler for some state of the game. *)
Definition fromCopyHandler {VehicleSettings W : Type}
    (copyHandler : option (W -> option VehicleSettings))
    (window : VehicleEditorWindow.t VehicleSettings W) : Prop :=
  VehicleEditorWindow.onCopyVehicle window = copyHandler /\
  forall settings,
    VehicleEditorWindow.copiedVehicleSettings window = Some settings ->
    exists handler world, copyHandler = Some handler /\ handler world = Some settings.

(** ** More concrete objects *)

Module Cases.

Import Examples.

(** A spinner bound to a widget and set to 4. *)
Definition boundSpinner : SpinnerComponent.t := SpinnerComponent.set 4 variantSpinner.

(** A park whose first ride has no trains. *)
Definition emptyFirst : list ParkRide.t := [ride2; ride1].

(** Nothing in the game changes while the handler runs: every ride and
    train is still there, and a ride has the trains it had. *)
Definition unchangedPark : PlayerAction.Answers := {|
  PlayerAction.getAllRides := [ride1; ride2];
  PlayerAction.ride_refresh := fun _ => true;
  PlayerAction.ride_trains := ParkRide._trains;
  PlayerAction.train_refresh := fun _ => true
|}.

(** The selected ride was closed and its trains were taken off the track. *)
Definition trainsGone : PlayerAction.Answers := {|
  PlayerAction.getAllRides := [ride1; ride2];
  PlayerAction.ride_refresh := fun _ => true;
  PlayerAction.ride_trains := fun _ => [];
  PlayerAction.train_refresh := fun _ => false
|}.

Definition rideClosed : PlayerAction.GameActionEventArgs := {|
  PlayerAction.isClientOnly := false;
  PlayerAction.action := "ridesetstatus";
  PlayerAction.args_ride := 1
|}.

(** A viewport that follows entity 10 with subscription 0. *)
Definition followingViewport : ViewportComponent.t * Context.t :=
  ({| ViewportComponent._name := "rve-viewport";
      ViewportComponent._isActive := true;
      ViewportComponent._entityId := 10;
      ViewportComponent._updater := Some 0%nat;
      ViewportComponent.moves := [(320, 64, Some 8)] |},
   {| Context.nextHandle := 1; Context.live := [(0%nat, Context.IntervalTick)] |}).

Definition entityPosition (id : Z) : option (Z * Z * Z) := Some (32 * id, 64, 8).

(** Ride types as the park lists them, with their names. *)
Definition typeNames (rideType : RideType.t) : string :=
  if RideType._id rideType <? 3 then "Wooden Roller Coaster Trains" else "Log Flume Boats".

Definition fourTypes : list RideType.t :=
  [ {| RideType._id := 1 |}; {| RideType._id := 2 |}; {| RideType._id := 3 |};
    {| RideType._id := 4 |} ].

(** Three variants, known by their visibility: visible (1), shown as a
    green square (0) and invisible (2). *)
Definition threeVariants : list Z := [1; 0; 2].

Definition visibilityOf (variant : Z) : Z := variant.

Definition mainAt : Windows.Window :=
  {| Windows.x := 100; Windows.y := 50; Windows.width := 260; Windows.height := 230 |}.
Definition sideAt : Windows.Window :=
  {| Windows.x := 0; Windows.y := 0; Windows.width := 260; Windows.height := 230 |}.

(** The window was opened and closed again. *)
Definition closedRun : list (Game * Event) := openedRun ++ [ (game0, WindowClosed) ].
Definition closed : VehicleViewModel * Context.t :=
  run noTargets closedRun (freshModel, noSubscriptions).

(** The window was opened on a park whose first ride has no trains. *)
Definition openedEmptyRun : list (Game * Event) :=
  [ (game0, WindowOpened [type7] emptyFirst) ].
Definition openedEmpty : VehicleViewModel * Context.t :=
  run noTargets openedEmptyRun (freshModel, noSubscriptions).

(** The ride without trains was opened, and the game put a train on it. *)
Definition trainSpawned : PlayerAction.Answers := {|
  PlayerAction.getAllRides := emptyFirst;
  PlayerAction.ride_refresh := fun _ => true;
  PlayerAction.ride_trains := fun _ => [train2];
  PlayerAction.train_refresh := fun _ => true
|}.

Definition rideOpened : PlayerAction.GameActionEventArgs := {|
  PlayerAction.isClientOnly := false;
  PlayerAction.action := "ridesetstatus";
  PlayerAction.args_ride := 2
|}.

(** A car of a ride the view model does not list. *)
Definition strayCar : Car.t := {|
  Car.id := 99;
  Car.ride := 9;
  Car.rideObject := 7;
  Car.vehicleObject := 0;
  Car.numSeats := 4;
  Car.mass := 100;
  Car.poweredAcceleration := 0;
  Car.poweredMaxSpeed := 0;
  Car.trackProgress := 3;
  Car.x := 32;
  Car.y := 64;
  Car.z := 8;
  Car.colours_body := 1;
  Car.colours_trim := 2;
  Car.colours_tertiary := 3;
  Car.status := "waiting_for_passengers"
|}.

(** A viewport that was told to stop following, before its refresh. *)
Definition restingViewport : ViewportComponent.t * Context.t :=
  ({| ViewportComponent._name := "rve-viewport";
      ViewportComponent._isActive := false;
      ViewportComponent._entityId := -1;
      ViewportComponent._updater := Some 0%nat;
      ViewportComponent.moves := [(320, 64, Some 8)] |},
   {| Context.nextHandle := 1; Context.live := [(0%nat, Context.IntervalTick)] |}).

(** What [update] does without an entity is of no concern here. *)
Definition unconcerned (state : ViewportComponent.t * Context.t)
    : ViewportComponent.t * Context.t := state.

End Cases.

(** * Properties *)

(** ** The spinner *)

Module SpinnerFacts.
Import SpinnerComponent.

Lemma wrap_between value lo hi :
  lo <= hi -> lo <= Helpers.wrap value lo hi <= hi.
Proof.
  intros Hle. unfold Helpers.wrap.
  destruct (value <? lo) eqn:Hlow; [lia|].
  destruct (hi <? value) eqn:Hhigh; [lia|].
  apply Z.ltb_ge in Hlow. apply Z.ltb_ge in Hhigh. lia.
Qed.

Lemma clamp_between value lo hi :
  lo <= hi -> lo <= Helpers.clamp value lo hi <= hi.
Proof.
  intros Hle. unfold Helpers.clamp.
  destruct (value <? lo) eqn:Hlow; [lia|].
  destruct (hi <? value) eqn:Hhigh; [lia|].
  apply Z.ltb_ge in Hlow. apply Z.ltb_ge in Hhigh. lia.
Qed.

Lemma performWrapMode_between s value :
  minimum s < maximum s ->
  minimum s <= performWrapMode s value <= maximum s - 1.
Proof.
  intros Hlt. unfold performWrapMode.
  destruct (wrapMode s); [apply wrap_between | apply clamp_between]; lia.
Qed.

Lemma refreshWidget_keeps s :
  _value (refreshWidget s) = _value s /\
  minimum (refreshWidget s) = minimum s /\
  maximum (refreshWidget s) = maximum s /\
  _isActive (refreshWidget s) = _isActive s.
Proof.
  unfold refreshWidget.
  destruct (_isActive s && (minimum s <? maximum s)); destruct s; cbn; auto.
Qed.

Lemma set_keeps_bounds value s :
  minimum (set value s) = minimum s /\ maximum (set value s) = maximum s.
Proof.
  unfold set.
  destruct (maximum s <=? minimum s).
  - destruct s; cbn; auto.
  - destruct ((value =? _value s) && _isActive s); [auto|].
    destruct (refreshWidget_keeps
                (s <| _isActive := true |> <| _value := performWrapMode s value |>))
      as (_ & Hmin & Hmax & _).
    rewrite Hmin, Hmax. destruct s; cbn; auto.
Qed.

Lemma set_value value s :
  _value (set value s) =
    if maximum s <=? minimum s then _value s
    else if (value =? _value s) && _isActive s then _value s
    else performWrapMode s value.
Proof.
  unfold set.
  destruct (maximum s <=? minimum s).
  - destruct s; reflexivity.
  - destruct ((value =? _value s) && _isActive s); [reflexivity|].
    destruct (refreshWidget_keeps
                (s <| _isActive := true |> <| _value := performWrapMode s value |>))
      as (Hval & _).
    rewrite Hval. destruct s; reflexivity.
Qed.

End SpinnerFacts.

(** C10, as the code has it.  A call [set value] leaves the stored value
    alone when [minimum >= maximum], and also when the value is the one
    already stored and the spinner is active.  In every other call the stored
    value becomes the wrapped or clamped input, which lies within
    [minimum, maximum - 1].  The bounds themselves are not touched, so a
    stored value that is within the bounds stays within them. *)
Theorem spinner_set_bounds (value : Z) (s : SpinnerComponent.t) :
  (SpinnerComponent.maximum s <= SpinnerComponent.minimum s ->
     SpinnerComponent._value (SpinnerComponent.set value s) = SpinnerComponent._value s) /\
  (SpinnerComponent.minimum s < SpinnerComponent.maximum s ->
     value = SpinnerComponent._value s ->
     SpinnerComponent._isActive s = true ->
     SpinnerComponent.set value s = s) /\
  (SpinnerComponent.minimum s < SpinnerComponent.maximum s ->
     value <> SpinnerComponent._value s \/ SpinnerComponent._isActive s = false ->
     SpinnerComponent._value (SpinnerComponent.set value s)
       = SpinnerComponent.performWrapMode s value /\
     SpinnerComponent.inBounds (SpinnerComponent.set value s)) /\
  (SpinnerComponent.minimum s < SpinnerComponent.maximum s ->
     SpinnerComponent.inBounds s ->
     SpinnerComponent.inBounds (SpinnerComponent.set value s)).
Proof.
  pose proof (SpinnerFacts.set_value value s) as Hval.
  destruct (SpinnerFacts.set_keeps_bounds value s) as [Hmin Hmax].
  unfold SpinnerComponent.inBounds. rewrite Hmin, Hmax.
  assert (Hfresh : SpinnerComponent.minimum s < SpinnerComponent.maximum s ->
                   (SpinnerComponent.maximum s <=? SpinnerComponent.minimum s) = false)
    by (intros; apply Z.leb_gt; lia).
  split; [|split; [|split]].
  - intros Hge. apply Z.leb_le in Hge. rewrite Hge in Hval. exact Hval.
  - intros Hlt Hsame Hactive. unfold SpinnerComponent.set.
    rewrite (Hfresh Hlt). subst value. rewrite Z.eqb_refl, Hactive. reflexivity.
  - intros Hlt Hother. rewrite (Hfresh Hlt) in Hval.
    assert (SpinnerComponent._value (SpinnerComponent.set value s)
            = SpinnerComponent.performWrapMode s value) as Hnew.
    { destruct Hother as [Hne | Hoff].
      - apply Z.eqb_neq in Hne. rewrite Hne in Hval. exact Hval.
      - rewrite Hoff, andb_false_r in Hval. exact Hval. }
    split; [exact Hnew|]. rewrite Hnew.
    apply SpinnerFacts.performWrapMode_between; assumption.
  - intros Hlt Hin. rewrite (Hfresh Hlt) in Hval.
    destruct ((value =? SpinnerComponent._value s) && SpinnerComponent._isActive s);
      rewrite Hval; [exact Hin|].
    apply SpinnerFacts.performWrapMode_between; assumption.
Qed.

(** C10 at a spinner that was set with no stored value yet: the hypotheses
    of the third part hold, and the stored value ends within the bounds. *)
Lemma spinner_set_bounds_witness :
  SpinnerComponent.minimum Examples.variantSpinner
    < SpinnerComponent.maximum Examples.variantSpinner /\
  (12 <> SpinnerComponent._value Examples.variantSpinner \/
   SpinnerComponent._isActive Examples.variantSpinner = false) /\
  SpinnerComponent.inBounds (SpinnerComponent.set 12 Examples.variantSpinner).
Proof.
  assert (Hlt : SpinnerComponent.minimum Examples.variantSpinner
                < SpinnerComponent.maximum Examples.variantSpinner) by reflexivity.
  assert (Hoff : 12 <> SpinnerComponent._value Examples.variantSpinner \/
                 SpinnerComponent._isActive Examples.variantSpinner = false)
    by (right; reflexivity).
  split; [exact Hlt|]. split; [exact Hoff|].
  destruct (spinner_set_bounds 12 Examples.variantSpinner) as (_ & _ & Hset & _).
  exact (proj2 (Hset Hlt Hoff)).
Defined.

(** C10 as stated fails: the spinner holds 5 with ten variants; the maximum
    drops to 3, and setting 5 again leaves 5 stored, outside [0, 2]. *)
Lemma spinner_set_escapes_bounds :
  SpinnerComponent.minimum Examples.narrowedSpinner
    < SpinnerComponent.maximum Examples.narrowedSpinner /\
  SpinnerComponent._value (SpinnerComponent.set 5 Examples.narrowedSpinner) = 5 /\
  ~ SpinnerComponent.inBounds (SpinnerComponent.set 5 Examples.narrowedSpinner).
Proof.
  split; [reflexivity|]. split; [reflexivity|].
  unfold SpinnerComponent.inBounds. vm_compute. intros [_ Hhigh]. apply Hhigh. reflexivity.
Qed.

(** ** The bitwise operators *)

Module JSFacts.
Import JS.

Lemma toInt32_range n : int32 (toInt32 n).
Proof.
  unfold toInt32, int32. cbv zeta.
  pose proof (Z.mod_pos_bound n (2 ^ 32) ltac:(lia)).
  destruct (2 ^ 31 <=? n mod 2 ^ 32) eqn:E;
    [apply Z.leb_le in E | apply Z.leb_gt in E]; lia.
Qed.

Lemma small_bits_high u k i :
  0 <= k -> 0 <= u < 2 ^ k -> k <= i -> Z.testbit u i = false.
Proof.
  intros Hk Hu Hi. rewrite <- (Z.mod_small u (2 ^ k)) by lia.
  apply Z.mod_pow2_bits_high. lia.
Qed.

Lemma negative_bits_high x k i :
  0 < k -> - 2 ^ k <= x < 0 -> k <= i -> Z.testbit x i = true.
Proof.
  intros Hk Hx Hi. apply Z.bits_above_log2_neg; [lia|].
  destruct (Z.eq_dec (Z.pred (- x)) 0) as [E|E].
  - rewrite E. cbn. lia.
  - assert (Z.log2 (Z.pred (- x)) < k); [|lia].
    apply Z.log2_lt_pow2; lia.
Qed.

Lemma top_bit u : 2 ^ 31 <= u < 2 ^ 32 -> Z.testbit u 31 = true.
Proof.
  intros Hu. rewrite Z.testbit_eqb by lia.
  assert (u / 2 ^ 31 = 1) as ->; [|reflexivity].
  symmetry. apply (Z.div_unique u (2 ^ 31) 1 (u - 2 ^ 31)); lia.
Qed.

(** [ToInt32] keeps the low 32 bits and repeats bit 31 above them. *)
Lemma toInt32_bits n i :
  0 <= i -> Z.testbit (toInt32 n) i = Z.testbit n (Z.min i 31).
Proof.
  intros Hi. unfold toInt32. cbv zeta.
  pose proof (Z.mod_pos_bound n (2 ^ 32) ltac:(lia)) as Hu.
  assert (Hlow : forall j, 0 <= j < 32 -> Z.testbit (n mod 2 ^ 32) j = Z.testbit n j)
    by (intros; apply Z.mod_pow2_bits_low; lia).
  destruct (2 ^ 31 <=? n mod 2 ^ 32) eqn:E;
    [apply Z.leb_le in E | apply Z.leb_gt in E].
  - destruct (Z.lt_ge_cases i 32) as [Hlt | Hge].
    + rewrite <- (Z.mod_pow2_bits_low _ 32) by lia.
      replace ((n mod 2 ^ 32 - 2 ^ 32) mod 2 ^ 32) with (n mod 2 ^ 32).
      2:{ rewrite <- (Z.mod_small (n mod 2 ^ 32) (2 ^ 32)) at 1 by lia.
          replace (n mod 2 ^ 32 - 2 ^ 32) with (n mod 2 ^ 32 + (-1) * 2 ^ 32) by lia.
          rewrite Z.mod_add by lia. reflexivity. }
      rewrite Hlow by lia.
      destruct (Z.le_gt_cases i 31); [rewrite Z.min_l by lia | rewrite Z.min_r by lia].
      * reflexivity.
      * assert (i = 31) by lia. subst. reflexivity.
    + rewrite (negative_bits_high _ 32) by lia.
      rewrite Z.min_r by lia. rewrite <- Hlow by lia. symmetry. apply top_bit. lia.
  - destruct (Z.lt_ge_cases i 31) as [Hlt | Hge].
    + rewrite Z.min_l by lia. apply Hlow. lia.
    + rewrite Z.min_r by lia. rewrite <- Hlow by lia.
      rewrite (small_bits_high _ 31 i), (small_bits_high _ 31 31) by lia. reflexivity.
Qed.

Lemma int32_fixed n : int32 n -> toInt32 n = n.
Proof.
  intros Hn. apply Z.bits_inj'. intros i Hi. rewrite toInt32_bits by lia.
  destruct (Z.le_gt_cases i 31); [rewrite Z.min_l by lia; reflexivity|].
  rewrite Z.min_r by lia. unfold int32 in Hn.
  destruct (Z.lt_ge_cases n 0).
  - rewrite !(negative_bits_high n 31) by lia. reflexivity.
  - rewrite !(small_bits_high n 31) by lia. reflexivity.
Qed.

Lemma bitor_bits a b i :
  0 <= i ->
  Z.testbit (bitor a b) i = Z.testbit a (Z.min i 31) || Z.testbit b (Z.min i 31).
Proof.
  intros Hi. unfold bitor. rewrite toInt32_bits, Z.lor_spec by lia.
  rewrite !toInt32_bits by lia. rewrite <- !Z.min_assoc, !Z.min_id. reflexivity.
Qed.

Lemma bitand_not_bits a b i :
  0 <= i ->
  Z.testbit (bitand a (bitnot b)) i
    = Z.testbit a (Z.min i 31) && negb (Z.testbit b (Z.min i 31)).
Proof.
  intros Hi. unfold bitand, bitnot. rewrite toInt32_bits, Z.land_spec by lia.
  rewrite !toInt32_bits by lia. rewrite Z.lnot_spec by lia.
  rewrite !toInt32_bits by lia.
  rewrite <- !Z.min_assoc, !Z.min_id. reflexivity.
Qed.

(** Two 32-bit integers with the same 32 bits are equal. *)
Lemma int32_ext a b :
  int32 a -> int32 b ->
  (forall i, 0 <= i < 32 -> Z.testbit a i = Z.testbit b i) -> a = b.
Proof.
  intros Ha Hb Hbits. rewrite <- (int32_fixed a Ha), <- (int32_fixed b Hb).
  apply Z.bits_inj'. intros i Hi. rewrite !toInt32_bits by lia. apply Hbits. lia.
Qed.

End JSFacts.

(** ** The copy filters *)

Module FilterFacts.

(** The mask [_setFilter] stores. *)
Lemma setFilter_mask filter toggle vm :
  _copyFilters (_setFilter filter toggle vm)
    = if toggle then JS.bitor (_copyFilters vm) filter
      else JS.bitand (_copyFilters vm) (JS.bitnot filter).
Proof. destruct vm; reflexivity. Qed.

(** Two view models that were toggled are equal when their masks are. *)
Lemma setFilter_eq f1 t1 f2 t2 vm1 vm2 :
  vm1 <| _copyFilters := 0 |> = vm2 <| _copyFilters := 0 |> ->
  _copyFilters (_setFilter f1 t1 vm1) = _copyFilters (_setFilter f2 t2 vm2) ->
  _setFilter f1 t1 vm1 = _setFilter f2 t2 vm2.
Proof.
  destruct vm1, vm2. cbn. intros Hrest Hmask.
  injection Hrest as <- <- <- <- <- <- <- <- <- <- <- <- <- <- <-
                      <- <- <- <- <- <- <- <- <- <- <- <- <- <-.
  unfold _setFilter. cbn. rewrite Hmask. reflexivity.
Qed.

Lemma setFilter_rest filter toggle vm :
  (_setFilter filter toggle vm) <| _copyFilters := 0 |> = vm <| _copyFilters := 0 |>.
Proof. destruct vm; reflexivity. Qed.

Lemma setFilter_int32 filter toggle vm :
  JS.int32 (_copyFilters (_setFilter filter toggle vm)).
Proof.
  rewrite setFilter_mask. destruct toggle; apply JSFacts.toInt32_range.
Qed.

(** Bit [i] of the mask after a toggle. *)
Lemma setFilter_bit filter toggle vm i :
  0 <= i < 32 ->
  Z.testbit (_copyFilters (_setFilter filter toggle vm)) i
    = if Z.testbit filter i then toggle else Z.testbit (_copyFilters vm) i.
Proof.
  intros Hi. rewrite setFilter_mask. destruct toggle.
  - rewrite JSFacts.bitor_bits by lia. rewrite Z.min_l by lia.
    destruct (Z.testbit filter i); [apply orb_true_r | apply orb_false_r].
  - rewrite JSFacts.bitand_not_bits by lia. rewrite Z.min_l by lia.
    destruct (Z.testbit filter i); [apply andb_false_r | apply andb_true_r].
Qed.

End FilterFacts.

(** C5.  [_setFilter filter toggle] changes the mask in the bits of the
    filter only, which it sets when [toggle] is true and clears when it is
    false, and the mask stays a 32-bit integer.  Hence toggling twice is
    toggling once, enabling two filters gives the same view model in either
    order with the bits of both set, and disabling the first afterwards
    leaves set every bit of the second that is not a bit of the first. *)
Theorem setFilter_independent (vm : VehicleViewModel) (filterA filterB : Z) (toggle : bool) :
  (forall i, 0 <= i < 32 ->
     Z.testbit (_copyFilters (_setFilter filterA toggle vm)) i
       = if Z.testbit filterA i then toggle else Z.testbit (_copyFilters vm) i) /\
  JS.int32 (_copyFilters (_setFilter filterA toggle vm)) /\
  _setFilter filterA toggle (_setFilter filterA toggle vm) = _setFilter filterA toggle vm /\
  _setFilter filterB true (_setFilter filterA true vm)
    = _setFilter filterA true (_setFilter filterB true vm) /\
  (forall i, 0 <= i < 32 ->
     Z.testbit filterA i = true \/ Z.testbit filterB i = true ->
     Z.testbit (_copyFilters (_setFilter filterB true (_setFilter filterA true vm))) i = true) /\
  (forall i, 0 <= i < 32 ->
     Z.testbit filterB i = true -> Z.testbit filterA i = false ->
     Z.testbit (_copyFilters
       (_setFilter filterA false (_setFilter filterB true (_setFilter filterA true vm)))) i
       = true).
Proof.
  split; [intros i Hi; apply FilterFacts.setFilter_bit; exact Hi|].
  split; [apply FilterFacts.setFilter_int32|].
  split; [|split; [|split]].
  - apply FilterFacts.setFilter_eq.
    + apply FilterFacts.setFilter_rest.
    + apply JSFacts.int32_ext; try apply FilterFacts.setFilter_int32.
      intros i Hi. rewrite !FilterFacts.setFilter_bit by exact Hi.
      destruct (Z.testbit filterA i); reflexivity.
  - apply FilterFacts.setFilter_eq.
    + rewrite !FilterFacts.setFilter_rest. reflexivity.
    + apply JSFacts.int32_ext; try apply FilterFacts.setFilter_int32.
      intros i Hi. rewrite !FilterFacts.setFilter_bit by exact Hi.
      destruct (Z.testbit filterA i), (Z.testbit filterB i); reflexivity.
  - intros i Hi Hbit. rewrite !FilterFacts.setFilter_bit by exact Hi.
    destruct Hbit as [-> | ->]; [destruct (Z.testbit filterB i)|]; reflexivity.
  - intros i Hi HB HA. rewrite !FilterFacts.setFilter_bit by exact Hi.
    rewrite HA, HB. reflexivity.
Qed.

(** C5 at the masks 1 and 2: bit 1 belongs to the second mask only, and it
    is still set after the first mask was enabled, the second enabled and
    the first disabled. *)
Lemma setFilter_independent_witness :
  0 <= 1 < 32 /\ Z.testbit 2 1 = true /\ Z.testbit 1 1 = false /\
  Z.testbit (_copyFilters
    (_setFilter 1 false (_setFilter 2 true (_setFilter 1 true Examples.freshModel)))) 1
    = true.
Proof.
  split; [lia|]. split; [reflexivity|]. split; [reflexivity|].
  destruct (setFilter_independent Examples.freshModel 1 2 true) as (_ & _ & _ & _ & _ & Hleft).
  apply Hleft; [lia | reflexivity | reflexivity].
Defined.

(** ** What writing to a store leaves alone *)

Section StoreFacts.

Variable getTargets :
  Z -> option (ParkRide.t * nat) -> option (RideTrain.t * nat) ->
  option (RideVehicle.t * nat) -> list VehicleSpan.

(** Case analysis on the conditions a method branches on. *)
Ltac branches :=
  repeat match goal with
         | |- context [match ?c with _ => _ end] => destruct c eqn:?; cbn
         end.

Lemma updateDynamic_other game car index vm :
  otherFields (_updateDynamicDataFromCar game car index vm) = otherFields vm.
Proof. unfold _updateDynamicDataFromCar. destruct vm; cbn. branches; reflexivity. Qed.

Lemma updateDynamic_identity game car index vm :
  identityFields (_updateDynamicDataFromCar game car index vm) = identityFields vm.
Proof. unfold _updateDynamicDataFromCar. destruct vm; cbn. branches; reflexivity. Qed.

Lemma updateVehicleInfo_other game vehicle index vm :
  otherFields (_updateVehicleInfo game vehicle index vm) = otherFields vm.
Proof.
  unfold _updateVehicleInfo. rewrite updateDynamic_other. destruct vm; reflexivity.
Qed.

Lemma updateDynamic_fixed game car index vm :
  fixedFields (_updateDynamicDataFromCar game car index vm) = fixedFields vm.
Proof. unfold _updateDynamicDataFromCar. destruct vm; cbn. branches; reflexivity. Qed.

Lemma updateVehicleInfo_fixed game vehicle index vm :
  fixedFields (_updateVehicleInfo game vehicle index vm) = fixedFields vm.
Proof.
  unfold _updateVehicleInfo. rewrite updateDynamic_fixed. destruct vm; reflexivity.
Qed.

(** Reading the components of an equation between the tuples. *)
Lemma other_parts a b :
  otherFields a = otherFields b ->
  _selectedRide a = _selectedRide b /\ _selectedTrain a = _selectedTrain b /\
  _selectedVehicle a = _selectedVehicle b /\
  _rides a = _rides b /\ _trains a = _trains b /\ _vehicles a = _vehicles b /\
  _copyTargets a = _copyTargets b /\ fixedFields a = fixedFields b.
Proof.
  unfold otherFields, fixedFields. intros H. inversion H. repeat split; congruence.
Qed.

Lemma fixed_parts a b :
  fixedFields a = fixedFields b ->
  _rideTypes a = _rideTypes b /\ _copyTargetOption a = _copyTargetOption b /\
  _synchronizeTargets a = _synchronizeTargets b /\ _isOpen a = _isOpen b /\
  _onPlayerAction a = _onPlayerAction b /\ _onGameTick a = _onGameTick b /\
  _copyFilters a = _copyFilters b /\ _multiplierIndex a = _multiplierIndex b.
Proof.
  unfold fixedFields. intros H. inversion H. repeat split; congruence.
Qed.

(** *** [_selectedVehicle] *)

Lemma above_parts a b :
  aboveVehicle a = aboveVehicle b ->
  _selectedVehicle a = _selectedVehicle b /\
  _selectedRide a = _selectedRide b /\ _selectedTrain a = _selectedTrain b /\
  _rides a = _rides b /\ _trains a = _trains b /\ _vehicles a = _vehicles b /\
  fixedFields a = fixedFields b.
Proof.
  unfold aboveVehicle. intros H. inversion H. repeat split; congruence.
Qed.

Lemma other_above a b : otherFields a = otherFields b -> aboveVehicle a = aboveVehicle b.
Proof.
  intros H. destruct (other_parts _ _ H) as (Hr & Ht & Hv & Hrs & Hts & Hvs & _ & Hf).
  unfold aboveVehicle. congruence.
Qed.

Lemma notify_selectedVehicle_above game vm :
  aboveVehicle (notify_selectedVehicle getTargets game vm) = aboveVehicle vm.
Proof.
  unfold notify_selectedVehicle.
  set (vm1 := vm <| _copyTargets := computeCopyTargets getTargets vm |>).
  assert (H1 : aboveVehicle vm1 = aboveVehicle vm) by (destruct vm; reflexivity).
  destruct (_selectedVehicle vm1) as [[vehicle index]|]; [|exact H1].
  destruct (JS.truthy (_isOpen vm1)); [|exact H1].
  rewrite <- H1. apply other_above, updateVehicleInfo_other.
Qed.

Lemma set_selectedVehicle_frame game selection vm :
  let vm' := set_selectedVehicle getTargets game selection vm in
  _selectedVehicle vm' = selection /\
  _selectedRide vm' = _selectedRide vm /\ _selectedTrain vm' = _selectedTrain vm /\
  _rides vm' = _rides vm /\ _trains vm' = _trains vm /\ _vehicles vm' = _vehicles vm /\
  fixedFields vm' = fixedFields vm.
Proof.
  cbv zeta. unfold set_selectedVehicle.
  assert (Hnotified :
    let vm' := notify_selectedVehicle getTargets game (vm <| _selectedVehicle := selection |>) in
    _selectedVehicle vm' = selection /\
    _selectedRide vm' = _selectedRide vm /\ _selectedTrain vm' = _selectedTrain vm /\
    _rides vm' = _rides vm /\ _trains vm' = _trains vm /\ _vehicles vm' = _vehicles vm /\
    fixedFields vm' = fixedFields vm).
  { cbv zeta.
    destruct (above_parts _ _ (notify_selectedVehicle_above game
                (vm <| _selectedVehicle := selection |>)))
      as (-> & -> & -> & -> & -> & -> & ->).
    destruct vm; repeat split. }
  destruct (_selectedVehicle vm) as [old|] eqn:Hold, selection as [picked|];
    try exact Hnotified.
  rewrite Hold. repeat split.
Qed.

(** *** [updateSelectionOrNull] *)

Lemma nextSelection_rule {T : Type} (previous : option (T * nat)) items :
  followsSelectionRule previous items (nextSelection previous items).
Proof.
  unfold nextSelection. split; [|split].
  - intros ->. reflexivity.
  - intros entity index -> Hlt.
    assert ((0 <? List.length items)%nat = true) as -> by (apply Nat.ltb_lt; lia).
    assert ((index <? List.length items)%nat = true) as -> by (apply Nat.ltb_lt; lia).
    destruct (nth_error items index) as [item|] eqn:Hitem.
    + exists item. split; reflexivity.
    + apply nth_error_None in Hitem. lia.
  - intros first rest -> Hprevious.
    change ((0 <? List.length (first :: rest))%nat) with true. cbv iota.
    destruct Hprevious as [-> | (entity & index & -> & Hge)]; [reflexivity|].
    apply Nat.ltb_ge in Hge. rewrite Hge. reflexivity.
Qed.

Lemma rule_none_iff {T : Type} (previous : option (T * nat)) items selection :
  followsSelectionRule previous items selection ->
  (selection = None <-> items = []).
Proof.
  intros (Hempty & Hkept & Hfirst). split; [|exact Hempty].
  intros ->. destruct items as [|first rest]; [reflexivity|exfalso].
  destruct previous as [[entity index]|].
  - destruct (Nat.lt_ge_cases index (List.length (first :: rest))) as [Hlt|Hge].
    + destruct (Hkept entity index eq_refl Hlt) as (item & _ & Hsome). discriminate.
    + discriminate (Hfirst first rest eq_refl
                      (or_intror (ex_intro _ entity (ex_intro _ index (conj eq_refl Hge))))).
  - discriminate (Hfirst first rest eq_refl (or_introl eq_refl)).
Qed.

Lemma nextSelection_none_iff {T : Type} (previous : option (T * nat)) items :
  nextSelection previous items = None <-> items = [].
Proof. apply (rule_none_iff previous), nextSelection_rule. Qed.

(** *** [_vehicles] *)

Lemma set_vehicles_unfold game items vm :
  set_vehicles getTargets game items vm
    = set_selectedVehicle getTargets game (nextSelection (_selectedVehicle vm) items)
        (vm <| _vehicles := items |>).
Proof. destruct vm; reflexivity. Qed.

Lemma set_vehicles_frame game items vm :
  let vm' := set_vehicles getTargets game items vm in
  _vehicles vm' = items /\
  _selectedVehicle vm' = nextSelection (_selectedVehicle vm) items /\
  _selectedRide vm' = _selectedRide vm /\ _selectedTrain vm' = _selectedTrain vm /\
  _rides vm' = _rides vm /\ _trains vm' = _trains vm /\
  fixedFields vm' = fixedFields vm.
Proof.
  cbv zeta. rewrite set_vehicles_unfold.
  match goal with
  | |- context [set_selectedVehicle getTargets game ?sel ?m] =>
      destruct (set_selectedVehicle_frame game sel m) as (-> & -> & -> & -> & -> & -> & ->)
  end.
  destruct vm; repeat split.
Qed.

(** *** [_selectedTrain] *)

Lemma set_selectedTrain_frame game selection vm :
  let vm' := set_selectedTrain getTargets game selection vm in
  _selectedTrain vm' = selection /\
  _selectedRide vm' = _selectedRide vm /\
  _rides vm' = _rides vm /\ _trains vm' = _trains vm /\
  fixedFields vm' = fixedFields vm.
Proof.
  cbv zeta. unfold set_selectedTrain, notify_selectedTrain.
  destruct (_selectedTrain vm) as [old|] eqn:Hold, selection as [picked|];
    try (match goal with
         | |- context [set_vehicles getTargets game ?items ?m] =>
             destruct (set_vehicles_frame game items m) as (_ & _ & -> & -> & -> & -> & ->)
         end; destruct vm; repeat split).
  rewrite Hold. repeat split.
Qed.

(** *** [_trains] *)

Lemma set_trains_unfold game items vm :
  set_trains getTargets game items vm
    = set_selectedTrain getTargets game (nextSelection (_selectedTrain vm) items)
        (vm <| _trains := items |>).
Proof. destruct vm; reflexivity. Qed.

Lemma set_trains_frame game items vm :
  let vm' := set_trains getTargets game items vm in
  _trains vm' = items /\
  _selectedTrain vm' = nextSelection (_selectedTrain vm) items /\
  _selectedRide vm' = _selectedRide vm /\
  _rides vm' = _rides vm /\
  fixedFields vm' = fixedFields vm.
Proof.
  cbv zeta. rewrite set_trains_unfold.
  match goal with
  | |- context [set_selectedTrain getTargets game ?sel ?m] =>
      destruct (set_selectedTrain_frame game sel m) as (-> & -> & -> & -> & ->)
  end.
  destruct vm; repeat split.
Qed.

(** *** [_selectedRide] *)

Lemma set_selectedRide_frame game selection vm :
  let vm' := set_selectedRide getTargets game selection vm in
  _selectedRide vm' = selection /\
  _rides vm' = _rides vm /\
  fixedFields vm' = fixedFields vm.
Proof.
  cbv zeta. unfold set_selectedRide, notify_selectedRide.
  destruct (_selectedRide vm) as [old|] eqn:Hold, selection as [picked|];
    try (match goal with
         | |- context [set_trains getTargets game ?items ?m] =>
             destruct (set_trains_frame game items m) as (_ & _ & -> & -> & ->)
         end; destruct vm; repeat split).
  rewrite Hold. repeat split.
Qed.

(** *** [_rides] *)

Lemma set_rides_unfold game items vm :
  set_rides getTargets game items vm
    = set_selectedRide getTargets game (nextSelection (_selectedRide vm) items)
        (vm <| _rides := items |>).
Proof. destruct vm; reflexivity. Qed.

Lemma set_rides_frame game items vm :
  let vm' := set_rides getTargets game items vm in
  _rides vm' = items /\
  _selectedRide vm' = nextSelection (_selectedRide vm) items /\
  fixedFields vm' = fixedFields vm.
Proof.
  cbv zeta. rewrite set_rides_unfold.
  match goal with
  | |- context [set_selectedRide getTargets game ?sel ?m] =>
      destruct (set_selectedRide_frame game sel m) as (-> & -> & ->)
  end.
  destruct vm; repeat split.
Qed.

(** C1.  When the list behind a selection is replaced (the rides, the
    trains of the selected ride, or the vehicles of the selected train), the
    selection store follows the rule: null for an empty list; the same index,
    with the item the new list has there, when the previous index is below
    the length of the new list; the first item at index 0 otherwise. *)
Theorem selection_after_list_replacement (game : Game) (vm : VehicleViewModel) :
  (forall rides,
     followsSelectionRule (_selectedRide vm) rides
       (_selectedRide (set_rides getTargets game rides vm))) /\
  (forall trains,
     followsSelectionRule (_selectedTrain vm) trains
       (_selectedTrain (set_trains getTargets game trains vm))) /\
  (forall vehicles,
     followsSelectionRule (_selectedVehicle vm) vehicles
       (_selectedVehicle (set_vehicles getTargets game vehicles vm))).
Proof.
  split; [|split].
  - intros rides. destruct (set_rides_frame game rides vm) as (_ & -> & _).
    apply nextSelection_rule.
  - intros trains. destruct (set_trains_frame game trains vm) as (_ & -> & _).
    apply nextSelection_rule.
  - intros vehicles. destruct (set_vehicles_frame game vehicles vm) as (_ & -> & _).
    apply nextSelection_rule.
Qed.

(** *** The mirrored stores *)

Lemma updateVehicleInfo_identity game vehicle index vm :
  identityFields (_updateVehicleInfo game vehicle index vm)
    = carIdentity (_rideTypes vm) (_car game vehicle).
Proof.
  unfold _updateVehicleInfo. rewrite updateDynamic_identity. destruct vm; reflexivity.
Qed.

Lemma updateDynamic_spacing game car index vm train position :
  _selectedTrain vm = Some (train, position) ->
  _spacing (_updateDynamicDataFromCar game car index vm)
    = getSpacingToPrecedingVehicle game train car index.
Proof.
  intros Htrain. unfold _updateDynamicDataFromCar. destruct vm; cbn in *.
  rewrite Htrain. reflexivity.
Qed.

Lemma updateDynamic_spacing_kept game car index vm :
  _selectedTrain vm = None ->
  _spacing (_updateDynamicDataFromCar game car index vm) = _spacing vm.
Proof.
  intros Htrain. unfold _updateDynamicDataFromCar. destruct vm; cbn in *.
  rewrite Htrain. reflexivity.
Qed.

Lemma pulledAtMostOnce_null game vm vm' :
  pulledAtMostOnce game vm vm' -> _selectedVehicle vm' = None ->
  mirroredFields vm' = mirroredFields vm.
Proof.
  intros [Hsame | (vehicle & index & before & Hselected & _ & ->)] Hnone.
  - exact Hsame.
  - destruct (other_parts _ _ (updateVehicleInfo_other game vehicle index before))
      as (_ & _ & Hkept & _).
    congruence.
Qed.

(** A write to a store above the mirrored ones does not matter. *)
Lemma pulledAtMostOnce_after game vm vm0 vm' :
  mirroredFields vm0 = mirroredFields vm ->
  pulledAtMostOnce game vm0 vm' -> pulledAtMostOnce game vm vm'.
Proof.
  intros H0 [Hsame | (vehicle & index & before & Hselected & Hbefore & ->)].
  - left. congruence.
  - right. exists vehicle, index, before. repeat split; congruence.
Qed.

Lemma notify_selectedVehicle_pulls game vm :
  pulledAtMostOnce game vm (notify_selectedVehicle getTargets game vm).
Proof.
  unfold notify_selectedVehicle.
  set (vm1 := vm <| _copyTargets := computeCopyTargets getTargets vm |>).
  assert (H1 : mirroredFields vm1 = mirroredFields vm) by (destruct vm; reflexivity).
  destruct (_selectedVehicle vm1) as [[vehicle index]|] eqn:Hselected; [|left; exact H1].
  destruct (JS.truthy (_isOpen vm1)); [|left; exact H1].
  right. exists vehicle, index, vm1.
  split; [exact Hselected | split; [exact H1 | reflexivity]].
Qed.

Lemma set_selectedVehicle_pulls game selection vm :
  pulledAtMostOnce game vm (set_selectedVehicle getTargets game selection vm).
Proof.
  assert (Hnotified : pulledAtMostOnce game vm
            (notify_selectedVehicle getTargets game (vm <| _selectedVehicle := selection |>))).
  { apply (pulledAtMostOnce_after game vm (vm <| _selectedVehicle := selection |>));
      [destruct vm; reflexivity | apply notify_selectedVehicle_pulls]. }
  unfold set_selectedVehicle.
  destruct (_selectedVehicle vm), selection; try exact Hnotified.
  left. reflexivity.
Qed.

Lemma set_vehicles_pulls game items vm :
  pulledAtMostOnce game vm (set_vehicles getTargets game items vm).
Proof.
  rewrite set_vehicles_unfold.
  apply (pulledAtMostOnce_after game vm (vm <| _vehicles := items |>));
    [destruct vm; reflexivity | apply set_selectedVehicle_pulls].
Qed.

Lemma set_selectedTrain_pulls game selection vm :
  pulledAtMostOnce game vm (set_selectedTrain getTargets game selection vm).
Proof.
  assert (Hnotified : pulledAtMostOnce game vm
            (notify_selectedTrain getTargets game (vm <| _selectedTrain := selection |>))).
  { apply (pulledAtMostOnce_after game vm (vm <| _selectedTrain := selection |>));
      [destruct vm; reflexivity | apply set_vehicles_pulls]. }
  unfold set_selectedTrain.
  destruct (_selectedTrain vm), selection; try exact Hnotified.
  left. reflexivity.
Qed.

Lemma set_trains_pulls game items vm :
  pulledAtMostOnce game vm (set_trains getTargets game items vm).
Proof.
  rewrite set_trains_unfold.
  apply (pulledAtMostOnce_after game vm (vm <| _trains := items |>));
    [destruct vm; reflexivity | apply set_selectedTrain_pulls].
Qed.

Lemma set_selectedRide_pulls game selection vm :
  pulledAtMostOnce game vm (set_selectedRide getTargets game selection vm).
Proof.
  assert (Hnotified : pulledAtMostOnce game vm
            (notify_selectedRide getTargets game (vm <| _selectedRide := selection |>))).
  { apply (pulledAtMostOnce_after game vm (vm <| _selectedRide := selection |>));
      [destruct vm; reflexivity | apply set_trains_pulls]. }
  unfold set_selectedRide.
  destruct (_selectedRide vm), selection; try exact Hnotified.
  left. reflexivity.
Qed.

Lemma set_rides_pulls game items vm :
  pulledAtMostOnce game vm (set_rides getTargets game items vm).
Proof.
  rewrite set_rides_unfold.
  apply (pulledAtMostOnce_after game vm (vm <| _rides := items |>));
    [destruct vm; reflexivity | apply set_selectedRide_pulls].
Qed.

(** *** The consistency of the hierarchy *)

Lemma consistent_other a b :
  otherFields a = otherFields b -> consistent getTargets b -> consistent getTargets a.
Proof.
  intros H. destruct (other_parts _ _ H) as (Hr & Ht & Hv & _ & _ & Hvs & Hc & Hf).
  destruct (fixed_parts _ _ Hf) as (_ & Ho & _).
  unfold consistent, computeCopyTargets. rewrite Hr, Ht, Hv, Hvs, Hc, Ho. tauto.
Qed.

Lemma notify_selectedVehicle_targets game vm :
  _copyTargets (notify_selectedVehicle getTargets game vm)
    = computeCopyTargets getTargets (notify_selectedVehicle getTargets game vm).
Proof.
  unfold notify_selectedVehicle.
  set (vm1 := vm <| _copyTargets := computeCopyTargets getTargets vm |>).
  assert (H1 : _copyTargets vm1 = computeCopyTargets getTargets vm1)
    by (destruct vm; reflexivity).
  destruct (_selectedVehicle vm1) as [[vehicle index]|]; [|exact H1].
  destruct (JS.truthy (_isOpen vm1)); [|exact H1].
  destruct (other_parts _ _ (updateVehicleInfo_other game vehicle index vm1))
    as (Hr & Ht & Hv & _ & _ & _ & Hc & Hf).
  destruct (fixed_parts _ _ Hf) as (_ & Ho & _).
  unfold computeCopyTargets in *. rewrite Hr, Ht, Hv, Hc, Ho. exact H1.
Qed.

Lemma set_selectedVehicle_consistent game selection vm :
  (_selectedTrain vm = None -> _vehicles vm = [] /\ selection = None) ->
  consistent getTargets (set_selectedVehicle getTargets game selection vm).
Proof.
  intros Hpre.
  destruct (set_selectedVehicle_frame game selection vm)
    as (Hv & _ & Ht & _ & _ & Hvs & _).
  split.
  - rewrite Ht, Hv, Hvs. exact Hpre.
  - rewrite Hv. intros Hsome. unfold set_selectedVehicle.
    destruct (_selectedVehicle vm), selection; try apply notify_selectedVehicle_targets.
    contradiction.
Qed.

Lemma set_vehicles_consistent game items vm :
  (_selectedTrain vm = None -> items = []) ->
  consistent getTargets (set_vehicles getTargets game items vm).
Proof.
  intros Hpre. rewrite set_vehicles_unfold.
  apply set_selectedVehicle_consistent.
  intros Htrain. assert (items = []) as -> by (apply Hpre; destruct vm; exact Htrain).
  split; [destruct vm; reflexivity | reflexivity].
Qed.

Lemma consistent_untrained vm :
  (_selectedTrain vm = None -> _vehicles vm = [] /\ _selectedVehicle vm = None) ->
  _selectedTrain vm = None -> consistent getTargets vm.
Proof.
  intros Hpre Htrain. split; [exact Hpre|].
  intros Hsome. destruct (Hpre Htrain) as (_ & Hnone). contradiction.
Qed.

Lemma set_selectedTrain_consistent game selection vm :
  (_selectedTrain vm = None -> _vehicles vm = [] /\ _selectedVehicle vm = None) ->
  consistent getTargets (set_selectedTrain getTargets game selection vm).
Proof.
  intros Hpre.
  assert (Hnotified : consistent getTargets
            (notify_selectedTrain getTargets game (vm <| _selectedTrain := selection |>))).
  { unfold notify_selectedTrain. apply set_vehicles_consistent.
    destruct vm; cbn. destruct selection as [[train position]|]; [discriminate | reflexivity]. }
  unfold set_selectedTrain.
  destruct (_selectedTrain vm) eqn:Htrain, selection; try exact Hnotified.
  apply consistent_untrained; [intros _; exact (Hpre eq_refl) | exact Htrain].
Qed.

Lemma set_trains_consistent game items vm :
  (_selectedTrain vm = None -> _vehicles vm = [] /\ _selectedVehicle vm = None) ->
  consistent getTargets (set_trains getTargets game items vm).
Proof.
  intros Hpre. rewrite set_trains_unfold. apply set_selectedTrain_consistent.
  destruct vm; exact Hpre.
Qed.

Lemma set_selectedRide_consistent game selection vm :
  consistent getTargets vm ->
  consistent getTargets (set_selectedRide getTargets game selection vm).
Proof.
  intros Hvm.
  assert (Hnotified : consistent getTargets
            (notify_selectedRide getTargets game (vm <| _selectedRide := selection |>))).
  { unfold notify_selectedRide. apply set_trains_consistent.
    destruct Hvm as (Hpre & _). destruct vm; exact Hpre. }
  unfold set_selectedRide.
  destruct (_selectedRide vm), selection; try exact Hnotified.
  exact Hvm.
Qed.

Lemma set_rides_consistent game items vm :
  consistent getTargets vm ->
  consistent getTargets (set_rides getTargets game items vm).
Proof.
  intros Hvm. rewrite set_rides_unfold. apply set_selectedRide_consistent.
  revert Hvm. unfold consistent, computeCopyTargets. destruct vm; exact (fun H => H).
Qed.

Lemma select_consistent game car vm :
  consistent getTargets vm -> consistent getTargets (_select getTargets game car vm).
Proof.
  intros Hvm. unfold _select.
  destruct (Helpers.findIndex _ _) as [carRideIndex|]; [|exact Hvm].
  destruct (nth_error _ _) as [ride|]; [|exact Hvm].
  set (vm1 := set_selectedRide getTargets game (Some (ride, carRideIndex)) vm).
  assert (H1 : consistent getTargets vm1) by (apply set_selectedRide_consistent; exact Hvm).
  destruct (findTrain (_trains vm1) (Car.id car) 0) as [[train vehicle]|]; [|exact H1].
  apply set_selectedVehicle_consistent.
  destruct (set_selectedTrain_frame game (Some train) vm1) as (-> & _).
  discriminate.
Qed.

Lemma vehicleList_onChange_consistent game idx vm :
  consistent getTargets vm ->
  consistent getTargets (vehicleList_onChange getTargets game idx vm).
Proof.
  intros Hvm. unfold vehicleList_onChange.
  destruct (nth_error (_vehicles vm) idx) as [vehicle|] eqn:Hidx; [|exact Hvm].
  apply set_selectedVehicle_consistent. intros Htrain.
  destruct Hvm as (Hpre & _). destruct (Hpre Htrain) as (Hempty & _).
  rewrite Hempty in Hidx. destruct idx; discriminate.
Qed.

Lemma set_copyTargetOption_consistent mode vm :
  consistent getTargets vm ->
  consistent getTargets (set_copyTargetOption getTargets mode vm).
Proof.
  intros Hvm. unfold set_copyTargetOption.
  destruct (mode =? _copyTargetOption vm); [exact Hvm|].
  destruct Hvm as (Hpre & _). split.
  - destruct vm; exact Hpre.
  - intros _. destruct vm; reflexivity.
Qed.

Lemma consistent_same a b :
  _selectedRide a = _selectedRide b -> _selectedTrain a = _selectedTrain b ->
  _selectedVehicle a = _selectedVehicle b -> _vehicles a = _vehicles b ->
  _copyTargets a = _copyTargets b -> _copyTargetOption a = _copyTargetOption b ->
  consistent getTargets b -> consistent getTargets a.
Proof.
  intros Hr Ht Hv Hvs Hc Ho. unfold consistent, computeCopyTargets.
  rewrite Hr, Ht, Hv, Hvs, Hc, Ho. tauto.
Qed.

(** Closes a goal [consistent a] from [consistent b] when [a] is [b] with
    stores written that the consistency does not speak of. *)
Ltac same_consistent H :=
  match type of H with
  | consistent _ ?b => apply (consistent_same _ b); [destruct b; reflexivity .. | exact H]
  end.

Lemma new_consistent : consistent getTargets (newVehicleViewModel getTargets).
Proof. split; [intros _; split; reflexivity | intros H; contradiction]. Qed.

Lemma open_consistent game types rides state :
  consistent getTargets (fst state) ->
  consistent getTargets (fst (_open getTargets game types rides state)).
Proof.
  destruct state as [vm context]. cbn [fst]. intros Hvm. unfold _open.
  assert (Hrides : consistent getTargets
            (set_rides getTargets game rides
               (vm <| _isOpen := Some true |> <| _rideTypes := types |>))).
  { apply set_rides_consistent.
    apply (consistent_same _ vm); [destruct vm; reflexivity .. | exact Hvm]. }
  set (vmA := set_rides getTargets game rides _) in *. clearbody vmA.
  destruct vmA as [? ? ? ? ? ? ? ? ? ? ? ? ? ? ? ? ? ? ? ? ? ? ? ? ? ? ? ? [a|] [t|]];
    cbn; exact Hrides.
Qed.

Lemma close_consistent state :
  consistent getTargets (fst state) -> consistent getTargets (fst (_close state)).
Proof.
  destruct state as [vm context]. cbn [fst]. intros Hvm. unfold _close. cbn [fst].
  destruct vm; exact Hvm.
Qed.

Lemma tick_other game vm :
  otherFields (_onGameTickExecuted game vm) = otherFields vm.
Proof.
  unfold _onGameTickExecuted.
  destruct (_selectedVehicle vm) as [[vehicle index]|]; [apply updateDynamic_other | reflexivity].
Qed.

Lemma refresh_other game id vm :
  otherFields (onRefreshVehicle game id vm) = otherFields vm.
Proof.
  unfold onRefreshVehicle.
  destruct (negb (JS.truthy (_isOpen vm))); [reflexivity|].
  destruct (_selectedVehicle vm) as [[vehicle index]|]; [|reflexivity].
  destruct (RideVehicle._id vehicle =? id); [apply updateVehicleInfo_other | reflexivity].
Qed.

Lemma step_consistent game event state :
  consistent getTargets (fst state) ->
  consistent getTargets (fst (step getTargets game event state)).
Proof.
  intros Hvm. destruct event; cbn [step onModel fst].
  - apply open_consistent. exact Hvm.
  - apply close_consistent. exact Hvm.
  - apply select_consistent. exact Hvm.
  - destruct (_onGameTick (fst state)); [|exact Hvm].
    cbn [onModel fst]. apply (consistent_other _ _ (tick_other game _)). exact Hvm.
  - apply (consistent_other _ _ (refresh_other game id _)). exact Hvm.
  - apply set_rides_consistent. exact Hvm.
  - apply set_trains_consistent. exact (proj1 Hvm).
  - apply vehicleList_onChange_consistent. exact Hvm.
  - unfold _setFilter. same_consistent Hvm.
  - apply set_copyTargetOption_consistent. exact Hvm.
  - same_consistent Hvm.
  - same_consistent Hvm.
  - unfold trackProgress_twoway.
    destruct (_isEditDisabled (fst state)); [exact Hvm | same_consistent Hvm].
Qed.

Lemma run_consistent events state :
  consistent getTargets (fst state) ->
  consistent getTargets (fst (run getTargets events state)).
Proof.
  revert state. induction events as [|[game event] rest IH]; intros state Hvm.
  - exact Hvm.
  - cbn [run]. apply IH. apply step_consistent. exact Hvm.
Qed.

Lemma reachable_consistent context state :
  reachable getTargets context state -> consistent getTargets (fst state).
Proof.
  intros (events & ->). apply run_consistent. apply new_consistent.
Qed.

(** C2.  In a state the view model can be in, with a vehicle selected,
    [_modifyVehicle] calls the action once: on the single span
    [(id of the selected vehicle, 1)] when the synchronize flag is off, and
    on the targets the resolver gives for the chosen copy option and the
    current selection when it is on.  Recorded by an action that only notes
    its spans, the call is one entry with these spans. *)
Theorem modifyVehicle_dispatch
    (T W : Type) (show : T -> string) (action : Action T W) (value : T)
    (m : Machine W) (before context : Context.t)
    (vehicle : RideVehicle.t) (index : nat) :
  reachable getTargets before (model m, context) ->
  _selectedVehicle (model m) = Some (vehicle, index) ->
  let targets :=
    if _synchronizeTargets (model m)
    then getTargets (_copyTargetOption (model m)) (_selectedRide (model m))
                    (_selectedTrain (model m)) (Some (vehicle, index))
    else [ (RideVehicle._id vehicle, 1) ] in
  _modifyVehicle show action value m = call action targets value m /\
  (forall (r : Machine (list (list VehicleSpan))),
     model r = model m ->
     _modifyVehicle show recorder value r
       = {| model := model r; world := world r ++ [targets]; debugLog := debugLog r |}).
Proof.
  intros Hreach Hselected targets.
  pose proof (reachable_consistent _ _ Hreach) as (_ & Hfresh). cbn [fst] in Hfresh.
  assert (Hstore : _copyTargets (model m)
                   = getTargets (_copyTargetOption (model m)) (_selectedRide (model m))
                       (_selectedTrain (model m)) (Some (vehicle, index))).
  { rewrite Hfresh by (rewrite Hselected; discriminate).
    unfold computeCopyTargets. rewrite Hselected. reflexivity. }
  split.
  - unfold _modifyVehicle, targets. rewrite Hselected.
    destruct (_synchronizeTargets (model m)); [rewrite Hstore|]; reflexivity.
  - intros r Hmodel. unfold targets. rewrite <- Hmodel in Hselected, Hstore |- *.
    unfold _modifyVehicle. rewrite Hselected.
    destruct (_synchronizeTargets (model r)); [rewrite Hstore|]; reflexivity.
Qed.

(** *** What an event does to the mirrored stores *)

Lemma select_null game car vm :
  _selectedVehicle (_select getTargets game car vm) = None ->
  mirroredFields (_select getTargets game car vm) = mirroredFields vm.
Proof.
  unfold _select.
  destruct (Helpers.findIndex _ _) as [carRideIndex|]; [|reflexivity].
  destruct (nth_error _ _) as [ride|]; [|reflexivity].
  set (vm1 := set_selectedRide getTargets game (Some (ride, carRideIndex)) vm).
  assert (H1 : pulledAtMostOnce game vm vm1) by apply set_selectedRide_pulls.
  destruct (findTrain (_trains vm1) (Car.id car) 0) as [[train vehicle]|].
  - destruct (set_selectedVehicle_frame game (Some vehicle)
                (set_selectedTrain getTargets game (Some train) vm1)) as (-> & _).
    discriminate.
  - apply (pulledAtMostOnce_null game); exact H1.
Qed.

Lemma open_mirror game types rides vm context :
  let vmA := set_rides getTargets game rides
               (vm <| _isOpen := Some true |> <| _rideTypes := types |>) in
  let vm' := fst (_open getTargets game types rides (vm, context)) in
  mirroredFields vm' = mirroredFields vmA /\ _selectedVehicle vm' = _selectedVehicle vmA.
Proof.
  cbv zeta. unfold _open.
  set (vmA := set_rides getTargets game rides _). clearbody vmA.
  destruct vmA as [? ? ? ? ? ? ? ? ? ? ? ? ? ? ? ? ? ? ? ? ? ? ? ? ? ? ? ? [a|] [t|]];
    cbn; split; reflexivity.
Qed.

Lemma step_null game event state :
  _selectedVehicle (fst (step getTargets game event state)) = None ->
  mirroredFields (fst (step getTargets game event state)) = mirroredFields (fst state).
Proof.
  destruct state as [vm context].
  destruct event; cbn [step onModel fst snd].
  - destruct (open_mirror game allRideTypes allRides vm context) as (Hmirror & Hselected).
    cbv zeta in *.
    assert (HA : pulledAtMostOnce game vm
              (set_rides getTargets game allRides
                 (vm <| _isOpen := Some true |> <| _rideTypes := allRideTypes |>))).
    { apply (pulledAtMostOnce_after game vm
               (vm <| _isOpen := Some true |> <| _rideTypes := allRideTypes |>));
        [destruct vm; reflexivity | apply set_rides_pulls]. }
    intros Hnone. rewrite Hmirror. apply (pulledAtMostOnce_null game); [exact HA|].
    rewrite <- Hselected. exact Hnone.
  - intros _; destruct vm; reflexivity.
  - apply select_null.
  - destruct (_onGameTick vm); cbn [onModel fst]; [|reflexivity].
    unfold _onGameTickExecuted.
    destruct (_selectedVehicle vm) as [[vehicle index]|] eqn:Hselected; [|reflexivity].
    destruct (other_parts _ _ (updateDynamic_other game (_car game vehicle) index vm))
      as (_ & _ & -> & _).
    rewrite Hselected. discriminate.
  - unfold onRefreshVehicle.
    destruct (negb (JS.truthy (_isOpen vm))); [reflexivity|].
    destruct (_selectedVehicle vm) as [[vehicle index]|] eqn:Hselected; [|reflexivity].
    destruct (RideVehicle._id vehicle =? id); [|reflexivity].
    destruct (other_parts _ _ (updateVehicleInfo_other game vehicle index vm))
      as (_ & _ & -> & _).
    rewrite Hselected. discriminate.
  - apply (pulledAtMostOnce_null game); apply set_rides_pulls.
  - apply (pulledAtMostOnce_null game); apply set_trains_pulls.
  - unfold vehicleList_onChange.
    destruct (nth_error (_vehicles vm) idx) as [vehicle|]; [|reflexivity].
    apply (pulledAtMostOnce_null game); apply set_selectedVehicle_pulls.
  - intros _; destruct vm; reflexivity.
  - unfold set_copyTargetOption.
    destruct (option =? _copyTargetOption vm); intros _; destruct vm; reflexivity.
  - intros _; destruct vm; reflexivity.
  - intros _; destruct vm; reflexivity.
  - unfold trackProgress_twoway, _isEditDisabled.
    destruct (_selectedVehicle vm) eqn:Hselected; [|reflexivity].
    destruct vm; cbn in *. congruence.
Qed.

(** C4, as the code has it.  A game tick leaves the identity and appearance
    stores (type, seats, powered acceleration, powered maximum speed, the
    three colours) and every store outside the mirror as they are; with a
    vehicle selected it writes variant, mass, track progress, x, y and z from
    the car, and with none selected it does nothing.  The identity stores are
    pulled from the car when a vehicle is written to the selection while the
    window is open, and also when the selected vehicle is refreshed while
    the window is open; the events that write no selection and refresh
    nothing leave them as they are. *)
Theorem tick_leaves_identity (game : Game) (vm : VehicleViewModel) :
  identityFields (_onGameTickExecuted game vm) = identityFields vm /\
  otherFields (_onGameTickExecuted game vm) = otherFields vm /\
  (_selectedVehicle vm = None -> _onGameTickExecuted game vm = vm) /\
  (forall vehicle index,
     _selectedVehicle vm = Some (vehicle, index) ->
     let car := _car game vehicle in
     let vm' := _onGameTickExecuted game vm in
     (_variant vm', _mass vm', _trackProgress vm', (_x vm', _y vm', _z vm'))
       = (Car.vehicleObject car, Car.mass car, Car.trackProgress car,
          (Car.x car, Car.y car, Car.z car))) /\
  (forall vehicle index,
     JS.truthy (_isOpen vm) = true ->
     identityFields (set_selectedVehicle getTargets game (Some (vehicle, index)) vm)
       = carIdentity (_rideTypes vm) (_car game vehicle)) /\
  (forall vehicle index,
     JS.truthy (_isOpen vm) = true ->
     _selectedVehicle vm = Some (vehicle, index) ->
     identityFields (onRefreshVehicle game (RideVehicle._id vehicle) vm)
       = carIdentity (_rideTypes vm) (_car game vehicle)) /\
  (forall event context,
     match event with
     | GameTick | WindowClosed | FilterToggled _ _ | CopyTargetChosen _
     | SynchronizeToggled _ | MultiplierChosen _ | TrackProgressSpun _ =>
         identityFields (fst (step getTargets game event (vm, context))) = identityFields vm
     | _ => True
     end).
Proof.
  assert (Htick : identityFields (_onGameTickExecuted game vm) = identityFields vm).
  { unfold _onGameTickExecuted.
    destruct (_selectedVehicle vm) as [[vehicle index]|];
      [apply updateDynamic_identity | reflexivity]. }
  split; [|split; [|split; [|split; [|split; [|split]]]]].
  - exact Htick.
  - apply tick_other.
  - intros Hnone. unfold _onGameTickExecuted. rewrite Hnone. reflexivity.
  - intros vehicle index Hselected. cbv zeta. unfold _onGameTickExecuted.
    rewrite Hselected. unfold _updateDynamicDataFromCar.
    destruct vm; cbn. destruct _selectedTrain0 as [[train position]|]; reflexivity.
  - intros vehicle index Hopen. unfold set_selectedVehicle, notify_selectedVehicle.
    assert (Hpulled : identityFields
              (_updateVehicleInfo game vehicle index
                 (vm <| _selectedVehicle := Some (vehicle, index) |>
                     <| _copyTargets := computeCopyTargets getTargets
                          (vm <| _selectedVehicle := Some (vehicle, index) |>) |>))
              = carIdentity (_rideTypes vm) (_car game vehicle)).
    { rewrite updateVehicleInfo_identity. destruct vm; reflexivity. }
    destruct vm; cbn in *. rewrite Hopen.
    destruct _selectedVehicle0; exact Hpulled.
  - intros vehicle index Hopen Hselected. unfold onRefreshVehicle.
    rewrite Hopen, Hselected, Z.eqb_refl. cbn [negb].
    apply updateVehicleInfo_identity.
  - intros event context. destruct event; cbn [step onModel fst snd]; try exact I.
    + destruct vm; reflexivity.
    + destruct (_onGameTick vm); [exact Htick | reflexivity].
    + destruct vm; reflexivity.
    + unfold set_copyTargetOption.
      destruct (option =? _copyTargetOption vm); destruct vm; reflexivity.
    + destruct vm; reflexivity.
    + destruct vm; reflexivity.
    + unfold trackProgress_twoway. destruct (_isEditDisabled vm); destruct vm; reflexivity.
Qed.

(** *** The label of the spacing spinner *)

Lemma toString_not_label n : JS.toString n <> "Too far away".
Proof.
  unfold JS.toString, NilZero.string_of_int, NilZero.string_of_uint.
  destruct (Z.to_int n) as [d|d]; destruct d; cbn; discriminate.
Qed.

Lemma spacing_format_unavailable vm :
  _spacing vm = None ->
  spacing_format vm = "Too far away" /\ (forall n, spacing_format vm <> JS.toString n).
Proof.
  intros Hnone. unfold spacing_format. rewrite Hnone.
  split; [reflexivity|]. intros n Heq. exact (toString_not_label n (eq_sym Heq)).
Qed.

Lemma set_selectedVehicle_spacing game vehicle index vm :
  JS.truthy (_isOpen vm) = true ->
  _spacing (set_selectedVehicle getTargets game (Some (vehicle, index)) vm)
    = _spacing (_updateVehicleInfo game vehicle index vm).
Proof.
  intros Hopen. unfold set_selectedVehicle, notify_selectedVehicle.
  destruct vm; cbn in *; rewrite Hopen;
    destruct _selectedVehicle0; unfold _updateVehicleInfo, _updateDynamicDataFromCar; cbn;
    destruct _selectedTrain0 as [[train position]|]; reflexivity.
Qed.

(** C8.  In a state the view model can be in, a selected vehicle has its
    train selected, and every pull of it writes to the spacing store what the
    spacing computation returns for it: the pull of a game tick, the full
    pull, the refresh of the vehicle and the choice of a vehicle in the list
    while the window is open.  So when there is no preceding vehicle, or the
    distance to the preceding vehicle cannot be resolved, the store holds
    null after the pull, whatever number it held before, and the spinner
    shows "Too far away", which is the rendering of no number, 0 included. *)
Theorem spacing_unavailable_after_pull
    (game : Game) (before context : Context.t) (vm : VehicleViewModel)
    (vehicle : RideVehicle.t) (index : nat) :
  reachable getTargets before (vm, context) ->
  _selectedVehicle vm = Some (vehicle, index) ->
  exists train position,
    _selectedTrain vm = Some (train, position) /\
    let car := _car game vehicle in
    let spacing := getSpacingToPrecedingVehicle game train car index in
    _spacing (_onGameTickExecuted game vm) = spacing /\
    _spacing (_updateVehicleInfo game vehicle index vm) = spacing /\
    (JS.truthy (_isOpen vm) = true ->
       _spacing (onRefreshVehicle game (RideVehicle._id vehicle) vm) = spacing /\
       forall chosen place,
         nth_error (_vehicles vm) place = Some chosen ->
         _spacing (vehicleList_onChange getTargets game place vm)
           = getSpacingToPrecedingVehicle game train (_car game chosen) place) /\
    (index = 0%nat -> spacing = None) /\
    (forall preceding,
       nth_error (RideTrain._vehicles train) (Nat.pred index) = Some preceding ->
       distanceBetween game (_car game preceding) car = None -> spacing = None) /\
    (spacing = None ->
       _spacing (_onGameTickExecuted game vm) = None /\
       _spacing (_updateVehicleInfo game vehicle index vm) = None /\
       spacing_format (_onGameTickExecuted game vm) = "Too far away" /\
       spacing_format (_updateVehicleInfo game vehicle index vm) = "Too far away" /\
       forall n, "Too far away" <> JS.toString n).
Proof.
  intros Hreach Hselected. pose proof (reachable_consistent _ _ Hreach) as (Hpre & _).
  cbn [fst] in Hpre.
  destruct (_selectedTrain vm) as [[train position]|] eqn:Htrain.
  2:{ destruct (Hpre eq_refl) as (_ & Hnone). congruence. }
  exists train, position. split; [reflexivity|]. cbv zeta.
  assert (Hfull : forall chosen place,
            _spacing (_updateVehicleInfo game chosen place vm)
            = getSpacingToPrecedingVehicle game train (_car game chosen) place).
  { intros chosen place. unfold _updateVehicleInfo.
    apply (updateDynamic_spacing _ _ _ _ train position). destruct vm; exact Htrain. }
  assert (Htick : _spacing (_onGameTickExecuted game vm)
                  = getSpacingToPrecedingVehicle game train (_car game vehicle) index).
  { unfold _onGameTickExecuted. rewrite Hselected.
    apply (updateDynamic_spacing _ _ _ _ train position). exact Htrain. }
  pose proof (Hfull vehicle index) as Hpull.
  split; [exact Htick|]. split; [exact Hpull|]. split; [|split; [|split]].
  - intros Hopen. split.
    + unfold onRefreshVehicle. rewrite Hopen, Hselected, Z.eqb_refl. cbn [negb].
      exact Hpull.
    + intros chosen place Hchosen. unfold vehicleList_onChange. rewrite Hchosen.
      rewrite (set_selectedVehicle_spacing game chosen place vm Hopen). apply Hfull.
  - intros ->. reflexivity.
  - intros preceding Hpreceding Hdistance.
    destruct index as [|position']; [reflexivity|].
    cbn [Nat.pred] in Hpreceding. cbn [getSpacingToPrecedingVehicle].
    rewrite Hpreceding. exact Hdistance.
  - intros Hnone. rewrite Hnone in Htick, Hpull.
    destruct (spacing_format_unavailable _ Htick) as (-> & _).
    destruct (spacing_format_unavailable _ Hpull) as (-> & _).
    repeat split; try assumption. intros n Heq. exact (toString_not_label n (eq_sym Heq)).
Qed.

(** *** The subscriptions *)

Lemma select_fixed game car vm :
  fixedFields (_select getTargets game car vm) = fixedFields vm.
Proof.
  unfold _select.
  destruct (Helpers.findIndex _ _) as [carRideIndex|]; [|reflexivity].
  destruct (nth_error _ _) as [ride|]; [|reflexivity].
  set (vm1 := set_selectedRide getTargets game (Some (ride, carRideIndex)) vm).
  assert (H1 : fixedFields vm1 = fixedFields vm) by apply set_selectedRide_frame.
  destruct (findTrain (_trains vm1) (Car.id car) 0) as [[train vehicle]|]; [|exact H1].
  rewrite <- H1.
  destruct (set_selectedVehicle_frame game (Some vehicle)
              (set_selectedTrain getTargets game (Some train) vm1))
    as (_ & _ & _ & _ & _ & _ & ->).
  apply set_selectedTrain_frame.
Qed.

Lemma fixed_handles a b :
  fixedFields a = fixedFields b ->
  _onPlayerAction a = _onPlayerAction b /\ _onGameTick a = _onGameTick b.
Proof.
  intros H. destruct (fixed_parts _ _ H) as (_ & _ & _ & _ & Ha & Ht & _).
  split; assumption.
Qed.

(** Every event but the opening and the closing of the window leaves the
    handles and the subscriptions as they are. *)
Lemma step_handles game event state :
  match event with
  | WindowOpened _ _ | WindowClosed => True
  | _ =>
      _onPlayerAction (fst (step getTargets game event state)) = _onPlayerAction (fst state) /\
      _onGameTick (fst (step getTargets game event state)) = _onGameTick (fst state) /\
      snd (step getTargets game event state) = snd state
  end.
Proof.
  destruct state as [vm context].
  destruct event; cbn [step onModel fst snd]; try exact I.
  - destruct (fixed_handles _ _ (select_fixed game car vm)) as (-> & ->). repeat split.
  - destruct (_onGameTick vm) eqn:Htick; cbn [onModel fst snd]; [|repeat split; assumption].
    destruct (other_parts _ _ (tick_other game vm)) as (_ & _ & _ & _ & _ & _ & _ & Hf).
    destruct (fixed_handles _ _ Hf) as (-> & ->). repeat split. exact Htick.
  - destruct (other_parts _ _ (refresh_other game id vm)) as (_ & _ & _ & _ & _ & _ & _ & Hf).
    destruct (fixed_handles _ _ Hf) as (-> & ->). repeat split.
  - destruct (set_rides_frame game rides vm) as (_ & _ & Hf).
    destruct (fixed_handles _ _ Hf) as (-> & ->). repeat split.
  - destruct (set_trains_frame game trains vm) as (_ & _ & _ & _ & Hf).
    destruct (fixed_handles _ _ Hf) as (-> & ->). repeat split.
  - unfold vehicleList_onChange.
    destruct (nth_error (_vehicles vm) idx) as [vehicle|]; [|repeat split].
    destruct (set_selectedVehicle_frame game (Some (vehicle, idx)) vm)
      as (_ & _ & _ & _ & _ & _ & Hf).
    destruct (fixed_handles _ _ Hf) as (-> & ->). repeat split.
  - destruct vm; repeat split.
  - unfold set_copyTargetOption.
    destruct (option =? _copyTargetOption vm); destruct vm; repeat split.
  - destruct vm; repeat split.
  - destruct vm; repeat split.
  - unfold trackProgress_twoway.
    destruct (_isEditDisabled vm); destruct vm; repeat split.
Qed.

Lemma open_subscribed before game types rides state :
  subscribed before state ->
  subscribed before (_open getTargets game types rides state).
Proof.
  destruct state as [vm context]. unfold subscribed, ownSubscriptions.
  intros (Hlive & Hnext & Hrange & Hnodup & Hboth). unfold _open.
  assert (Hhandles :
    _onPlayerAction (set_rides getTargets game rides
                       (vm <| _isOpen := Some true |> <| _rideTypes := types |>))
      = _onPlayerAction vm /\
    _onGameTick (set_rides getTargets game rides
                   (vm <| _isOpen := Some true |> <| _rideTypes := types |>))
      = _onGameTick vm).
  { destruct (set_rides_frame game rides
                (vm <| _isOpen := Some true |> <| _rideTypes := types |>)) as (_ & _ & Hf).
    destruct (fixed_handles _ _ Hf) as (-> & ->). destruct vm; split; reflexivity. }
  set (vmA := set_rides getTargets game rides _) in *. clearbody vmA.
  destruct Hhandles as (Ha & Ht).
  destruct vmA as [? ? ? ? ? ? ? ? ? ? ? ? ? ? ? ? ? ? ? ? ? ? ? ? ? ? ? ? a' t'].
  cbn in Ha, Ht. subst a' t'.
  destruct (_onPlayerAction vm) as [a|] eqn:Ea, (_onGameTick vm) as [t|] eqn:Et; cbn.
  - split; [exact Hlive|]. split; [exact Hnext|]. split; [exact Hrange|].
    split; [exact Hnodup | exact Hboth].
  - destruct Hboth as (_ & Hback). discriminate (Hback eq_refl).
  - destruct Hboth as (Hforth & _). discriminate (Hforth eq_refl).
  - cbn in Hlive. rewrite app_nil_r in Hlive. rewrite Hlive, <- app_assoc. cbn.
    split; [reflexivity|]. split; [lia|]. split; [|split].
    + intros s [<- | [<- | []]]; cbn; lia.
    + repeat constructor; cbn; [intros [H | []]; lia | intros []].
    + split; discriminate.
Qed.

Lemma filter_other (handle : nat) (l : list (Context.IDisposable * Context.Hook)) :
  (forall s, In s l -> fst s <> handle) ->
  filter (fun s => negb (Nat.eqb (fst s) handle)) l = l.
Proof.
  induction l as [|s l IH]; intros Hne; [reflexivity|]. cbn [filter].
  match goal with
  | |- context [Nat.eqb ?a ?b] => destruct (Nat.eqb_spec a b) as [Heq|_]
  end; [exfalso; exact (Hne s (or_introl eq_refl) Heq)|].
  cbn [negb]. rewrite IH; [reflexivity|]. intros s' Hs'. apply Hne. right. exact Hs'.
Qed.

(** Disposing a handle takes its subscription away and no other. *)
Lemma dispose_own (handle : nat) (hook : Context.Hook)
    (others rest : list (Context.IDisposable * Context.Hook)) (next : nat) :
  (forall s, In s others -> (fst s < handle)%nat) ->
  ~ In handle (map fst rest) ->
  Context.dispose handle
    {| Context.nextHandle := next; Context.live := others ++ (handle, hook) :: rest |}
  = {| Context.nextHandle := next; Context.live := others ++ rest |}.
Proof.
  intros Hbelow Hfresh. unfold Context.dispose. cbn. f_equal.
  rewrite filter_app. cbn [filter].
  match goal with
  | |- context [Nat.eqb ?a ?b] => destruct (Nat.eqb_spec a b) as [_|Hne]
  end; [|exfalso; apply Hne; reflexivity].
  cbn [negb]. rewrite !filter_other; [reflexivity| |].
  - intros s Hs Heq. apply Hfresh. rewrite <- Heq. apply in_map. exact Hs.
  - intros s Hs. specialize (Hbelow s Hs). lia.
Qed.

Lemma close_subscribed before state :
  Context.wellFormed before ->
  subscribed before state ->
  subscribed before (_close state) /\
  Context.live (snd (_close state)) = Context.live before /\
  _onPlayerAction (fst (_close state)) = None /\
  _onGameTick (fst (_close state)) = None.
Proof.
  destruct state as [vm [next live]]. unfold subscribed, ownSubscriptions.
  intros Hwf (Hlive & Hnext & Hrange & Hnodup & Hboth). unfold _close.
  destruct vm as [? ? ? ? ? ? ? ? ? ? ? ? ? ? ? ? ? ? ? ? ? ? ? ? ? ? ? ? [a|] [t|]];
    cbn -[Context.dispose] in *.
  - subst live.
    rewrite (dispose_own a Context.ActionExecute (Context.live before)
               [(t, Context.IntervalTick)] next).
    + rewrite (dispose_own t Context.IntervalTick (Context.live before) [] next).
      * cbn. rewrite app_nil_r.
        split; [|repeat split].
        split; [reflexivity|]. split; [exact Hnext|].
        split; [intros s []|]. split; [constructor | tauto].
      * intros s Hs. specialize (Hwf s Hs).
        specialize (Hrange (t, Context.IntervalTick) (or_intror (or_introl eq_refl))).
        cbn in Hrange. lia.
      * intros [].
    + intros s Hs. specialize (Hwf s Hs).
      specialize (Hrange (a, Context.ActionExecute) (or_introl eq_refl)).
      cbn in Hrange. lia.
    + inversion Hnodup. assumption.
  - destruct Hboth as (_ & Hback). discriminate (Hback eq_refl).
  - destruct Hboth as (Hforth & _). discriminate (Hforth eq_refl).
  - rewrite app_nil_r in *. subst live.
    split; [|repeat split].
    split; [reflexivity|]. split; [exact Hnext|].
    split; [intros s []|]. split; [constructor | tauto].
Qed.

Lemma open_handles game types rides vm context :
  let state' := _open getTargets game types rides (vm, context) in
  (exists a t, _onPlayerAction (fst state') = Some a /\ _onGameTick (fst state') = Some t) /\
  (forall a t,
     _onPlayerAction vm = Some a -> _onGameTick vm = Some t ->
     snd state' = context /\
     _onPlayerAction (fst state') = Some a /\ _onGameTick (fst state') = Some t).
Proof.
  cbv zeta. unfold _open.
  assert (Hhandles :
    _onPlayerAction (set_rides getTargets game rides
                       (vm <| _isOpen := Some true |> <| _rideTypes := types |>))
      = _onPlayerAction vm /\
    _onGameTick (set_rides getTargets game rides
                   (vm <| _isOpen := Some true |> <| _rideTypes := types |>))
      = _onGameTick vm).
  { destruct (set_rides_frame game rides
                (vm <| _isOpen := Some true |> <| _rideTypes := types |>)) as (_ & _ & Hf).
    destruct (fixed_handles _ _ Hf) as (-> & ->). destruct vm; split; reflexivity. }
  set (vmA := set_rides getTargets game rides _) in *. clearbody vmA.
  destruct Hhandles as (Ha & Ht).
  destruct vmA as [? ? ? ? ? ? ? ? ? ? ? ? ? ? ? ? ? ? ? ? ? ? ? ? ? ? ? ? a' t'].
  cbn in Ha, Ht. subst a' t'.
  destruct (_onPlayerAction vm) as [a|], (_onGameTick vm) as [t|]; cbn;
    (split; [eexists _, _; split; reflexivity|]); intros a0 t0 Ha0 Ht0;
    try discriminate.
  injection Ha0 as <-. injection Ht0 as <-. repeat split.
Qed.

Lemma subscribed_same before vm vm' context :
  _onPlayerAction vm' = _onPlayerAction vm -> _onGameTick vm' = _onGameTick vm ->
  subscribed before (vm, context) -> subscribed before (vm', context).
Proof.
  unfold subscribed, ownSubscriptions. intros -> ->. exact (fun H => H).
Qed.

Lemma step_subscribed before game event state :
  Context.wellFormed before ->
  subscribed before state -> subscribed before (step getTargets game event state).
Proof.
  intros Hwf Hstate. pose proof (step_handles game event state) as Hsame.
  destruct event;
    try (destruct Hsame as (Ha & Ht & Hc);
         destruct (step getTargets game _ state) as [vm' context'], state as [vm context];
         cbn [fst snd] in *; subst context';
         apply (subscribed_same before vm vm' context Ha Ht Hstate)).
  - apply open_subscribed. exact Hstate.
  - apply close_subscribed; assumption.
Qed.

Lemma run_subscribed before events state :
  Context.wellFormed before ->
  subscribed before state -> subscribed before (run getTargets events state).
Proof.
  intros Hwf. revert state. induction events as [|[game event] rest IH]; intros state Hs.
  - exact Hs.
  - cbn [run]. apply IH. apply step_subscribed; assumption.
Qed.

Lemma new_subscribed before : subscribed before (newVehicleViewModel getTargets, before).
Proof.
  unfold subscribed, ownSubscriptions. cbn. rewrite app_nil_r.
  split; [reflexivity|]. split; [lia|]. split; [intros s []|].
  split; [constructor | tauto].
Qed.

Lemma subscribed_count before vm context hook :
  subscribed before (vm, context) ->
  Context.count hook context
    = (Context.count hook before
       + List.length (filter (fun s => Context.Hook_eqb (snd s) hook) (ownSubscriptions vm)))%nat.
Proof.
  intros (Hlive & _). unfold Context.count. rewrite Hlive, filter_app, length_app.
  reflexivity.
Qed.

(** C6.  Whatever happens to a view model after its construction, the game
    holds at most one action-executed and at most one game-tick subscription
    of it: exactly one while the view model keeps the handle, none otherwise.
    Opening the window leaves both handles present, and opening it again
    subscribes to nothing and keeps the handles; closing it disposes both
    subscriptions, so that the live subscriptions are those from before the
    view model was constructed, and clears both handles. *)
Theorem at_most_one_subscription (before : Context.t) (events : list (Game * Event)) :
  Context.wellFormed before ->
  let state := run getTargets events (newVehicleViewModel getTargets, before) in
  Context.count Context.ActionExecute (snd state)
    = (Context.count Context.ActionExecute before
       + match _onPlayerAction (fst state) with Some _ => 1 | None => 0 end)%nat /\
  Context.count Context.IntervalTick (snd state)
    = (Context.count Context.IntervalTick before
       + match _onGameTick (fst state) with Some _ => 1 | None => 0 end)%nat /\
  (forall game types rides game' types' rides',
     let once := _open getTargets game types rides state in
     let twice := _open getTargets game' types' rides' once in
     (exists a t, _onPlayerAction (fst once) = Some a /\ _onGameTick (fst once) = Some t) /\
     snd twice = snd once /\
     _onPlayerAction (fst twice) = _onPlayerAction (fst once) /\
     _onGameTick (fst twice) = _onGameTick (fst once)) /\
  (let closed := _close state in
   _onPlayerAction (fst closed) = None /\ _onGameTick (fst closed) = None /\
   Context.live (snd closed) = Context.live before).
Proof.
  intros Hwf state.
  assert (Hsub : subscribed before state)
    by (apply run_subscribed; [exact Hwf | apply new_subscribed]).
  split; [|split; [|split]].
  - destruct state as [vm context]. cbn [fst snd].
    rewrite (subscribed_count before vm context _ Hsub). f_equal.
    unfold ownSubscriptions.
    destruct (_onPlayerAction vm), (_onGameTick vm); reflexivity.
  - destruct state as [vm context]. cbn [fst snd].
    rewrite (subscribed_count before vm context _ Hsub). f_equal.
    unfold ownSubscriptions.
    destruct (_onPlayerAction vm), (_onGameTick vm); reflexivity.
  - intros game types rides game' types' rides'. cbv zeta.
    destruct state as [vm context].
    destruct (open_handles game types rides vm context) as ((a & t & Ha & Ht) & _).
    split; [exists a, t; split; assumption|].
    destruct (_open getTargets game types rides (vm, context)) as [vm1 context1].
    cbn [fst snd] in *.
    destruct (open_handles game' types' rides' vm1 context1) as (_ & Hagain).
    destruct (Hagain a t Ha Ht) as (-> & -> & ->). rewrite Ha, Ht. repeat split.
  - cbv zeta. destruct (close_subscribed before state Hwf Hsub) as (_ & Hlive & Ha & Ht).
    repeat split; assumption.
Qed.

End StoreFacts.

(** ** Edits without a selection *)

(** C3.  With no vehicle selected, [_modifyVehicle] does not call the
    action: whatever the action is, the view model and the game are as they
    were, and the only effect is one line on the developer console. *)
Theorem modifyVehicle_without_selection
    (T W : Type) (show : T -> string) (action : Action T W) (value : T) (m : Machine W) :
  _selectedVehicle (model m) = None ->
  let m' := _modifyVehicle show action value m in
  model m' = model m /\ world m' = world m /\
  debugLog m' = debugLog m ++
    [ [ "Failed to modify vehicle with"; name action; "to"; show value;
        "; none is selected." ] ] /\
  (forall other : Action T W,
     name other = name action -> _modifyVehicle show other value m = m').
Proof.
  intros Hnone. cbv zeta. unfold _modifyVehicle. rewrite Hnone.
  repeat split. intros other ->. reflexivity.
Qed.

(** ** The clipboard of the editor window *)

Section ClipboardFacts.

Import VehicleEditorWindow.

Variable VehicleSettings : Type.
Variable W : Type.

Lemma click_toggled (c : Click W) (state : t VehicleSettings W * W) :
  toggled (fst state) ->
  toggled (fst (click c state)) /\
  onCopyVehicle (fst (click c state)) = onCopyVehicle (fst state) /\
  onPasteVehicle (fst (click c state)) = onPasteVehicle (fst state).
Proof.
  destruct state as [window w]. destruct c; cbn [click fst snd];
    [|intros H; repeat split; apply H ..].
  intros (Hpressed & Hdisabled). unfold onClickCopy, toggled.
  destruct window as [copied pressed disabled copyHandler pasteHandler]. cbn in *.
  destruct pressed; cbn; [repeat split|].
  destruct copyHandler as [handler|]; cbn.
  - destruct (handler w); cbn; repeat split.
  - subst. destruct copied; [discriminate|]. repeat split.
Qed.

Lemma clicks_toggled (cs : list (Click W)) (state : t VehicleSettings W * W) :
  toggled (fst state) ->
  toggled (fst (clicks cs state)) /\
  onCopyVehicle (fst (clicks cs state)) = onCopyVehicle (fst state) /\
  onPasteVehicle (fst (clicks cs state)) = onPasteVehicle (fst state).
Proof.
  revert state. induction cs as [|c rest IH]; intros state Hstate.
  - repeat split; apply Hstate.
  - cbn [clicks]. destruct (click_toggled c state Hstate) as (Hnext & Hcopy & Hpaste).
    destruct (IH (click c state) Hnext) as (Hend & -> & ->).
    repeat split; try apply Hend; assumption.
Qed.

(** C7, as the code has it.  The clipboard starts empty, and at any time
    it holds at most one snapshot, with the copy button pressed exactly while
    it holds one.  A paste on an empty clipboard calls no handler and changes
    nothing; a paste on a snapshot hands that snapshot to the handler.  A
    click on the copy button while a snapshot is held clears the clipboard
    and captures nothing; a click on it while the clipboard is empty stores
    exactly what the copy handler returns. *)
Theorem clipboard_toggles
    (copyHandler : option (W -> option VehicleSettings))
    (pasteHandler : option (VehicleSettings -> W -> W))
    (cs : list (Click W)) (w0 : W) :
  let window := fst (clicks cs (loaded copyHandler pasteHandler, w0)) in
  copiedVehicleSettings (loaded copyHandler pasteHandler) = None /\
  toggled window /\
  (forall w, copiedVehicleSettings window = None -> onClickPaste window w = w) /\
  (forall w settings handler,
     copiedVehicleSettings window = Some settings -> pasteHandler = Some handler ->
     onClickPaste window w = handler settings w) /\
  (forall w settings,
     copiedVehicleSettings window = Some settings ->
     copiedVehicleSettings (onClickCopy w window) = None) /\
  (forall w,
     copiedVehicleSettings window = None ->
     copiedVehicleSettings (onClickCopy w window)
       = match copyHandler with
         | Some handler => handler w
         | None => None
         end).
Proof.
  cbv zeta.
  assert (Hstart : toggled (fst (loaded copyHandler pasteHandler, w0)))
    by (split; reflexivity).
  destruct (clicks_toggled cs _ Hstart) as ((Hpressed & Hdisabled) & Hcopy & Hpaste).
  set (window := fst (clicks cs (loaded copyHandler pasteHandler, w0))) in *.
  clearbody window. cbn in Hcopy, Hpaste.
  split; [reflexivity|]. split; [split; assumption|].
  destruct window as [copied pressed disabled copyHandler' pasteHandler']. cbn in *.
  subst copyHandler' pasteHandler' pressed.
  split; [|split; [|split]].
  - intros w ->. reflexivity.
  - intros w settings handler -> ->. reflexivity.
  - intros w settings ->. reflexivity.
  - intros w ->. unfold onClickCopy. cbn.
    destruct copyHandler as [handler|]; cbn; [|reflexivity].
    destruct (handler w); reflexivity.
Qed.

End ClipboardFacts.

(** * The theorems at concrete inputs *)

(** C1 at the park of the examples: the second ride is selected, and after
    the list of rides is replaced by one with three entries the selection is
    the entry at the same index. *)
Lemma selection_after_list_replacement_witness :
  let vm := set_selectedRide Examples.noTargets Examples.game0
              (Some (Examples.ride2, 1%nat)) (fst Examples.opened) in
  let rides := [Examples.ride2; Examples.ride1; Examples.ride2] in
  _selectedRide vm = Some (Examples.ride2, 1%nat) /\
  (1 < List.length rides)%nat /\
  _selectedRide (set_rides Examples.noTargets Examples.game0 rides vm)
    = Some (Examples.ride1, 1%nat).
Proof.
  cbv zeta.
  destruct (selection_after_list_replacement Examples.noTargets Examples.game0
              (set_selectedRide Examples.noTargets Examples.game0
                 (Some (Examples.ride2, 1%nat)) (fst Examples.opened)))
    as (Hrides & _).
  destruct (Hrides [Examples.ride2; Examples.ride1; Examples.ride2]) as (_ & Hkept & _).
  assert (Hprevious : _selectedRide
            (set_selectedRide Examples.noTargets Examples.game0
               (Some (Examples.ride2, 1%nat)) (fst Examples.opened))
            = Some (Examples.ride2, 1%nat)) by reflexivity.
  assert (Hlt : (1 < List.length [Examples.ride2; Examples.ride1; Examples.ride2])%nat)
    by (cbn; lia).
  split; [exact Hprevious|]. split; [exact Hlt|].
  destruct (Hkept Examples.ride2 1%nat Hprevious Hlt) as (item & Hitem & ->).
  injection Hitem as <-. reflexivity.
Defined.

(** C2 with "Synchronize" pressed and the first car of the first train
    selected: the action is called once, on the span of the whole train. *)
Lemma modifyVehicle_dispatch_witness :
  reachable Examples.wholeTrain Examples.noSubscriptions
    (model (Examples.machineOf (fst Examples.synchronized)), snd Examples.synchronized) /\
  _selectedVehicle (model (Examples.machineOf (fst Examples.synchronized)))
    = Some (Examples.vehicle 10, 0%nat) /\
  world (_modifyVehicle JS.toString recorder 5 (Examples.machineOf (fst Examples.synchronized)))
    = [ [ (10, 3) ] ].
Proof.
  assert (Hreach : reachable Examples.wholeTrain Examples.noSubscriptions
            (model (Examples.machineOf (fst Examples.synchronized)),
             snd Examples.synchronized))
    by (exists Examples.synchronizedRun; reflexivity).
  assert (Hselected : _selectedVehicle (model (Examples.machineOf (fst Examples.synchronized)))
                      = Some (Examples.vehicle 10, 0%nat)) by reflexivity.
  split; [exact Hreach|]. split; [exact Hselected|].
  destruct (modifyVehicle_dispatch Examples.wholeTrain Z (list (list VehicleSpan))
              JS.toString recorder 5 (Examples.machineOf (fst Examples.synchronized))
              Examples.noSubscriptions (snd Examples.synchronized)
              (Examples.vehicle 10) 0%nat Hreach Hselected) as (_ & Hrecorded).
  rewrite (Hrecorded (Examples.machineOf (fst Examples.synchronized)) eq_refl).
  reflexivity.
Defined.

(** C3 at a view model that was just constructed. *)
Lemma modifyVehicle_without_selection_witness :
  _selectedVehicle (model (Examples.machineOf Examples.freshModel)) = None /\
  world (_modifyVehicle JS.toString recorder 5 (Examples.machineOf Examples.freshModel)) = [] /\
  debugLog (_modifyVehicle JS.toString recorder 5 (Examples.machineOf Examples.freshModel))
    = [ [ "Failed to modify vehicle with"; "recorder"; "to"; "5"; "; none is selected." ] ].
Proof.
  split; [reflexivity|].
  destruct (modifyVehicle_without_selection Z (list (list VehicleSpan))
              JS.toString recorder 5 (Examples.machineOf Examples.freshModel) eq_refl)
    as (_ & Hworld & Hlog & _).
  split; [exact Hworld | exact Hlog].
Defined.

(** C4 at the opened window: the second car is written to the selection
    after the cars were given six seats, and the seats store holds six. *)
Lemma tick_leaves_identity_witness :
  JS.truthy (_isOpen (fst Examples.opened)) = true /\
  _seats (set_selectedVehicle Examples.noTargets Examples.game1
            (Some (Examples.vehicle 11, 1%nat)) (fst Examples.opened)) = 6 /\
  _seats (_onGameTickExecuted Examples.game1 (fst Examples.opened)) = 4.
Proof.
  split; [reflexivity|].
  destruct (tick_leaves_identity Examples.noTargets Examples.game1 (fst Examples.opened))
    as (Htick & _ & _ & _ & Hselect & _ & _).
  split.
  - exact (f_equal (fun fields => snd (fst (fst (fst fields))))
             (Hselect (Examples.vehicle 11) 1%nat eq_refl)).
  - exact (f_equal (fun fields => snd (fst (fst (fst fields)))) Htick).
Defined.

(** C4 as stated fails: the cars are given six seats and the selected car
    is refreshed; the selection is the same, and the seats store went from
    four to six. *)
Lemma refresh_repulls_identity :
  _selectedVehicle (onRefreshVehicle Examples.game1 10 (fst Examples.opened))
    = _selectedVehicle (fst Examples.opened) /\
  _seats (fst Examples.opened) = 4 /\
  _seats (onRefreshVehicle Examples.game1 10 (fst Examples.opened)) = 6.
Proof. repeat split. Qed.

(** C6 from a game without subscriptions: after the window was opened
    twice there is one action-executed subscription. *)
Lemma at_most_one_subscription_witness :
  Context.wellFormed Examples.noSubscriptions /\
  Context.count Context.ActionExecute
    (snd (run Examples.noTargets Examples.reopenedRun
            (Examples.freshModel, Examples.noSubscriptions))) = 1%nat.
Proof.
  assert (Hwf : Context.wellFormed Examples.noSubscriptions) by (intros s []).
  split; [exact Hwf|].
  destruct (at_most_one_subscription Examples.noTargets Examples.noSubscriptions
              Examples.reopenedRun Hwf) as (Hcount & _).
  exact Hcount.
Defined.

(** C7 at the window of the examples: one click on copy captures the
    snapshot 1, and the next click clears the clipboard. *)
Lemma clipboard_toggles_witness :
  let window := fst (VehicleEditorWindow.clicks [VehicleEditorWindow.CopyClicked]
                       Examples.clipboardStart) in
  VehicleEditorWindow.copiedVehicleSettings window = Some 1 /\
  VehicleEditorWindow.copiedVehicleSettings (VehicleEditorWindow.onClickCopy 2 window) = None.
Proof.
  cbv zeta. split; [reflexivity|].
  destruct (clipboard_toggles Z Z (Some (fun w : Z => Some w)) None
              [VehicleEditorWindow.CopyClicked] 1) as (_ & _ & _ & _ & Hclear & _).
  exact (Hclear 2 1 eq_refl).
Defined.

(** C7 as stated fails: the snapshot 1 is held, the game changes to 2, and
    a second click on copy leaves the clipboard empty instead of holding the
    snapshot 2. *)
Lemma second_copy_clears_clipboard :
  VehicleEditorWindow.copiedVehicleSettings
    (fst (VehicleEditorWindow.clicks [VehicleEditorWindow.CopyClicked]
            Examples.clipboardStart)) = Some 1 /\
  VehicleEditorWindow.copiedVehicleSettings
    (fst (VehicleEditorWindow.clicks
            [VehicleEditorWindow.CopyClicked; VehicleEditorWindow.GameChanged 2;
             VehicleEditorWindow.CopyClicked]
            Examples.clipboardStart)) = None /\
  VehicleEditorWindow.copiedVehicleSettings
    (fst (VehicleEditorWindow.clicks
            [VehicleEditorWindow.CopyClicked; VehicleEditorWindow.GameChanged 2;
             VehicleEditorWindow.CopyClicked]
            Examples.clipboardStart)) <> Some 2.
Proof. repeat split. discriminate. Qed.

(** C8 at the opened window, where the first car of the train is selected
    and no vehicle precedes it: after a tick the store holds null and the
    spinner shows the label. *)
Lemma spacing_unavailable_after_pull_witness :
  reachable Examples.noTargets Examples.noSubscriptions
    (fst Examples.opened, snd Examples.opened) /\
  _selectedVehicle (fst Examples.opened) = Some (Examples.vehicle 10, 0%nat) /\
  _spacing (_onGameTickExecuted Examples.game0 (fst Examples.opened)) = None /\
  spacing_format (_onGameTickExecuted Examples.game0 (fst Examples.opened)) = "Too far away".
Proof.
  assert (Hreach : reachable Examples.noTargets Examples.noSubscriptions
            (fst Examples.opened, snd Examples.opened))
    by (exists Examples.openedRun; reflexivity).
  split; [exact Hreach|]. split; [reflexivity|].
  destruct (spacing_unavailable_after_pull Examples.noTargets Examples.game0
              Examples.noSubscriptions (snd Examples.opened) (fst Examples.opened)
              (Examples.vehicle 10) 0%nat Hreach eq_refl)
    as (train & position & _ & _ & _ & _ & Hfirst & _ & Hlabel).
  destruct (Hlabel (Hfirst eq_refl)) as (Hnull & _ & Hshown & _).
  split; [exact Hnull | exact Hshown].
Defined.

(** The second car stood seven steps behind the first, and the store held
    7; the first car is chosen in the list, and the store holds null and the
    spinner shows the label, not 7 and not 0. *)
Lemma spacing_replaced_by_label :
  _spacing (fst Examples.secondCar) = Some 7 /\
  _selectedVehicle
    (fst (step Examples.noTargets Examples.game0 (VehicleChosen 0) Examples.secondCar))
    = Some (Examples.vehicle 10, 0%nat) /\
  _spacing
    (fst (step Examples.noTargets Examples.game0 (VehicleChosen 0) Examples.secondCar))
    = None /\
  spacing_format
    (fst (step Examples.noTargets Examples.game0 (VehicleChosen 0) Examples.secondCar))
    = "Too far away".
Proof. repeat split. Qed.

(** C9 as stated fails: the second car was selected; the trains were
    removed and the selection became null, and seats and mass are not back at
    their defaults.  And with a car selected, spinning the track progress
    spinner to 9 writes 9 to the store, which no pull from the car (at 3)
    would. *)
Lemma null_selection_resets_nothing :
  _selectedVehicle (fst Examples.secondCar) = Some (Examples.vehicle 11, 1%nat) /\
  _selectedVehicle (fst Examples.trainsRemoved) = None /\
  _seats (fst Examples.trainsRemoved) = 4 /\
  _mass (fst Examples.trainsRemoved) = 111 /\
  _seats Examples.freshModel = 0 /\
  _mass Examples.freshModel = 0 /\
  mirroredFields (fst Examples.trainsRemoved) <> mirroredFields Examples.freshModel /\
  _trackProgress
    (fst (step Examples.noTargets Examples.game0 (TrackProgressSpun 9) Examples.secondCar))
    = 9 /\
  Car.trackProgress (_car Examples.game0 (Examples.vehicle 11)) = 3.
Proof. repeat split. discriminate. Qed.

(** * More of the view model *)

Section HierarchyFacts.

Variable getTargets :
  Z -> option (ParkRide.t * nat) -> option (RideTrain.t * nat) ->
  option (RideVehicle.t * nat) -> list VehicleSpan.

(** The vehicles of a train selection and the trains of a ride selection,
    as the computed stores [_vehicles] and [_trains] take them. *)
Local Abbreviation vehiclesOf selection :=
  (match selection with
   | Some (train, _) => RideTrain._vehicles train
   | None => []
   end).

Local Abbreviation trainsOf selection :=
  (match selection with
   | Some (ride, _) => ParkRide._trains ride
   | None => []
   end).

Lemma nextSelection_position {T : Type} (previous : option (T * nat)) items item index :
  nextSelection previous items = Some (item, index) -> nth_error items index = Some item.
Proof.
  unfold nextSelection. destruct (0 <? List.length items)%nat; [|discriminate].
  match goal with |- context [nth_error items ?i] => destruct (nth_error items i) eqn:Hitem end;
    [|discriminate].
  intros H. inversion H. subst. exact Hitem.
Qed.

Lemma nextSelection_some {T : Type} (previous : option (T * nat)) (first : T) rest :
  exists item index,
    nextSelection previous (first :: rest) = Some (item, index) /\
    nth_error (first :: rest) index = Some item.
Proof.
  destruct (nextSelection previous (first :: rest)) as [[item index]|] eqn:Hnext.
  - exists item, index. split; [reflexivity|]. exact (nextSelection_position _ _ _ _ Hnext).
  - apply nextSelection_none_iff in Hnext. discriminate.
Qed.

(** What a write to [_selectedTrain] leaves behind: nothing when [null] is
    written over [null], and otherwise the vehicles of the written train with
    the vehicle selection that follows from them. *)
Lemma set_selectedTrain_cascade game selection vm :
  let vm' := set_selectedTrain getTargets game selection vm in
  (_selectedTrain vm = None /\ selection = None /\ vm' = vm) \/
  (_selectedTrain vm' = selection /\
   _vehicles vm' = vehiclesOf selection /\
   _selectedVehicle vm' = nextSelection (_selectedVehicle vm) (vehiclesOf selection)).
Proof.
  cbv zeta. unfold set_selectedTrain, notify_selectedTrain.
  destruct (_selectedTrain vm) as [old|] eqn:Hold, selection as [picked|];
    try (right;
         match goal with
         | |- context [set_vehicles getTargets game ?items ?m] =>
             destruct (set_vehicles_frame getTargets game items m) as (-> & -> & _ & -> & _)
         end; destruct vm; repeat split).
  left. repeat split.
Qed.

(** The same for a write to [_selectedRide]. *)
Lemma set_selectedRide_cascade game selection vm :
  let vm' := set_selectedRide getTargets game selection vm in
  (_selectedRide vm = None /\ selection = None /\ vm' = vm) \/
  (_selectedRide vm' = selection /\
   _trains vm' = trainsOf selection /\
   _selectedTrain vm' = nextSelection (_selectedTrain vm) (trainsOf selection)).
Proof.
  cbv zeta. unfold set_selectedRide, notify_selectedRide.
  destruct (_selectedRide vm) as [old|] eqn:Hold, selection as [picked|];
    try (right;
         match goal with
         | |- context [set_trains getTargets game ?items ?m] =>
             destruct (set_trains_frame getTargets game items m) as (-> & -> & -> & _)
         end; destruct vm; repeat split).
  left. repeat split.
Qed.

(** *** The selections point into the lists *)

Lemma set_selectedVehicle_positioned game selection vm :
  positioned vm ->
  (forall vehicle index,
     selection = Some (vehicle, index) -> nth_error (_vehicles vm) index = Some vehicle) ->
  positioned (set_selectedVehicle getTargets game selection vm).
Proof.
  intros (Hr & Ht & _ & Hvs) Hselection. unfold positioned.
  destruct (set_selectedVehicle_frame getTargets game selection vm)
    as (-> & -> & -> & -> & -> & -> & _).
  repeat split; assumption.
Qed.

Lemma set_vehicles_positioned game items vm :
  (forall ride index,
     _selectedRide vm = Some (ride, index) -> nth_error (_rides vm) index = Some ride) ->
  (forall train index,
     _selectedTrain vm = Some (train, index) -> nth_error (_trains vm) index = Some train) ->
  items = vehiclesOf (_selectedTrain vm) ->
  positioned (set_vehicles getTargets game items vm).
Proof.
  intros Hr Ht Hitems. unfold positioned.
  destruct (set_vehicles_frame getTargets game items vm)
    as (-> & -> & -> & -> & -> & -> & _).
  repeat split; try assumption.
  intros vehicle index. apply nextSelection_position.
Qed.

Lemma set_selectedTrain_positioned game selection vm :
  positioned vm ->
  (forall train index,
     selection = Some (train, index) -> nth_error (_trains vm) index = Some train) ->
  positioned (set_selectedTrain getTargets game selection vm).
Proof.
  intros Hvm Hselection.
  assert (Hnotified :
    positioned (notify_selectedTrain getTargets game (vm <| _selectedTrain := selection |>))).
  { unfold notify_selectedTrain. destruct Hvm as (Hr & _).
    apply set_vehicles_positioned; destruct vm; cbn in *; try assumption; reflexivity. }
  unfold set_selectedTrain.
  destruct (_selectedTrain vm), selection; try exact Hnotified. exact Hvm.
Qed.

Lemma set_trains_positioned game items vm :
  positioned vm -> positioned (set_trains getTargets game items vm).
Proof.
  intros (Hr & Ht & Hv & Hvs). rewrite set_trains_unfold.
  remember (nextSelection (_selectedTrain vm) items) as selection eqn:Hnext.
  assert (Hnotified :
    positioned (notify_selectedTrain getTargets game
                  (vm <| _trains := items |> <| _selectedTrain := selection |>))).
  { unfold notify_selectedTrain.
    apply set_vehicles_positioned; destruct vm; cbn in *; try assumption; try reflexivity.
    intros train index Hsome. change (selection = Some (train, index)) in Hsome.
    rewrite Hsome in Hnext. symmetry in Hnext.
    exact (nextSelection_position _ _ _ _ Hnext). }
  unfold set_selectedTrain.
  replace (_selectedTrain (vm <| _trains := items |>)) with (_selectedTrain vm)
    by (destruct vm; reflexivity).
  destruct (_selectedTrain vm) as [old|] eqn:Hold, selection as [picked|];
    try exact Hnotified.
  unfold positioned. destruct vm; cbn in *. subst. repeat split; try assumption.
  intros train index H. discriminate.
Qed.

Lemma set_selectedRide_positioned game selection vm :
  positioned vm ->
  (forall ride index,
     selection = Some (ride, index) -> nth_error (_rides vm) index = Some ride) ->
  positioned (set_selectedRide getTargets game selection vm).
Proof.
  intros Hvm Hselection.
  assert (Hnotified :
    positioned (notify_selectedRide getTargets game (vm <| _selectedRide := selection |>))).
  { unfold notify_selectedRide. apply set_trains_positioned.
    destruct Hvm as (_ & Ht & Hv & Hvs). unfold positioned.
    destruct vm; cbn in *. repeat split; assumption. }
  unfold set_selectedRide.
  destruct (_selectedRide vm), selection; try exact Hnotified. exact Hvm.
Qed.

Lemma set_rides_positioned game items vm :
  positioned vm -> positioned (set_rides getTargets game items vm).
Proof.
  intros (Hr & Ht & Hv & Hvs). rewrite set_rides_unfold.
  remember (nextSelection (_selectedRide vm) items) as selection eqn:Hnext.
  assert (Hnotified :
    positioned (notify_selectedRide getTargets game
                  (vm <| _rides := items |> <| _selectedRide := selection |>))).
  { unfold notify_selectedRide. apply set_trains_positioned. unfold positioned.
    destruct vm; cbn in *. repeat split; try assumption.
    intros ride index Hsome. change (selection = Some (ride, index)) in Hsome.
    rewrite Hsome in Hnext. symmetry in Hnext.
    exact (nextSelection_position _ _ _ _ Hnext). }
  unfold set_selectedRide.
  replace (_selectedRide (vm <| _rides := items |>)) with (_selectedRide vm)
    by (destruct vm; reflexivity).
  destruct (_selectedRide vm) as [old|] eqn:Hold, selection as [picked|];
    try exact Hnotified.
  unfold positioned. destruct vm; cbn in *. subst. repeat split; try assumption.
  intros ride index H. discriminate.
Qed.

(** *** The two loops of [_select] *)

Lemma findVehicle_found vehicles carId start vehicle v :
  findVehicle vehicles carId start = Some (vehicle, v) ->
  (start <= v)%nat /\ nth_error vehicles (v - start) = Some vehicle /\
  RideVehicle._id vehicle = carId /\
  (forall k other, (k < v - start)%nat -> nth_error vehicles k = Some other ->
     RideVehicle._id other <> carId).
Proof.
  revert start. induction vehicles as [|first rest IH]; intros start; cbn [findVehicle].
  - discriminate.
  - destruct (Z.eqb_spec (RideVehicle._id first) carId) as [Hid|Hid].
    + intros H. inversion H. subst. rewrite Nat.sub_diag.
      split; [lia|]. split; [reflexivity|]. split; [reflexivity|]. intros k other Hk. lia.
    + intros H. destruct (IH _ H) as (Hle & Hnth & Hfound & Hfirst).
      replace (v - start)%nat with (S (v - S start)) by lia.
      split; [lia|]. split; [exact Hnth|]. split; [exact Hfound|].
      intros [|k] other Hk Hother.
      * inversion Hother. subst. exact Hid.
      * apply (Hfirst k); [lia | exact Hother].
Qed.

Lemma findVehicle_none vehicles carId start :
  findVehicle vehicles carId start = None <->
  (forall other, In other vehicles -> RideVehicle._id other <> carId).
Proof.
  revert start. induction vehicles as [|first rest IH]; intros start; cbn [findVehicle].
  - split; [intros _ other []|reflexivity].
  - destruct (Z.eqb_spec (RideVehicle._id first) carId) as [Hid|Hid].
    + split; [discriminate|]. intros H. exfalso. apply (H first); [left; reflexivity | exact Hid].
    + rewrite IH. split.
      * intros H other [<-|Hin]; [exact Hid | apply H; exact Hin].
      * intros H other Hin. apply H. right. exact Hin.
Qed.

Lemma findTrain_found trains carId start train t vehicle v :
  findTrain trains carId start = Some ((train, t), (vehicle, v)) ->
  (start <= t)%nat /\ nth_error trains (t - start) = Some train /\
  nth_error (RideTrain._vehicles train) v = Some vehicle /\
  RideVehicle._id vehicle = carId /\
  (forall k other, (k < v)%nat -> nth_error (RideTrain._vehicles train) k = Some other ->
     RideVehicle._id other <> carId) /\
  (forall k earlier other, (k < t - start)%nat -> nth_error trains k = Some earlier ->
     In other (RideTrain._vehicles earlier) -> RideVehicle._id other <> carId).
Proof.
  revert start. induction trains as [|first rest IH]; intros start; cbn [findTrain].
  - discriminate.
  - destruct (findVehicle (RideTrain._vehicles first) carId 0) as [[found position]|] eqn:Hfirst.
    + intros H. inversion H. subst.
      destruct (findVehicle_found _ _ _ _ _ Hfirst) as (_ & Hnth & Hid & Hbefore).
      rewrite Nat.sub_0_r in Hnth, Hbefore. rewrite Nat.sub_diag.
      split; [lia|]. split; [reflexivity|]. split; [exact Hnth|]. split; [exact Hid|].
      split; [exact Hbefore|]. intros k earlier other Hk. lia.
    + intros H. destruct (IH _ H) as (Hle & Hnth & Hvehicle & Hid & Hbefore & Hearlier).
      replace (t - start)%nat with (S (t - S start)) by lia.
      split; [lia|]. split; [exact Hnth|]. split; [exact Hvehicle|]. split; [exact Hid|].
      split; [exact Hbefore|]. intros [|k] earlier other Hk Hnthk Hin.
      * inversion Hnthk. subst. exact (proj1 (findVehicle_none _ _ _) Hfirst other Hin).
      * apply (Hearlier k earlier other); [lia | exact Hnthk | exact Hin].
Qed.

Lemma findTrain_none trains carId start :
  findTrain trains carId start = None <->
  (forall train other, In train trains -> In other (RideTrain._vehicles train) ->
     RideVehicle._id other <> carId).
Proof.
  revert start. induction trains as [|first rest IH]; intros start; cbn [findTrain].
  - split; [intros _ train other []|reflexivity].
  - destruct (findVehicle (RideTrain._vehicles first) carId 0) as [found|] eqn:Hfirst.
    + split; [discriminate|]. intros H. exfalso.
      assert (Hnone : findVehicle (RideTrain._vehicles first) carId 0 = None).
      { apply findVehicle_none. intros other Hin. apply (H first); [left; reflexivity | exact Hin]. }
      congruence.
    + rewrite IH. split.
      * intros H train other [<-|Hin].
        -- exact (proj1 (findVehicle_none _ _ _) Hfirst other).
        -- apply H. exact Hin.
      * intros H train other Hin. apply H. right. exact Hin.
Qed.

Lemma findIndex_found {T : Type} (items : list T) predicate index :
  Helpers.findIndex items predicate = Some index ->
  (exists item, nth_error items index = Some item /\ predicate item = true) /\
  (forall k other, (k < index)%nat -> nth_error items k = Some other ->
     predicate other = false).
Proof.
  revert index. induction items as [|first rest IH]; intros index; cbn [Helpers.findIndex].
  - discriminate.
  - destruct (predicate first) eqn:Hfirst.
    + intros H. inversion H. subst. split; [exists first; split; [reflexivity | exact Hfirst]|].
      intros k other Hk. lia.
    + destruct (Helpers.findIndex rest predicate) as [found|]; [|discriminate].
      intros H. inversion H. subst. destruct (IH found eq_refl) as (Hitem & Hbefore).
      split; [exact Hitem|]. intros [|k] other Hk Hother.
      * inversion Hother. subst. exact Hfirst.
      * apply (Hbefore k); [lia | exact Hother].
Qed.

Lemma findIndex_none {T : Type} (items : list T) predicate :
  Helpers.findIndex items predicate = None <->
  (forall item, In item items -> predicate item = false).
Proof.
  induction items as [|first rest IH]; cbn [Helpers.findIndex].
  - split; [intros _ item []|reflexivity].
  - destruct (predicate first) eqn:Hfirst.
    + split; [discriminate|]. intros H. rewrite (H first) in Hfirst; [discriminate | left; reflexivity].
    + destruct (Helpers.findIndex rest predicate) as [found|].
      * split; [discriminate|]. intros H. exfalso.
        assert (Hnone : Some found = None); [|discriminate].
        apply (proj2 IH). intros item Hin. apply H. right. exact Hin.
      * split; [|reflexivity]. intros _ item [<-|Hin]; [exact Hfirst|].
        apply (proj1 IH eq_refl). exact Hin.
Qed.

Lemma findIndex_first {T : Type} (items : list T) predicate index item :
  nth_error items index = Some item -> predicate item = true ->
  (forall k other, (k < index)%nat -> nth_error items k = Some other ->
     predicate other = false) ->
  Helpers.findIndex items predicate = Some index.
Proof.
  intros Hitem Htrue Hbefore.
  destruct (Helpers.findIndex items predicate) as [found|] eqn:Hfound.
  - destruct (findIndex_found _ _ _ Hfound) as ((other & Hother & Hpredicate) & Hearlier).
    destruct (Nat.lt_trichotomy found index) as [Hlt|[->|Hgt]]; [|reflexivity|].
    + rewrite (Hbefore found other Hlt Hother) in Hpredicate. discriminate.
    + rewrite (Hearlier index item Hgt Hitem) in Htrue. discriminate.
  - rewrite (proj1 (findIndex_none _ _) Hfound item) in Htrue; [discriminate|].
    exact (nth_error_In _ _ Hitem).
Qed.

(** What [_select] leaves behind when the loops find the car. *)
Lemma select_found game car vm position ride train t vehicle v :
  Helpers.findIndex (_rides vm) (fun r => ParkRide._id r =? Car.ride car) = Some position ->
  nth_error (_rides vm) position = Some ride ->
  findTrain (ParkRide._trains ride) (Car.id car) 0 = Some ((train, t), (vehicle, v)) ->
  let vm' := _select getTargets game car vm in
  vm' = set_selectedVehicle getTargets game (Some (vehicle, v))
          (set_selectedTrain getTargets game (Some (train, t))
             (set_selectedRide getTargets game (Some (ride, position)) vm)) /\
  _selectedRide vm' = Some (ride, position) /\ _trains vm' = ParkRide._trains ride /\
  _selectedTrain vm' = Some (train, t) /\ _vehicles vm' = RideTrain._vehicles train /\
  _selectedVehicle vm' = Some (vehicle, v).
Proof.
  intros Hposition Hride Hfound. cbv zeta. unfold _select. rewrite Hposition, Hride.
  set (vm1 := set_selectedRide getTargets game (Some (ride, position)) vm).
  destruct (set_selectedRide_cascade game (Some (ride, position)) vm)
    as [(_ & Hnone & _) | (Hride1 & Htrains1 & _)]; [discriminate|].
  fold vm1 in Hride1, Htrains1. rewrite Htrains1, Hfound.
  set (vm2 := set_selectedTrain getTargets game (Some (train, t)) vm1).
  destruct (set_selectedTrain_cascade game (Some (train, t)) vm1)
    as [(_ & Hnone & _) | (Htrain2 & Hvehicles2 & _)]; [discriminate|].
  fold vm2 in Htrain2, Hvehicles2.
  destruct (set_selectedTrain_frame getTargets game (Some (train, t)) vm1)
    as (_ & Hride2 & _ & Htrains2 & _).
  fold vm2 in Hride2, Htrains2.
  destruct (set_selectedVehicle_frame getTargets game (Some (vehicle, v)) vm2)
    as (-> & -> & -> & _ & -> & -> & _).
  split; [reflexivity|]. rewrite Hride2, Htrains2, Hride1, Htrains1, Htrain2, Hvehicles2.
  repeat split.
Qed.

Lemma select_positioned game car vm :
  positioned vm -> positioned (_select getTargets game car vm).
Proof.
  intros Hvm. unfold _select.
  destruct (Helpers.findIndex _ _) as [position|]; [|exact Hvm].
  destruct (nth_error (_rides vm) position) as [ride|] eqn:Hride; [|exact Hvm].
  set (vm1 := set_selectedRide getTargets game (Some (ride, position)) vm).
  assert (H1 : positioned vm1).
  { apply set_selectedRide_positioned; [exact Hvm|].
    intros ride' index H. inversion H. subst. exact Hride. }
  destruct (findTrain (_trains vm1) (Car.id car) 0) as [[[train t] [vehicle v]]|] eqn:Hfound;
    [|exact H1].
  destruct (findTrain_found _ _ _ _ _ _ _ Hfound) as (_ & Htrain & Hvehicle & _).
  rewrite Nat.sub_0_r in Htrain.
  set (vm2 := set_selectedTrain getTargets game (Some (train, t)) vm1).
  assert (H2 : positioned vm2).
  { apply set_selectedTrain_positioned; [exact H1|].
    intros train' index H. inversion H. subst. exact Htrain. }
  apply set_selectedVehicle_positioned; [exact H2|].
  intros vehicle' index H. inversion H. subst.
  destruct (set_selectedTrain_cascade game (Some (train, t)) vm1)
    as [(_ & Hnone & _) | (_ & Hvehicles2 & _)]; [discriminate|].
  fold vm2 in Hvehicles2. rewrite Hvehicles2. exact Hvehicle.
Qed.

Lemma vehicleList_onChange_positioned game idx vm :
  positioned vm -> positioned (vehicleList_onChange getTargets game idx vm).
Proof.
  intros Hvm. unfold vehicleList_onChange.
  destruct (nth_error (_vehicles vm) idx) as [vehicle|] eqn:Hidx; [|exact Hvm].
  apply set_selectedVehicle_positioned; [exact Hvm|].
  intros vehicle' index H. inversion H. subst. exact Hidx.
Qed.

Lemma positioned_same a b :
  _selectedRide a = _selectedRide b -> _selectedTrain a = _selectedTrain b ->
  _selectedVehicle a = _selectedVehicle b -> _rides a = _rides b ->
  _trains a = _trains b -> _vehicles a = _vehicles b ->
  positioned b -> positioned a.
Proof.
  intros Hr Ht Hv Hrs Hts Hvs. unfold positioned. rewrite Hr, Ht, Hv, Hrs, Hts, Hvs. tauto.
Qed.

Lemma positioned_other a b : otherFields a = otherFields b -> positioned b -> positioned a.
Proof.
  intros H. destruct (other_parts _ _ H) as (Hr & Ht & Hv & Hrs & Hts & Hvs & _).
  apply positioned_same; assumption.
Qed.

Ltac same_positioned H :=
  match type of H with
  | positioned ?b => apply (positioned_same _ b); [destruct b; reflexivity .. | exact H]
  end.

Lemma open_positioned game types rides state :
  positioned (fst state) -> positioned (fst (_open getTargets game types rides state)).
Proof.
  destruct state as [vm context]. cbn [fst]. intros Hvm. unfold _open.
  assert (Hrides : positioned
            (set_rides getTargets game rides
               (vm <| _isOpen := Some true |> <| _rideTypes := types |>))).
  { apply set_rides_positioned. same_positioned Hvm. }
  set (vmA := set_rides getTargets game rides _) in *. clearbody vmA.
  destruct vmA as [? ? ? ? ? ? ? ? ? ? ? ? ? ? ? ? ? ? ? ? ? ? ? ? ? ? ? ? [a|] [t|]];
    cbn; exact Hrides.
Qed.

Lemma step_positioned game event state :
  positioned (fst state) -> positioned (fst (step getTargets game event state)).
Proof.
  intros Hvm. destruct event; cbn [step onModel fst].
  - apply open_positioned. exact Hvm.
  - destruct state as [vm context]. cbn [fst] in *. unfold _close. cbn [fst].
    destruct vm; exact Hvm.
  - apply select_positioned. exact Hvm.
  - destruct (_onGameTick (fst state)); [|exact Hvm].
    cbn [onModel fst]. apply (positioned_other _ _ (tick_other game _)). exact Hvm.
  - apply (positioned_other _ _ (refresh_other game id _)). exact Hvm.
  - apply set_rides_positioned. exact Hvm.
  - apply set_trains_positioned. exact Hvm.
  - apply vehicleList_onChange_positioned. exact Hvm.
  - unfold _setFilter. same_positioned Hvm.
  - unfold set_copyTargetOption.
    destruct (option =? _copyTargetOption (fst state)); [exact Hvm | same_positioned Hvm].
  - same_positioned Hvm.
  - same_positioned Hvm.
  - unfold trackProgress_twoway.
    destruct (_isEditDisabled (fst state)); [exact Hvm | same_positioned Hvm].
Qed.

Lemma run_positioned events state :
  positioned (fst state) -> positioned (fst (run getTargets events state)).
Proof.
  revert state. induction events as [|[game event] rest IH]; intros state Hvm.
  - exact Hvm.
  - cbn [run]. apply IH. apply step_positioned. exact Hvm.
Qed.

Lemma new_positioned : positioned (newVehicleViewModel getTargets).
Proof. unfold positioned. cbn. repeat split; intros ? ? H; discriminate. Qed.

Lemma run_app events more state :
  run getTargets (events ++ more) state = run getTargets more (run getTargets events state).
Proof.
  revert state. induction events as [|[game event] rest IH]; intros state; [reflexivity|].
  cbn [run app]. apply IH.
Qed.

(** X1.  In every state the view model can be in, each selection points
    into its list: the selected ride is the item of [_rides] at the selected
    position, the selected train the item of [_trains] at its position, the
    selected vehicle the item of [_vehicles] at its position, and [_vehicles]
    holds the vehicles of the selected train (none without a train). *)
Theorem selections_point_into_lists
    (context : Context.t) (state : VehicleViewModel * Context.t) :
  reachable getTargets context state ->
  let vm := fst state in
  (forall ride index,
     _selectedRide vm = Some (ride, index) -> nth_error (_rides vm) index = Some ride) /\
  (forall train index,
     _selectedTrain vm = Some (train, index) -> nth_error (_trains vm) index = Some train) /\
  (forall vehicle index,
     _selectedVehicle vm = Some (vehicle, index) ->
     nth_error (_vehicles vm) index = Some vehicle) /\
  _vehicles vm = match _selectedTrain vm with
                 | Some (train, _) => RideTrain._vehicles train
                 | None => []
                 end.
Proof.
  intros (events & ->). cbv zeta.
  exact (run_positioned events (newVehicleViewModel getTargets, context) new_positioned).
Qed.

(** X2.  The spinner "Amount of vehicles to modify" never gets a maximum
    below its minimum of 1: in every state the view model can be in, the
    maximum computed from [_vehicles] and the selected vehicle is at least 1
    and, with a vehicle selected, at most the number of vehicles of the
    train. *)
Theorem amount_maximum_in_range
    (context : Context.t) (state : VehicleViewModel * Context.t) :
  reachable getTargets context state ->
  1 <= amount_maximum (fst state) /\
  (_selectedVehicle (fst state) <> None ->
   amount_maximum (fst state) <= Z.of_nat (List.length (_vehicles (fst state)))).
Proof.
  intros (events & ->).
  destruct (run_positioned events (newVehicleViewModel getTargets, context) new_positioned)
    as (_ & _ & Hvehicle & _).
  unfold amount_maximum.
  destruct (_selectedVehicle _) as [[vehicle index]|]; [|split; [lia | intros H; contradiction]].
  assert (Hlt : (index < List.length (_vehicles (fst (run getTargets events
                    (newVehicleViewModel getTargets, context)))))%nat).
  { apply nth_error_Some. rewrite (Hvehicle vehicle index eq_refl). discriminate. }
  split; [lia | intros _; lia].
Qed.

(** *** Pulls while the window is open, and none while it is not *)

Lemma set_selectedVehicle_pull game vehicle index vm :
  JS.truthy (_isOpen vm) = true ->
  mirroredFields (set_selectedVehicle getTargets game (Some (vehicle, index)) vm)
    = mirroredFields (_updateVehicleInfo game vehicle index vm).
Proof.
  intros Hopen. unfold set_selectedVehicle, notify_selectedVehicle.
  destruct vm; cbn in *; rewrite Hopen;
    destruct _selectedVehicle0; unfold _updateVehicleInfo, _updateDynamicDataFromCar; cbn;
    destruct _selectedTrain0 as [[train position]|]; reflexivity.
Qed.

Lemma set_selectedVehicle_closed game selection vm :
  JS.truthy (_isOpen vm) = false ->
  mirroredFields (set_selectedVehicle getTargets game selection vm) = mirroredFields vm.
Proof.
  intros Hclosed. unfold set_selectedVehicle, notify_selectedVehicle.
  destruct vm; cbn in *; rewrite Hclosed;
    destruct _selectedVehicle0, selection as [[vehicle index]|]; reflexivity.
Qed.

Lemma set_vehicles_closed game items vm :
  JS.truthy (_isOpen vm) = false ->
  mirroredFields (set_vehicles getTargets game items vm) = mirroredFields vm.
Proof.
  intros Hclosed. rewrite set_vehicles_unfold, set_selectedVehicle_closed;
    destruct vm; [reflexivity | exact Hclosed].
Qed.

Lemma set_selectedTrain_closed game selection vm :
  JS.truthy (_isOpen vm) = false ->
  mirroredFields (set_selectedTrain getTargets game selection vm) = mirroredFields vm.
Proof.
  intros Hclosed. unfold set_selectedTrain, notify_selectedTrain.
  destruct (_selectedTrain vm), selection;
    try (rewrite set_vehicles_closed; destruct vm; [reflexivity | exact Hclosed]).
  reflexivity.
Qed.

Lemma set_trains_closed game items vm :
  JS.truthy (_isOpen vm) = false ->
  mirroredFields (set_trains getTargets game items vm) = mirroredFields vm.
Proof.
  intros Hclosed. rewrite set_trains_unfold, set_selectedTrain_closed;
    destruct vm; [reflexivity | exact Hclosed].
Qed.

Lemma set_selectedRide_closed game selection vm :
  JS.truthy (_isOpen vm) = false ->
  mirroredFields (set_selectedRide getTargets game selection vm) = mirroredFields vm.
Proof.
  intros Hclosed. unfold set_selectedRide, notify_selectedRide.
  destruct (_selectedRide vm), selection;
    try (rewrite set_trains_closed; destruct vm; [reflexivity | exact Hclosed]).
  reflexivity.
Qed.

Lemma set_rides_closed game items vm :
  JS.truthy (_isOpen vm) = false ->
  mirroredFields (set_rides getTargets game items vm) = mirroredFields vm.
Proof.
  intros Hclosed. rewrite set_rides_unfold, set_selectedRide_closed;
    destruct vm; [reflexivity | exact Hclosed].
Qed.

Lemma fixed_open a b : fixedFields a = fixedFields b -> _isOpen a = _isOpen b.
Proof. intros H. destruct (fixed_parts _ _ H) as (_ & _ & _ & Ho & _). exact Ho. Qed.

Lemma select_closed game car vm :
  JS.truthy (_isOpen vm) = false ->
  mirroredFields (_select getTargets game car vm) = mirroredFields vm.
Proof.
  intros Hclosed. unfold _select.
  destruct (Helpers.findIndex _ _) as [position|]; [|reflexivity].
  destruct (nth_error _ _) as [ride|]; [|reflexivity].
  set (vm1 := set_selectedRide getTargets game (Some (ride, position)) vm).
  assert (H1 : mirroredFields vm1 = mirroredFields vm) by (apply set_selectedRide_closed, Hclosed).
  assert (Hopen1 : _isOpen vm1 = _isOpen vm) by apply fixed_open, set_selectedRide_frame.
  destruct (findTrain (_trains vm1) (Car.id car) 0) as [[train vehicle]|]; [|exact H1].
  set (vm2 := set_selectedTrain getTargets game (Some train) vm1).
  assert (Hopen2 : _isOpen vm2 = _isOpen vm1) by apply fixed_open, set_selectedTrain_frame.
  rewrite set_selectedVehicle_closed by (rewrite Hopen2, Hopen1; exact Hclosed).
  unfold vm2. rewrite set_selectedTrain_closed by (rewrite Hopen1; exact Hclosed).
  exact H1.
Qed.

(** Every event but the opening and the closing of the window leaves the
    flag [_isOpen] as it is. *)
Lemma step_open_flag game event state :
  match event with
  | WindowOpened _ _ | WindowClosed => True
  | _ => _isOpen (fst (step getTargets game event state)) = _isOpen (fst state)
  end.
Proof.
  destruct state as [vm context].
  destruct event; cbn [step onModel fst snd]; try exact I.
  - apply fixed_open, select_fixed.
  - destruct (_onGameTick vm); cbn [onModel fst]; [|reflexivity].
    destruct (other_parts _ _ (tick_other game vm)) as (_ & _ & _ & _ & _ & _ & _ & Hf).
    apply fixed_open, Hf.
  - destruct (other_parts _ _ (refresh_other game id vm)) as (_ & _ & _ & _ & _ & _ & _ & Hf).
    apply fixed_open, Hf.
  - apply fixed_open, set_rides_frame.
  - apply fixed_open, set_trains_frame.
  - unfold vehicleList_onChange.
    destruct (nth_error (_vehicles vm) idx) as [vehicle|]; [|reflexivity].
    apply fixed_open, set_selectedVehicle_frame.
  - destruct vm; reflexivity.
  - unfold set_copyTargetOption.
    destruct (option =? _copyTargetOption vm); destruct vm; reflexivity.
  - destruct vm; reflexivity.
  - destruct vm; reflexivity.
  - unfold trackProgress_twoway.
    destruct (_isEditDisabled vm); destruct vm; reflexivity.
Qed.

Lemma open_flag game types rides state :
  _isOpen (fst (_open getTargets game types rides state)) = Some true /\
  _rideTypes (fst (_open getTargets game types rides state)) = types.
Proof.
  destruct state as [vm context]. unfold _open.
  set (vm0 := vm <| _isOpen := Some true |> <| _rideTypes := types |>).
  destruct (fixed_parts _ _ (proj2 (proj2 (set_rides_frame getTargets game rides vm0))))
    as (Htypes & _ & _ & Hopen & _).
  set (vmA := set_rides getTargets game rides vm0) in *.
  assert (Hflag : _isOpen vmA = Some true) by (rewrite Hopen; destruct vm; reflexivity).
  assert (Hlist : _rideTypes vmA = types) by (rewrite Htypes; destruct vm; reflexivity).
  clearbody vmA. clear Hopen Htypes.
  destruct vmA as [? ? ? ? ? ? ? ? ? ? ? ? ? ? ? ? ? ? ? ? ? ? ? ? ? ? ? ? [a|] [t|]];
    cbn in *; split; assumption.
Qed.

Lemma step_listens game event state :
  listensOnlyWhenOpen (fst state) ->
  listensOnlyWhenOpen (fst (step getTargets game event state)).
Proof.
  intros Hvm. unfold listensOnlyWhenOpen.
  pose proof (step_open_flag game event state) as Hflag.
  pose proof (step_handles getTargets game event state) as Hhandles.
  destruct event;
    try (destruct Hhandles as (-> & -> & _); rewrite Hflag; exact Hvm).
  - cbn [step]. rewrite (proj1 (open_flag game allRideTypes allRides state)). discriminate.
  - destruct state as [vm context]. intros _. split; reflexivity.
Qed.

Lemma run_listens events state :
  listensOnlyWhenOpen (fst state) ->
  listensOnlyWhenOpen (fst (run getTargets events state)).
Proof.
  revert state. induction events as [|[game event] rest IH]; intros state Hvm.
  - exact Hvm.
  - cbn [run]. apply IH. apply step_listens. exact Hvm.
Qed.

(** X3.  While the window is not open the mirror stands still: in a state
    the view model can be in with [_isOpen] not true, no event but the
    opening of the window and the spinning of the track progress spinner
    changes any of the fifteen mirrored stores - selections may change, the
    refresh callback and the game tick pull nothing. *)
Theorem closed_window_pulls_nothing
    (context : Context.t) (state : VehicleViewModel * Context.t)
    (game : Game) (event : Event) :
  reachable getTargets context state ->
  JS.truthy (_isOpen (fst state)) = false ->
  (forall types rides, event <> WindowOpened types rides) ->
  (forall value, event <> TrackProgressSpun value) ->
  mirroredFields (fst (step getTargets game event state)) = mirroredFields (fst state).
Proof.
  intros (events & ->) Hclosed Hopened Hspun.
  set (state := run getTargets events (newVehicleViewModel getTargets, context)) in *.
  assert (Hlistens : listensOnlyWhenOpen (fst state)).
  { apply run_listens. intros _. split; reflexivity. }
  destruct (Hlistens Hclosed) as (_ & Htick).
  destruct event; cbn [step onModel fst].
  - exfalso. exact (Hopened _ _ eq_refl).
  - destruct state as [vm c]. cbn. destruct vm; reflexivity.
  - apply select_closed, Hclosed.
  - rewrite Htick. reflexivity.
  - unfold onRefreshVehicle. rewrite Hclosed. reflexivity.
  - apply set_rides_closed, Hclosed.
  - apply set_trains_closed, Hclosed.
  - unfold vehicleList_onChange.
    destruct (nth_error _ idx) as [vehicle|]; [|reflexivity].
    apply set_selectedVehicle_closed, Hclosed.
  - destruct (fst state); reflexivity.
  - unfold set_copyTargetOption.
    destruct (option =? _); destruct (fst state); reflexivity.
  - destruct (fst state); reflexivity.
  - destruct (fst state); reflexivity.
  - exfalso. exact (Hspun _ eq_refl).
Qed.

Lemma updateVehicleInfo_mirror game vehicle index vm train t :
  _selectedTrain vm = Some (train, t) ->
  mirroredFields (_updateVehicleInfo game vehicle index vm)
    = pulledFields game (_rideTypes vm) train vehicle index.
Proof.
  intros Htrain. unfold _updateVehicleInfo, _updateDynamicDataFromCar.
  destruct vm; cbn in *. rewrite Htrain. reflexivity.
Qed.

(** A write of a train to [_selectedTrain] while the window is open ends
    with a pull of the vehicle that gets selected. *)
Lemma set_selectedTrain_pull game train t vm :
  JS.truthy (_isOpen vm) = true ->
  let vm' := set_selectedTrain getTargets game (Some (train, t)) vm in
  exists vehicle v,
    _selectedVehicle vm' = Some (vehicle, v) /\
    nth_error (RideTrain._vehicles train) v = Some vehicle /\
    mirroredFields vm' = pulledFields game (_rideTypes vm) train vehicle v.
Proof.
  intros Hopen. cbv zeta.
  destruct (nextSelection_some (_selectedVehicle vm) (RideTrain._head train)
              (RideTrain._rest train)) as (vehicle & v & Hnext & Hnth).
  exists vehicle, v.
  assert (Hnotified :
    let vm' := notify_selectedTrain getTargets game (vm <| _selectedTrain := Some (train, t) |>) in
    _selectedVehicle vm' = Some (vehicle, v) /\
    nth_error (RideTrain._vehicles train) v = Some vehicle /\
    mirroredFields vm' = pulledFields game (_rideTypes vm) train vehicle v).
  { cbv zeta. unfold notify_selectedTrain.
    replace (_selectedTrain (vm <| _selectedTrain := Some (train, t) |>))
      with (Some (train, t)) by (destruct vm; reflexivity).
    set (vm1 := vm <| _selectedTrain := Some (train, t) |>).
    split; [|split; [exact Hnth|]].
    - destruct (set_vehicles_frame getTargets game (RideTrain._vehicles train) vm1)
        as (_ & -> & _).
      replace (_selectedVehicle vm1) with (_selectedVehicle vm) by (destruct vm; reflexivity).
      exact Hnext.
    - rewrite set_vehicles_unfold.
      replace (_selectedVehicle vm1) with (_selectedVehicle vm) by (destruct vm; reflexivity).
      unfold RideTrain._vehicles at 1. rewrite Hnext.
      rewrite set_selectedVehicle_pull by (destruct vm; exact Hopen).
      rewrite (updateVehicleInfo_mirror game vehicle v _ train t) by (destruct vm; reflexivity).
      destruct vm; reflexivity. }
  unfold set_selectedTrain. destruct (_selectedTrain vm); exact Hnotified.
Qed.

(** The result of a write to [_trains] in a state where no train without
    vehicles is selected: either no train is selected afterwards and no
    vehicle either, or a train and one of its vehicles are selected and, the
    window being open, that vehicle was pulled. *)
Lemma set_trains_pull game items vm :
  JS.truthy (_isOpen vm) = true ->
  (_selectedTrain vm = None -> _vehicles vm = [] /\ _selectedVehicle vm = None) ->
  let vm' := set_trains getTargets game items vm in
  _trains vm' = items /\
  match items with
  | [] => _selectedTrain vm' = None /\ _selectedVehicle vm' = None /\ _vehicles vm' = []
  | _ :: _ =>
      exists train t vehicle v,
        _selectedTrain vm' = Some (train, t) /\ nth_error items t = Some train /\
        _vehicles vm' = RideTrain._vehicles train /\
        _selectedVehicle vm' = Some (vehicle, v) /\
        nth_error (RideTrain._vehicles train) v = Some vehicle /\
        mirroredFields vm' = pulledFields game (_rideTypes vm) train vehicle v
  end.
Proof.
  intros Hopen Hpre. cbv zeta.
  split; [apply set_trains_frame|].
  rewrite set_trains_unfold. set (vm1 := vm <| _trains := items |>).
  assert (Hopen1 : JS.truthy (_isOpen vm1) = true) by (destruct vm; exact Hopen).
  assert (Htypes1 : _rideTypes vm1 = _rideTypes vm) by (destruct vm; reflexivity).
  destruct items as [|first rest].
  - change (nextSelection (_selectedTrain vm) []) with (@None (RideTrain.t * nat)).
    destruct (set_selectedTrain_cascade game None vm1)
      as [(Hnone & _ & ->) | (-> & -> & ->)].
    + destruct (Hpre ltac:(destruct vm; exact Hnone)) as (Hvehicles & Hvehicle).
      destruct vm; repeat split; assumption.
    + repeat split.
  - destruct (nextSelection_some (_selectedTrain vm) first rest) as (train & t & -> & Hnth).
    destruct (set_selectedTrain_pull game train t vm1 Hopen1) as (vehicle & v & Hv & Hvnth & Hm).
    destruct (set_selectedTrain_cascade game (Some (train, t)) vm1)
      as [(_ & Hnone & _) | (Ht & Hvs & _)]; [discriminate|].
    exists train, t, vehicle, v. rewrite <- Htypes1. repeat split; assumption.
Qed.

Lemma set_selectedRide_pull game ride position vm :
  JS.truthy (_isOpen vm) = true ->
  (_selectedTrain vm = None -> _vehicles vm = [] /\ _selectedVehicle vm = None) ->
  let vm' := set_selectedRide getTargets game (Some (ride, position)) vm in
  _selectedRide vm' = Some (ride, position) /\ _rides vm' = _rides vm /\
  _trains vm' = ParkRide._trains ride /\
  match ParkRide._trains ride with
  | [] => _selectedTrain vm' = None /\ _selectedVehicle vm' = None /\ _vehicles vm' = []
  | _ :: _ =>
      exists train t vehicle v,
        _selectedTrain vm' = Some (train, t) /\
        nth_error (ParkRide._trains ride) t = Some train /\
        _vehicles vm' = RideTrain._vehicles train /\
        _selectedVehicle vm' = Some (vehicle, v) /\
        nth_error (RideTrain._vehicles train) v = Some vehicle /\
        mirroredFields vm' = pulledFields game (_rideTypes vm) train vehicle v
  end.
Proof.
  intros Hopen Hpre. cbv zeta.
  destruct (set_selectedRide_frame getTargets game (Some (ride, position)) vm) as (-> & -> & _).
  split; [reflexivity|]. split; [reflexivity|].
  assert (Hnotified :
    set_selectedRide getTargets game (Some (ride, position)) vm
      = set_trains getTargets game (ParkRide._trains ride)
          (vm <| _selectedRide := Some (ride, position) |>)).
  { unfold set_selectedRide, notify_selectedRide.
    destruct (_selectedRide vm); destruct vm; reflexivity. }
  rewrite Hnotified.
  set (vm1 := vm <| _selectedRide := Some (ride, position) |>).
  replace (_rideTypes vm) with (_rideTypes vm1) by (destruct vm; reflexivity).
  apply set_trains_pull; destruct vm; assumption.
Qed.

(** The handles apart, the view model [_open] leaves behind is the one
    its write to [_rides] leaves behind. *)
Lemma open_hierarchy game types rides vm context :
  let vmA := set_rides getTargets game rides
               (vm <| _isOpen := Some true |> <| _rideTypes := types |>) in
  let vm' := fst (_open getTargets game types rides (vm, context)) in
  mirroredFields vm' = mirroredFields vmA /\
  _selectedRide vm' = _selectedRide vmA /\ _selectedTrain vm' = _selectedTrain vmA /\
  _selectedVehicle vm' = _selectedVehicle vmA /\
  _rides vm' = _rides vmA /\ _trains vm' = _trains vmA /\ _vehicles vm' = _vehicles vmA.
Proof.
  cbv zeta. unfold _open.
  set (vmA := set_rides getTargets game rides _). clearbody vmA.
  destruct vmA as [? ? ? ? ? ? ? ? ? ? ? ? ? ? ? ? ? ? ? ? ? ? ? ? ? ? ? ? [a|] [t|]];
    cbn; repeat split.
Qed.

(** X4.  Opening the window on a park with rides always ends with a ride
    selected, at a position of the list of rides; [_trains] holds its trains.
    If that ride has no trains, no train and no vehicle is selected.  If it
    has trains, one of them is selected together with one of its vehicles,
    and the fifteen mirrored stores hold what that vehicle's car shows at
    that moment. *)
Theorem open_selects_and_pulls
    (before : Context.t) (state : VehicleViewModel * Context.t) (game : Game)
    (types : list RideType.t) (first : ParkRide.t) (rest : list ParkRide.t) :
  reachable getTargets before state ->
  let vm' := fst (_open getTargets game types (first :: rest) state) in
  _isOpen vm' = Some true /\ _rideTypes vm' = types /\ _rides vm' = first :: rest /\
  exists ride position,
    _selectedRide vm' = Some (ride, position) /\
    nth_error (first :: rest) position = Some ride /\
    _trains vm' = ParkRide._trains ride /\
    match ParkRide._trains ride with
    | [] => _selectedTrain vm' = None /\ _selectedVehicle vm' = None /\ _vehicles vm' = []
    | _ :: _ =>
        exists train t vehicle v,
          _selectedTrain vm' = Some (train, t) /\
          nth_error (ParkRide._trains ride) t = Some train /\
          _vehicles vm' = RideTrain._vehicles train /\
          _selectedVehicle vm' = Some (vehicle, v) /\
          nth_error (RideTrain._vehicles train) v = Some vehicle /\
          mirroredFields vm' = pulledFields game types train vehicle v
    end.
Proof.
  intros Hreachable. cbv zeta.
  pose proof (reachable_consistent getTargets before state Hreachable) as (Hpre & _).
  destruct state as [vm context]. cbn [fst] in Hpre.
  destruct (open_flag game types (first :: rest) (vm, context)) as (-> & ->).
  split; [reflexivity|]. split; [reflexivity|].
  destruct (open_hierarchy game types (first :: rest) vm context)
    as (-> & -> & -> & -> & -> & -> & ->).
  rewrite set_rides_unfold.
  set (vm0 := vm <| _isOpen := Some true |> <| _rideTypes := types |>).
  destruct (nextSelection_some (_selectedRide vm0) first rest) as (ride & position & -> & Hnth).
  set (vm1 := vm0 <| _rides := first :: rest |>).
  assert (Hopen1 : JS.truthy (_isOpen vm1) = true) by (destruct vm; reflexivity).
  assert (Hpre1 : _selectedTrain vm1 = None -> _vehicles vm1 = [] /\ _selectedVehicle vm1 = None)
    by (destruct vm; exact Hpre).
  destruct (set_selectedRide_pull game ride position vm1 Hopen1 Hpre1)
    as (Hride & Hrides & Htrains & Hrest).
  split; [rewrite Hrides; destruct vm; reflexivity|].
  exists ride, position. split; [exact Hride|]. split; [exact Hnth|]. split; [exact Htrains|].
  replace (_rideTypes vm1) with types in Hrest by (destruct vm; reflexivity).
  exact Hrest.
Qed.

(** X5.  [_select] finds the car: when [ride] is the first ride of
    [_rides] with the ride id of the car and one of its trains carries a
    vehicle with the id of the car, then afterwards that ride is selected at
    its position, [_trains] holds its trains, a train of the ride and a
    vehicle of that train are selected at their positions, the selected
    vehicle has the id of the car and is the first such vehicle of the first
    such train, and, the window being open, the mirrored stores hold what the
    car of that vehicle shows. *)
Theorem select_finds_car
    (game : Game) (car : Car.t) (vm : VehicleViewModel)
    (position : nat) (ride : ParkRide.t) (train : RideTrain.t) (vehicle : RideVehicle.t) :
  nth_error (_rides vm) position = Some ride ->
  ParkRide._id ride = Car.ride car ->
  (forall k other, (k < position)%nat -> nth_error (_rides vm) k = Some other ->
     ParkRide._id other <> Car.ride car) ->
  In train (ParkRide._trains ride) ->
  In vehicle (RideTrain._vehicles train) ->
  RideVehicle._id vehicle = Car.id car ->
  let vm' := _select getTargets game car vm in
  exists found t selected v,
    _selectedRide vm' = Some (ride, position) /\
    _trains vm' = ParkRide._trains ride /\
    _selectedTrain vm' = Some (found, t) /\
    nth_error (ParkRide._trains ride) t = Some found /\
    _vehicles vm' = RideTrain._vehicles found /\
    _selectedVehicle vm' = Some (selected, v) /\
    nth_error (RideTrain._vehicles found) v = Some selected /\
    RideVehicle._id selected = Car.id car /\
    (forall k other, (k < v)%nat -> nth_error (RideTrain._vehicles found) k = Some other ->
       RideVehicle._id other <> Car.id car) /\
    (forall k earlier other, (k < t)%nat -> nth_error (ParkRide._trains ride) k = Some earlier ->
       In other (RideTrain._vehicles earlier) -> RideVehicle._id other <> Car.id car) /\
    (JS.truthy (_isOpen vm) = true ->
     mirroredFields vm' = pulledFields game (_rideTypes vm) found selected v).
Proof.
  intros Hride Hid Hfirst Htrain Hvehicle Hcar. cbv zeta.
  assert (Hposition :
    Helpers.findIndex (_rides vm) (fun r => ParkRide._id r =? Car.ride car) = Some position).
  { apply (findIndex_first _ _ _ ride Hride).
    - apply Z.eqb_eq, Hid.
    - intros k other Hk Hother. apply Z.eqb_neq. exact (Hfirst k other Hk Hother). }
  destruct (findTrain (ParkRide._trains ride) (Car.id car) 0)
    as [[[found t] [selected v]]|] eqn:Hfound.
  2:{ exfalso. exact (proj1 (findTrain_none _ _ _) Hfound train vehicle Htrain Hvehicle Hcar). }
  destruct (findTrain_found _ _ _ _ _ _ _ Hfound)
    as (_ & Hnth & Hselected & Hsame & Hbefore & Hearlier).
  rewrite Nat.sub_0_r in Hnth, Hearlier.
  destruct (select_found game car vm position ride found t selected v Hposition Hride Hfound)
    as (Hresult & Hr & Hts & Ht & Hvs & Hv).
  exists found, t, selected, v.
  repeat (split; [assumption|]).
  intros Hopen. rewrite Hresult.
  set (vm1 := set_selectedRide getTargets game (Some (ride, position)) vm).
  set (vm2 := set_selectedTrain getTargets game (Some (found, t)) vm1).
  assert (Hf1 : fixedFields vm1 = fixedFields vm) by apply set_selectedRide_frame.
  assert (Hf2 : fixedFields vm2 = fixedFields vm1) by apply set_selectedTrain_frame.
  destruct (fixed_parts _ _ Hf1) as (Htypes1 & _ & _ & Hopen1 & _).
  destruct (fixed_parts _ _ Hf2) as (Htypes2 & _ & _ & Hopen2 & _).
  rewrite set_selectedVehicle_pull by (rewrite Hopen2, Hopen1; exact Hopen).
  rewrite (updateVehicleInfo_mirror game selected v vm2 found t)
    by apply set_selectedTrain_frame.
  rewrite Htypes2, Htypes1. reflexivity.
Qed.

(** X6.  [_select] without a match: when no ride of [_rides] has the ride
    id of the car nothing changes at all; when the first ride with that id
    carries no vehicle with the id of the car, only that ride is selected -
    [_trains] holds its trains and the train selection follows from the one
    held before - and the vehicle that was asked for is not selected. *)
Theorem select_without_match (game : Game) (car : Car.t) (vm : VehicleViewModel) :
  ((forall ride, In ride (_rides vm) -> ParkRide._id ride <> Car.ride car) ->
   _select getTargets game car vm = vm) /\
  (forall position ride,
     nth_error (_rides vm) position = Some ride ->
     ParkRide._id ride = Car.ride car ->
     (forall k other, (k < position)%nat -> nth_error (_rides vm) k = Some other ->
        ParkRide._id other <> Car.ride car) ->
     (forall train vehicle, In train (ParkRide._trains ride) ->
        In vehicle (RideTrain._vehicles train) -> RideVehicle._id vehicle <> Car.id car) ->
     let vm' := _select getTargets game car vm in
     vm' = set_selectedRide getTargets game (Some (ride, position)) vm /\
     _selectedRide vm' = Some (ride, position) /\
     _trains vm' = ParkRide._trains ride /\
     _selectedTrain vm' = nextSelection (_selectedTrain vm) (ParkRide._trains ride) /\
     (forall vehicle index, _selectedVehicle vm' = Some (vehicle, index) ->
        positioned vm -> RideVehicle._id vehicle <> Car.id car)).
Proof.
  split.
  - intros Hnone. unfold _select.
    assert (Hfind : Helpers.findIndex (_rides vm) (fun r => ParkRide._id r =? Car.ride car) = None).
    { apply findIndex_none. intros ride Hin. apply Z.eqb_neq, Hnone, Hin. }
    rewrite Hfind. reflexivity.
  - intros position ride Hride Hid Hfirst Habsent. cbv zeta.
    assert (Hposition :
      Helpers.findIndex (_rides vm) (fun r => ParkRide._id r =? Car.ride car) = Some position).
    { apply (findIndex_first _ _ _ ride Hride).
      - apply Z.eqb_eq, Hid.
      - intros k other Hk Hother. apply Z.eqb_neq. exact (Hfirst k other Hk Hother). }
    assert (Hresult : _select getTargets game car vm
                      = set_selectedRide getTargets game (Some (ride, position)) vm).
    { unfold _select. rewrite Hposition, Hride.
      destruct (set_selectedRide_cascade game (Some (ride, position)) vm)
        as [(_ & Hnone & _) | (_ & -> & _)]; [discriminate|].
      rewrite (proj2 (findTrain_none _ _ _) Habsent). reflexivity. }
    rewrite Hresult. split; [reflexivity|].
    destruct (set_selectedRide_cascade game (Some (ride, position)) vm)
      as [(_ & Hnone & _) | (Hr & Hts & Ht)]; [discriminate|].
    repeat (split; [assumption|]).
    intros vehicle index Hselected Hvm.
    assert (Hafter : positioned (set_selectedRide getTargets game (Some (ride, position)) vm)).
    { apply set_selectedRide_positioned; [exact Hvm|].
      intros ride' index' H. inversion H. subst. exact Hride. }
    destruct Hafter as (_ & Htrain & Hvehicle & Hvehicles).
    apply Hvehicle in Hselected. rewrite Hvehicles in Hselected.
    destruct (_selectedTrain (set_selectedRide getTargets game (Some (ride, position)) vm))
      as [[train t]|] eqn:Hselection; [|destruct index; discriminate].
    apply (Habsent train vehicle).
    + apply nth_error_In with t. rewrite <- Hts. apply Htrain. reflexivity.
    + exact (nth_error_In _ _ Hselected).
Qed.

(** *** Executed player actions *)

Lemma find_found {T : Type} (items : list T) predicate item :
  ArrayHelper.find items predicate = Some item -> In item items /\ predicate item = true.
Proof.
  induction items as [|first rest IH]; cbn [ArrayHelper.find]; [discriminate|].
  destruct (predicate first) eqn:Hfirst.
  - intros H. inversion H. subst. split; [left; reflexivity | exact Hfirst].
  - intros H. destruct (IH H) as (Hin & Htrue). split; [right; exact Hin | exact Htrue].
Qed.

Lemma find_none {T : Type} (items : list T) predicate :
  ArrayHelper.find items predicate = None <->
  (forall item, In item items -> predicate item = false).
Proof.
  induction items as [|first rest IH]; cbn [ArrayHelper.find].
  - split; [intros _ item []|reflexivity].
  - destruct (predicate first) eqn:Hfirst.
    + split; [discriminate|]. intros H. rewrite (H first) in Hfirst; [discriminate | left; reflexivity].
    + rewrite IH. split.
      * intros H item [<-|Hin]; [exact Hfirst | apply H; exact Hin].
      * intros H item Hin. apply H. right. exact Hin.
Qed.

(** The handler writes to one store at most. *)
Lemma playerAction_cases game answers event vm :
  let vm' := _onPlayerActionExecuted getTargets game answers event vm in
  vm' = vm \/
  vm' = set_rides getTargets game (PlayerAction.getAllRides answers) vm \/
  exists trains, vm' = set_trains getTargets game trains vm.
Proof.
  cbv zeta. unfold _onPlayerActionExecuted.
  destruct (PlayerAction.isClientOnly event); [left; reflexivity|].
  destruct (existsb _ _); [right; left; reflexivity|].
  destruct (String.eqb _ _); [|left; reflexivity].
  destruct (ArrayHelper.find _ _) as [ride|]; [|left; reflexivity].
  destruct (_selectedRide vm) as [[selected position]|]; [|left; reflexivity].
  destruct (ParkRide._id selected =? _); [|left; reflexivity].
  destruct (_ && _); [right; right; eexists; reflexivity|].
  destruct (_ || _); [right; right; eexists; reflexivity | left; reflexivity].
Qed.

(** X7.  The handler of executed player actions changes nothing for an
    action that only happened on this client, for an action other than the
    creation, demolition, renaming or status change of a ride, for a status
    change of a ride that is not in [_rides] or is not the selected ride, and
    for a status change of the selected ride after which the ride and the
    selected train still exist. *)
Theorem playerAction_ignored
    (game : Game) (answers : PlayerAction.Answers)
    (event : PlayerAction.GameActionEventArgs) (vm : VehicleViewModel) :
  let vm' := _onPlayerActionExecuted getTargets game answers event vm in
  let action := PlayerAction.action event in
  (PlayerAction.isClientOnly event = true -> vm' = vm) /\
  (~ In action [ "ridecreate"; "ridedemolish"; "ridesetname"; "ridesetstatus" ] -> vm' = vm) /\
  (action = "ridesetstatus" ->
   (forall ride, In ride (_rides vm) -> ParkRide._id ride <> PlayerAction.args_ride event) ->
   vm' = vm) /\
  (action = "ridesetstatus" ->
   (forall selected position, _selectedRide vm = Some (selected, position) ->
      ParkRide._id selected <> PlayerAction.args_ride event) ->
   vm' = vm) /\
  (action = "ridesetstatus" ->
   forall train t, _selectedTrain vm = Some (train, t) ->
   (forall ride, In ride (_rides vm) -> PlayerAction.ride_refresh answers ride = true) ->
   PlayerAction.train_refresh answers train = true ->
   vm' = vm).
Proof.
  cbv zeta. unfold _onPlayerActionExecuted.
  split; [intros ->; reflexivity|].
  destruct (PlayerAction.isClientOnly event); [repeat split; reflexivity|].
  split.
  - intros Hother.
    destruct (existsb _ _) eqn:Hthree.
    + exfalso. apply Hother. apply existsb_exists in Hthree.
      destruct Hthree as (name & Hin & Heq). apply String.eqb_eq in Heq. subst name.
      cbn in Hin |- *. tauto.
    + destruct (String.eqb_spec (PlayerAction.action event) "ridesetstatus") as [Heq|];
        [|reflexivity].
      exfalso. apply Hother. rewrite Heq. cbn. tauto.
  - split; [|split].
    + intros -> Habsent. cbn [existsb String.eqb Ascii.eqb Bool.eqb orb].
      rewrite (proj2 (find_none _ _)); [reflexivity|].
      intros ride Hin. apply Z.eqb_neq, Habsent, Hin.
    + intros -> Hother. cbn [existsb String.eqb Ascii.eqb Bool.eqb orb].
      destruct (ArrayHelper.find _ _) as [ride|]; [|reflexivity].
      destruct (_selectedRide vm) as [[selected position]|]; [|reflexivity].
      rewrite (proj2 (Z.eqb_neq _ _) (Hother selected position eq_refl)). reflexivity.
    + intros -> train t Htrain Hrides Hexists.
      cbn [existsb String.eqb Ascii.eqb Bool.eqb orb].
      destruct (ArrayHelper.find _ _) as [ride|] eqn:Hfind; [|reflexivity].
      destruct (_selectedRide vm) as [[selected position]|]; [|reflexivity].
      destruct (ParkRide._id selected =? _); [|reflexivity].
      rewrite Htrain, Hexists, (Hrides ride (proj1 (find_found _ _ _ Hfind))). reflexivity.
Qed.

Lemma listens_new : listensOnlyWhenOpen (newVehicleViewModel getTargets).
Proof. intros _. split; reflexivity. Qed.

Lemma reachable_listens context state :
  reachable getTargets context state -> listensOnlyWhenOpen (fst state).
Proof.
  intros (events & ->).
  exact (run_listens events (newVehicleViewModel getTargets, context) listens_new).
Qed.

Lemma reachable_positioned context state :
  reachable getTargets context state -> positioned (fst state).
Proof.
  intros (events & ->).
  exact (run_positioned events (newVehicleViewModel getTargets, context) new_positioned).
Qed.

(** The ride [find] gives for the id of the selected ride. *)
Lemma find_selected vm selected position :
  positioned vm -> _selectedRide vm = Some (selected, position) ->
  exists ride,
    ArrayHelper.find (_rides vm) (fun r => ParkRide._id r =? ParkRide._id selected) = Some ride /\
    In ride (_rides vm) /\ ParkRide._id ride = ParkRide._id selected.
Proof.
  intros (Hride & _) Hselected.
  destruct (ArrayHelper.find _ _) as [ride|] eqn:Hfind.
  - exists ride. destruct (find_found _ _ _ Hfind) as (Hin & Hid).
    split; [reflexivity|]. split; [exact Hin | apply Z.eqb_eq, Hid].
  - exfalso.
    pose proof (proj1 (find_none _ _) Hfind selected
                  (nth_error_In _ _ (Hride _ _ Hselected))) as Hfalse.
    cbn beta in Hfalse. rewrite Z.eqb_refl in Hfalse. discriminate.
Qed.

(** X8.  When the status of the selected ride changes and the ride is gone,
    or the selected train is gone, the handler empties [_trains]: afterwards
    no train and no vehicle is selected and [_vehicles] is empty, while the
    ride stays selected and the fifteen mirrored stores keep what they
    hold. *)
Theorem playerAction_trains_removed
    (before : Context.t) (state : VehicleViewModel * Context.t)
    (game : Game) (answers : PlayerAction.Answers)
    (event : PlayerAction.GameActionEventArgs)
    (selected : ParkRide.t) (position : nat) :
  reachable getTargets before state ->
  PlayerAction.isClientOnly event = false ->
  PlayerAction.action event = "ridesetstatus" ->
  _selectedRide (fst state) = Some (selected, position) ->
  ParkRide._id selected = PlayerAction.args_ride event ->
  (forall ride, In ride (_rides (fst state)) ->
     ParkRide._id ride = PlayerAction.args_ride event ->
     PlayerAction.ride_refresh answers ride = false) \/
  (exists train t, _selectedTrain (fst state) = Some (train, t) /\
     PlayerAction.train_refresh answers train = false) ->
  let vm' := _onPlayerActionExecuted getTargets game answers event (fst state) in
  _trains vm' = [] /\ _selectedTrain vm' = None /\
  _vehicles vm' = [] /\ _selectedVehicle vm' = None /\
  _selectedRide vm' = Some (selected, position) /\ _rides vm' = _rides (fst state) /\
  mirroredFields vm' = mirroredFields (fst state).
Proof.
  intros Hreachable Hclient Haction Hselected Hid Hgone. cbv zeta.
  pose proof (reachable_consistent getTargets before state Hreachable) as (Hpre & _).
  pose proof (reachable_positioned before state Hreachable) as Hpositioned.
  destruct state as [vm context]. cbn [fst] in *.
  assert (Hresult : _onPlayerActionExecuted getTargets game answers event vm
                    = set_trains getTargets game [] vm).
  { unfold _onPlayerActionExecuted. rewrite Hclient, Haction.
    cbn [existsb String.eqb Ascii.eqb Bool.eqb orb].
    destruct (find_selected vm selected position Hpositioned Hselected)
      as (ride & Hfind & Hin & Hride).
    rewrite <- Hid, Hfind, Hselected, Z.eqb_refl.
    destruct Hgone as [Hgone | (train & t & Htrain & Hgone)].
    - rewrite (Hgone ride Hin) by congruence. reflexivity.
    - rewrite Htrain, Hgone, andb_false_r, orb_true_r. reflexivity. }
  rewrite Hresult.
  destruct (set_trains_frame getTargets game [] vm) as (Hts & Ht & Hr & Hrs & _).
  assert (Hbelow : _vehicles (set_trains getTargets game [] vm) = [] /\
                   _selectedVehicle (set_trains getTargets game [] vm) = None).
  { rewrite set_trains_unfold.
    change (nextSelection (_selectedTrain vm) []) with (@None (RideTrain.t * nat)).
    destruct (set_selectedTrain_cascade game None (vm <| _trains := [] |>))
      as [(Hnone & _ & ->) | (_ & -> & ->)]; [|split; reflexivity].
    destruct (Hpre ltac:(destruct vm; exact Hnone)) as (Hvehicles & Hvehicle).
    destruct vm; split; assumption. }
  destruct Hbelow as (Hvs & Hv).
  change (nextSelection (_selectedTrain vm) []) with (@None (RideTrain.t * nat)) in Ht.
  repeat (split; [congruence|]).
  exact (pulledAtMostOnce_null game vm _ (set_trains_pulls getTargets game [] vm) Hv).
Qed.

(** X9.  When the status of the selected ride changes while no train is
    selected and the ride still exists, the handler takes the trains the ride
    has now: with trains spawned, the first of them and its first vehicle are
    selected and, the handler being subscribed, the mirrored stores hold what
    the car of that vehicle shows. *)
Theorem playerAction_trains_spawned
    (before : Context.t) (state : VehicleViewModel * Context.t)
    (game : Game) (answers : PlayerAction.Answers)
    (event : PlayerAction.GameActionEventArgs)
    (selected : ParkRide.t) (position : nat)
    (first : RideTrain.t) (rest : list RideTrain.t) :
  reachable getTargets before state ->
  _onPlayerAction (fst state) <> None ->
  PlayerAction.isClientOnly event = false ->
  PlayerAction.action event = "ridesetstatus" ->
  _selectedRide (fst state) = Some (selected, position) ->
  ParkRide._id selected = PlayerAction.args_ride event ->
  _selectedTrain (fst state) = None ->
  (forall ride, In ride (_rides (fst state)) ->
     ParkRide._id ride = PlayerAction.args_ride event ->
     PlayerAction.ride_refresh answers ride = true /\
     PlayerAction.ride_trains answers ride = first :: rest) ->
  let vm' := _onPlayerActionExecuted getTargets game answers event (fst state) in
  _trains vm' = first :: rest /\ _selectedTrain vm' = Some (first, 0%nat) /\
  _vehicles vm' = RideTrain._vehicles first /\
  _selectedVehicle vm' = Some (RideTrain._head first, 0%nat) /\
  _selectedRide vm' = Some (selected, position) /\
  mirroredFields vm'
    = pulledFields game (_rideTypes (fst state)) first (RideTrain._head first) 0.
Proof.
  intros Hreachable Hsubscribed Hclient Haction Hselected Hid Htrain Hspawned. cbv zeta.
  pose proof (reachable_consistent getTargets before state Hreachable) as (Hpre & _).
  pose proof (reachable_positioned before state Hreachable) as Hpositioned.
  pose proof (reachable_listens before state Hreachable) as Hlistens.
  destruct state as [vm context]. cbn [fst] in *.
  assert (Hopen : JS.truthy (_isOpen vm) = true).
  { destruct (JS.truthy (_isOpen vm)) eqn:Hflag; [reflexivity|].
    destruct (Hlistens Hflag) as (Hnone & _). contradiction. }
  assert (Hresult : _onPlayerActionExecuted getTargets game answers event vm
                    = set_trains getTargets game (first :: rest) vm).
  { unfold _onPlayerActionExecuted. rewrite Hclient, Haction.
    cbn [existsb String.eqb Ascii.eqb Bool.eqb orb].
    destruct (find_selected vm selected position Hpositioned Hselected)
      as (ride & Hfind & Hin & Hride).
    rewrite <- Hid, Hfind, Hselected, Z.eqb_refl, Htrain.
    destruct (Hspawned ride Hin ltac:(congruence)) as (-> & ->). reflexivity. }
  rewrite Hresult.
  destruct (set_trains_frame getTargets game (first :: rest) vm) as (Hts & Ht & Hr & _).
  destruct (Hpre Htrain) as (_ & Hvehicle).
  destruct (set_trains_pull game (first :: rest) vm Hopen Hpre)
    as (_ & train & t & vehicle & v & Ht' & _ & Hvs & Hv & Hnth & Hmirror).
  rewrite Htrain in Ht.
  change (nextSelection None (first :: rest)) with (Some (first, 0%nat)) in Ht.
  rewrite Ht in Ht'. inversion Ht'. subst train t.
  assert (Hchosen : _selectedVehicle (set_trains getTargets game (first :: rest) vm)
                    = Some (RideTrain._head first, 0%nat)).
  { rewrite set_trains_unfold.
    destruct (set_selectedTrain_cascade game (nextSelection (_selectedTrain vm) (first :: rest))
                (vm <| _trains := first :: rest |>))
      as [(_ & Hnone & _) | (_ & _ & ->)].
    - rewrite Htrain in Hnone. discriminate.
    - replace (_selectedVehicle (vm <| _trains := first :: rest |>)) with (@None (RideVehicle.t * nat))
        by (destruct vm; cbn in *; congruence).
      rewrite Htrain. reflexivity. }
  rewrite Hchosen in Hv. inversion Hv. subst vehicle v.
  repeat (split; [congruence|]). exact Hmirror.
Qed.

(** X10.  Executed player actions keep the view model within the states
    it can be in: what the handler does while it is subscribed is nothing, a
    write to [_rides] or a write to [_trains], so that every property of
    those states holds after the handler ran as well; the subscriptions are
    not touched. *)
Theorem playerAction_keeps_reachable
    (before : Context.t) (state : VehicleViewModel * Context.t)
    (game : Game) (answers : PlayerAction.Answers)
    (event : PlayerAction.GameActionEventArgs) :
  reachable getTargets before state ->
  reachable getTargets before (playerActionExecuted getTargets game answers event state) /\
  snd (playerActionExecuted getTargets game answers event state) = snd state /\
  consistent getTargets (fst (playerActionExecuted getTargets game answers event state)) /\
  positioned (fst (playerActionExecuted getTargets game answers event state)).
Proof.
  intros Hreachable.
  assert (Hafter :
    reachable getTargets before (playerActionExecuted getTargets game answers event state)).
  { unfold playerActionExecuted.
    destruct (_onPlayerAction (fst state)); [|exact Hreachable].
    destruct Hreachable as (events & Hstate).
    destruct state as [vm context]. unfold onModel. cbn [fst snd].
    destruct (playerAction_cases game answers event vm)
      as [Hsame | [Hrides | (trains & Htrains)]].
    - rewrite Hsame. exists events. exact Hstate.
    - rewrite Hrides.
      exists (events ++ [ (game, RidesReloaded (PlayerAction.getAllRides answers)) ]).
      rewrite run_app, <- Hstate. reflexivity.
    - rewrite Htrains. exists (events ++ [ (game, TrainsReloaded trains) ]).
      rewrite run_app, <- Hstate. reflexivity. }
  split; [exact Hafter|]. split.
  - unfold playerActionExecuted. destruct (_onPlayerAction (fst state)); reflexivity.
  - split; [exact (reachable_consistent getTargets before _ Hafter)
           | exact (reachable_positioned before _ Hafter)].
Qed.

(** *** What an event writes to the mirrored stores *)

Lemma mirrorsSelection_same game a b :
  _selectedTrain a = _selectedTrain b -> _selectedVehicle a = _selectedVehicle b ->
  _rideTypes a = _rideTypes b -> mirroredFields a = mirroredFields b ->
  mirrorsSelection game b -> mirrorsSelection game a.
Proof.
  intros Ht Hv Htypes Hm (train & position & vehicle & index & Htrain & Hvehicle & Hpulled).
  exists train, position, vehicle, index.
  rewrite Ht, Hv, Htypes, Hm. repeat split; assumption.
Qed.

Lemma updateVehicleInfo_mirrorsSelection game vehicle index vm :
  _selectedVehicle vm = Some (vehicle, index) ->
  (_selectedTrain vm = None -> _selectedVehicle vm = None) ->
  mirrorsSelection game (_updateVehicleInfo game vehicle index vm).
Proof.
  intros Hselected Hpre.
  destruct (other_parts _ _ (updateVehicleInfo_other game vehicle index vm))
    as (_ & Htrain & Hvehicle & _ & _ & _ & _ & Hfixed).
  destruct (fixed_parts _ _ Hfixed) as (Htypes & _).
  destruct (_selectedTrain vm) as [[train position]|] eqn:Hbefore.
  2:{ rewrite Hselected in Hpre. specialize (Hpre eq_refl). discriminate. }
  exists train, position, vehicle, index.
  rewrite Htrain, Hvehicle, Htypes. split; [reflexivity|]. split; [exact Hselected|].
  apply (updateVehicleInfo_mirror game vehicle index vm train position Hbefore).
Qed.

Lemma pulledAtMostOnce_selection game vm vm' :
  pulledAtMostOnce game vm vm' ->
  (_selectedTrain vm' = None -> _selectedVehicle vm' = None) ->
  mirroredFields vm' = mirroredFields vm \/ mirrorsSelection game vm'.
Proof.
  intros [Hsame | (vehicle & index & before & Hselected & Hbefore & ->)] Hpre;
    [left; exact Hsame | right].
  destruct (other_parts _ _ (updateVehicleInfo_other game vehicle index before))
    as (_ & Htrain & Hvehicle & _).
  apply updateVehicleInfo_mirrorsSelection; [exact Hselected|].
  rewrite <- Htrain, <- Hvehicle. exact Hpre.
Qed.

Lemma pulledAtMostOnce_write game event vm vm' :
  pulledAtMostOnce game vm vm' ->
  (_selectedTrain vm' = None -> _selectedVehicle vm' = None) ->
  mirrorWrite game event vm vm'.
Proof.
  intros Hpulled Hpre.
  destruct (pulledAtMostOnce_selection game vm vm' Hpulled Hpre) as [Hsame | Hselection];
    [left; exact Hsame | right; left; exact Hselection].
Qed.

(** [_select] while the window is open. *)
Lemma select_write game event car vm :
  consistent getTargets vm ->
  mirrorWrite game event vm (_select getTargets game car vm).
Proof.
  intros Hvm.
  destruct (JS.truthy (_isOpen vm)) eqn:Hopen;
    [|left; apply select_closed; exact Hopen].
  unfold _select.
  destruct (Helpers.findIndex _ _) as [place|]; [|left; reflexivity].
  destruct (nth_error _ _) as [ride|]; [|left; reflexivity].
  set (vm1 := set_selectedRide getTargets game (Some (ride, place)) vm).
  assert (H1 : pulledAtMostOnce game vm vm1) by apply set_selectedRide_pulls.
  assert (Hc1 : consistent getTargets vm1) by (apply set_selectedRide_consistent; exact Hvm).
  assert (Hopen1 : _isOpen vm1 = _isOpen vm) by apply fixed_open, set_selectedRide_frame.
  destruct (findTrain (_trains vm1) (Car.id car) 0) as [[[train t] [vehicle v]]|].
  2:{ apply pulledAtMostOnce_write; [exact H1|].
      intros Hnone. exact (proj2 (proj1 Hc1 Hnone)). }
  set (vm2 := set_selectedTrain getTargets game (Some (train, t)) vm1).
  destruct (set_selectedTrain_frame getTargets game (Some (train, t)) vm1)
    as (Htrain2 & _ & _ & _ & Hfixed2).
  fold vm2 in Htrain2, Hfixed2.
  assert (Hopen2 : JS.truthy (_isOpen vm2) = true).
  { rewrite (fixed_open _ _ Hfixed2), Hopen1. exact Hopen. }
  destruct (set_selectedVehicle_frame getTargets game (Some (vehicle, v)) vm2)
    as (Hvehicle3 & _ & Htrain3 & _ & _ & _ & Hfixed3).
  destruct (fixed_parts _ _ Hfixed3) as (Htypes3 & _).
  right; left. exists train, t, vehicle, v.
  split; [rewrite Htrain3; exact Htrain2|]. split; [exact Hvehicle3|].
  rewrite Htypes3, (set_selectedVehicle_pull game vehicle v vm2 Hopen2).
  apply (updateVehicleInfo_mirror game vehicle v vm2 train t Htrain2).
Qed.

Lemma step_write game event state :
  consistent getTargets (fst state) ->
  mirrorWrite game event (fst state) (fst (step getTargets game event state)).
Proof.
  intros Hvm.
  pose proof (step_consistent getTargets game event state Hvm) as Hafter.
  assert (Hpre : _selectedTrain (fst (step getTargets game event state)) = None ->
                 _selectedVehicle (fst (step getTargets game event state)) = None)
    by (intros Hnone; exact (proj2 (proj1 Hafter Hnone))).
  clear Hafter. destruct state as [vm context]. cbn [fst] in Hvm.
  destruct event; cbn [step onModel fst snd] in *.
  - destruct (open_hierarchy game allRideTypes allRides vm context)
      as (Hmirror & _ & Htrain & Hvehicle & _).
    destruct (open_flag game allRideTypes allRides (vm, context)) as (_ & Htypes).
    cbv zeta in *.
    set (vm0 := vm <| _isOpen := Some true |> <| _rideTypes := allRideTypes |>) in *.
    set (vmA := set_rides getTargets game allRides vm0) in *.
    assert (HA : pulledAtMostOnce game vm vmA).
    { apply (pulledAtMostOnce_after game vm vm0);
        [destruct vm; reflexivity | apply set_rides_pulls]. }
    assert (HtypesA : _rideTypes vmA = allRideTypes).
    { destruct (fixed_parts _ _
                  (proj2 (proj2 (set_rides_frame getTargets game allRides vm0))))
        as (Hkept & _).
      fold vmA in Hkept. rewrite Hkept. destruct vm; reflexivity. }
    destruct (pulledAtMostOnce_selection game vm vmA HA) as [Hsame | Hselection].
    + rewrite <- Htrain, <- Hvehicle. exact Hpre.
    + left. rewrite Hmirror. exact Hsame.
    + right; left.
      apply (mirrorsSelection_same game _ vmA); try assumption.
      rewrite HtypesA. exact Htypes.
  - left. destruct vm; reflexivity.
  - apply select_write. exact Hvm.
  - destruct (_onGameTick vm); cbn [onModel fst]; [|left; reflexivity].
    unfold _onGameTickExecuted.
    destruct (_selectedVehicle vm) as [[vehicle index]|] eqn:Hselected;
      [|left; reflexivity].
    right; right; left. exists vehicle, index. repeat split. exact Hselected.
  - clear Hpre. unfold onRefreshVehicle.
    destruct (negb (JS.truthy (_isOpen vm))); [left; reflexivity|].
    destruct (_selectedVehicle vm) as [[vehicle index]|] eqn:Hselected;
      [|left; reflexivity].
    destruct (RideVehicle._id vehicle =? id); [|left; reflexivity].
    right; left. apply updateVehicleInfo_mirrorsSelection; [exact Hselected|].
    intros Hnone. exact (proj2 (proj1 Hvm Hnone)).
  - apply pulledAtMostOnce_write; [apply set_rides_pulls | exact Hpre].
  - apply pulledAtMostOnce_write; [apply set_trains_pulls | exact Hpre].
  - revert Hpre. unfold vehicleList_onChange.
    destruct (nth_error (_vehicles vm) idx) as [vehicle|]; [|left; reflexivity].
    intros Hpre. apply pulledAtMostOnce_write; [apply set_selectedVehicle_pulls | exact Hpre].
  - left. destruct vm; reflexivity.
  - left. unfold set_copyTargetOption.
    destruct (option =? _copyTargetOption vm); destruct vm; reflexivity.
  - left. destruct vm; reflexivity.
  - left. destruct vm; reflexivity.
  - clear Hpre. unfold trackProgress_twoway, _isEditDisabled.
    destruct (_selectedVehicle vm) eqn:Hselected; [|left; reflexivity].
    right; right; right. exists value. repeat split.
    rewrite Hselected. discriminate.
Qed.

(** C9, as the code has it.  Writing null to the vehicle selection leaves
    every mirrored store as it is, and so does every event after which no
    vehicle is selected: nothing is reset.  In a state the view model can be
    in, an event does one of four things to the mirrored stores.  It leaves
    them as they are.  Or it leaves them holding what a full pull
    ([_updateVehicleInfo]) of the vehicle that is selected afterwards writes,
    with the train that is selected afterwards.  Or it is a game tick while a
    vehicle is selected, and writes what [_updateDynamicDataFromCar] pulls
    from the car of that vehicle.  Or it is the track progress spinner being
    spun while a vehicle is selected, and writes the value to
    [_trackProgress] and nothing else. *)
Theorem null_selection_keeps_fields
    (game : Game) (event : Event) (state : VehicleViewModel * Context.t) :
  mirroredFields (set_selectedVehicle getTargets game None (fst state))
    = mirroredFields (fst state) /\
  (_selectedVehicle (fst (step getTargets game event state)) = None ->
   mirroredFields (fst (step getTargets game event state)) = mirroredFields (fst state)) /\
  (forall before : Context.t,
     reachable getTargets before state ->
     mirrorWrite game event (fst state) (fst (step getTargets game event state))).
Proof.
  split; [|split].
  - apply (pulledAtMostOnce_null _ _ _
             (set_selectedVehicle_pulls getTargets game None (fst state))).
    apply (proj1 (set_selectedVehicle_frame getTargets game None (fst state))).
  - apply step_null.
  - intros before Hreach. apply step_write.
    exact (reachable_consistent getTargets before state Hreach).
Qed.

End HierarchyFacts.

(** C9 at the removal of the trains while the second car is selected: no
    vehicle is selected afterwards, and the mirrored stores are those of
    before. *)
Lemma null_selection_keeps_fields_witness :
  reachable Examples.noTargets Examples.noSubscriptions Examples.secondCar /\
  _selectedVehicle
    (fst (step Examples.noTargets Examples.game0 (TrainsReloaded []) Examples.secondCar))
    = None /\
  mirroredFields
    (fst (step Examples.noTargets Examples.game0 (TrainsReloaded []) Examples.secondCar))
    = mirroredFields (fst Examples.secondCar) /\
  mirrorWrite Examples.game0 (TrainsReloaded []) (fst Examples.secondCar)
    (fst (step Examples.noTargets Examples.game0 (TrainsReloaded []) Examples.secondCar)).
Proof.
  assert (Hreach : reachable Examples.noTargets Examples.noSubscriptions Examples.secondCar)
    by (exists Examples.secondCarRun; reflexivity).
  split; [exact Hreach|]. split; [reflexivity|].
  destruct (null_selection_keeps_fields Examples.noTargets Examples.game0
              (TrainsReloaded []) Examples.secondCar) as (_ & Hnull & Hwrite).
  split; [exact (Hnull eq_refl) | exact (Hwrite Examples.noSubscriptions Hreach)].
Defined.

(** * More of the copy filters *)

Module CheckboxFacts.
Import JS.

Lemma bitand_bits a b i :
  0 <= i ->
  Z.testbit (bitand a b) i = Z.testbit a (Z.min i 31) && Z.testbit b (Z.min i 31).
Proof.
  intros Hi. unfold bitand. rewrite JSFacts.toInt32_bits, Z.land_spec by lia.
  rewrite !JSFacts.toInt32_bits by lia. rewrite <- !Z.min_assoc, !Z.min_id. reflexivity.
Qed.

(** [a & b] is zero exactly when the two share none of the 32 bits. *)
Lemma bitand_zero a b :
  bitand a b = 0 <->
  (forall i, 0 <= i < 32 -> Z.testbit a i && Z.testbit b i = false).
Proof.
  split.
  - intros Hzero i Hi. rewrite <- (Z.min_l i 31) by lia.
    rewrite <- bitand_bits by lia. rewrite Hzero. apply Z.testbit_0_l.
  - intros Hbits. apply Z.bits_inj'. intros i Hi.
    rewrite bitand_bits, Z.testbit_0_l by lia. apply Hbits. lia.
Qed.

End CheckboxFacts.

(** X11.  A check box of the copy filters reads back what was toggled:
    after [_setFilter filter toggle] the test [!!(mask & filter)] of the box
    of that filter is [toggle], for a filter with at least one of the 32
    bits; and the box of a filter that shares no bit with it shows what it
    showed before. *)
Theorem filter_checkbox_reads_back
    (filter other : Z) (toggle : bool) (vm : VehicleViewModel) :
  (exists i, 0 <= i < 32 /\ Z.testbit filter i = true) ->
  filter_isChecked filter (_setFilter filter toggle vm) = toggle /\
  (JS.bitand filter other = 0 ->
   filter_isChecked other (_setFilter filter toggle vm) = filter_isChecked other vm).
Proof.
  intros (bit & Hbit & Hset). unfold filter_isChecked. split.
  - destruct toggle.
    + destruct (Z.eqb_spec (JS.bitand (_copyFilters (_setFilter filter true vm)) filter) 0)
        as [Hzero|]; [exfalso | reflexivity].
      pose proof (proj1 (CheckboxFacts.bitand_zero _ _) Hzero bit Hbit) as Hnone.
      rewrite FilterFacts.setFilter_bit, Hset in Hnone by exact Hbit. discriminate.
    + rewrite (proj2 (CheckboxFacts.bitand_zero _ _)); [reflexivity|].
      intros i Hi. rewrite FilterFacts.setFilter_bit by exact Hi.
      destruct (Z.testbit filter i); [reflexivity | apply andb_false_r].
  - intros Hdisjoint.
    pose proof (proj1 (CheckboxFacts.bitand_zero _ _) Hdisjoint) as Hnone.
    replace (JS.bitand (_copyFilters (_setFilter filter toggle vm)) other)
      with (JS.bitand (_copyFilters vm) other); [reflexivity|].
    apply JSFacts.int32_ext; try apply JSFacts.toInt32_range.
    intros i Hi. rewrite !CheckboxFacts.bitand_bits by lia. rewrite Z.min_l by lia.
    rewrite FilterFacts.setFilter_bit by exact Hi. specialize (Hnone i Hi).
    destruct (Z.testbit filter i), (Z.testbit other i); cbn in Hnone; try discriminate;
      rewrite ?andb_false_r; reflexivity.
Qed.

(** * More of the spinner *)

Module SpinnerCallbackFacts.
Import SpinnerComponent SpinnerCallbacks.

Lemma performWrapMode_inside s value :
  minimum s <= value <= maximum s - 1 -> performWrapMode s value = value.
Proof.
  intros Hin. unfold performWrapMode, Helpers.wrap, Helpers.clamp.
  assert ((value <? minimum s) = false) as -> by (apply Z.ltb_ge; lia).
  assert ((maximum s - 1 <? value) = false) as -> by (apply Z.ltb_ge; lia).
  destruct (wrapMode s); reflexivity.
Qed.

(** What a line on the console leaves alone. *)
Lemma log_keeps line s :
  _value (log line s) = _value s /\ minimum (log line s) = minimum s /\
  maximum (log line s) = maximum s /\ _isActive (log line s) = _isActive s /\
  wrapMode (log line s) = wrapMode s /\ increment (log line s) = increment s /\
  widget (log line s) = widget s /\ format (log line s) = format s.
Proof. destruct s; repeat split. Qed.

Lemma performWrapMode_log line s value :
  performWrapMode (log line s) value = performWrapMode s value.
Proof. destruct s; reflexivity. Qed.

(** A [set] that stores a new value inside the bounds. *)
Lemma set_inside value s :
  minimum s <= value <= maximum s - 1 -> value <> _value s ->
  _value (set value s) = value /\ _isActive (set value s) = true /\
  increment (set value s) = increment s /\
  minimum (set value s) = minimum s /\ maximum (set value s) = maximum s /\
  widget (set value s)
    = {| text := match format s with
                 | Some f => f value
                 | None => JS.toString value
                 end;
         isDisabled := maximum s - 1 <=? minimum s |}.
Proof.
  intros Hin Hnew. unfold set.
  assert ((maximum s <=? minimum s) = false) as -> by (apply Z.leb_gt; lia).
  assert ((value =? _value s) = false) as -> by (apply Z.eqb_neq; exact Hnew).
  rewrite andb_false_l, (performWrapMode_inside s value Hin). unfold refreshWidget.
  assert ((minimum s <? maximum s) = true) as Hlt by (apply Z.ltb_lt; lia).
  destruct s; cbn in *. rewrite Hlt. cbn. repeat split.
Qed.

End SpinnerCallbackFacts.

(** X12.  A spinner that is not active, or has at most one value to offer
    ([maximum - 1 <= minimum]), cannot be spun: once its widget is
    refreshed, a click on the increment or the decrement button changes
    neither the stored value nor the widget, and [onChange] is not called. *)
Theorem spinner_without_choice_ignores_clicks
    (W : Type) (onChange : option (Z -> Z -> W -> W)) (s : SpinnerComponent.t) (w : W) :
  SpinnerComponent._isActive s = false \/
  SpinnerComponent.maximum s - 1 <= SpinnerComponent.minimum s ->
  let bound := SpinnerComponent.refreshWidget s in
  forall clicked,
    clicked = SpinnerCallbacks.onIncrement onChange (bound, w) \/
    clicked = SpinnerCallbacks.onDecrement onChange (bound, w) ->
    snd clicked = w /\
    SpinnerComponent._value (fst clicked) = SpinnerComponent._value s /\
    SpinnerComponent._isActive (fst clicked) = SpinnerComponent._isActive s /\
    SpinnerComponent.widget (fst clicked) = SpinnerComponent.widget bound.
Proof.
  intros Hsingle. cbv zeta.
  assert (Hdisabled :
    SpinnerComponent.isDisabled (SpinnerComponent.widget (SpinnerComponent.refreshWidget s))
      = true).
  { unfold SpinnerComponent.refreshWidget.
    destruct (SpinnerComponent._isActive s && _) eqn:Hactive; destruct s; cbn in *;
      [|reflexivity].
    apply andb_true_iff in Hactive. destruct Hactive as (Hactive & _).
    destruct Hsingle as [Hoff | Hle]; [congruence | apply Z.leb_le; exact Hle]. }
  destruct (SpinnerFacts.refreshWidget_keeps s) as (Hvalue & _ & _ & Hactive).
  intros clicked [-> | ->];
    unfold SpinnerCallbacks.onIncrement, SpinnerCallbacks.onDecrement,
           SpinnerCallbacks.onWidgetChange; cbn [fst snd];
    rewrite Hdisabled; cbn [fst snd];
    match goal with
    | |- context [SpinnerComponent.log ?line ?t] =>
        destruct (SpinnerCallbackFacts.log_keeps line t) as (-> & _ & _ & -> & _ & _ & -> & _)
    end; repeat split; assumption.
Qed.

(** X13.  A click that reaches an enabled spinner hands the stored value
    to [onChange], not the sum it tried to store: [onChange] is called once,
    with the value the spinner holds after [set] and with the adjustment;
    that value is the wrapped or clamped sum, within the bounds, whenever the
    sum differs from the value held before or the spinner was not active. *)
Theorem spinner_click_reports_stored_value
    (W : Type) (handler : Z -> Z -> W -> W)
    (value adjustment : Z) (s : SpinnerComponent.t) (w : W) :
  SpinnerComponent.isDisabled (SpinnerComponent.widget s) = false ->
  SpinnerComponent.minimum s < SpinnerComponent.maximum s ->
  let clicked := SpinnerCallbacks.onWidgetChange (Some handler) value adjustment (s, w) in
  snd clicked = handler (SpinnerComponent._value (fst clicked)) adjustment w /\
  (value + adjustment <> SpinnerComponent._value s \/ SpinnerComponent._isActive s = false ->
   SpinnerComponent._value (fst clicked)
     = SpinnerComponent.performWrapMode s (value + adjustment) /\
   SpinnerComponent.inBounds (fst clicked)) /\
  (value + adjustment = SpinnerComponent._value s -> SpinnerComponent._isActive s = true ->
   SpinnerComponent._value (fst clicked) = SpinnerComponent._value s).
Proof.
  intros Henabled Hlt. cbv zeta. unfold SpinnerCallbacks.onWidgetChange.
  rewrite Henabled. cbn [fst snd]. split; [reflexivity|].
  match goal with
  | |- context [SpinnerComponent.log ?line s] => set (logged := SpinnerComponent.log line s)
  end.
  destruct (SpinnerCallbackFacts.log_keeps
              ("--->(" ++ SpinnerComponent._name s ++ ") Try updating "
                 ++ JS.toString (SpinnerComponent._value s) ++ " -> "
                 ++ JS.toString (value + adjustment) ++ ", adjustment: "
                 ++ JS.toString adjustment ++ ".")%string s)
    as (Hvalue & Hmin & Hmax & Hactive & _).
  fold logged in Hvalue, Hmin, Hmax, Hactive.
  pose proof (SpinnerFacts.set_value (value + adjustment) logged) as Hset.
  destruct (SpinnerFacts.set_keeps_bounds (value + adjustment) logged) as (Hmin' & Hmax').
  rewrite Hmin, Hmax, Hvalue, Hactive in Hset.
  assert ((SpinnerComponent.maximum s <=? SpinnerComponent.minimum s) = false) as Hfresh
    by (apply Z.leb_gt; lia).
  rewrite Hfresh in Hset. unfold logged in Hset at 2.
  rewrite SpinnerCallbackFacts.performWrapMode_log in Hset.
  split.
  - intros Hother.
    assert (((value + adjustment =? SpinnerComponent._value s)
             && SpinnerComponent._isActive s) = false) as Hnew.
    { destruct Hother as [Hne | Hoff].
      - apply Z.eqb_neq in Hne. rewrite Hne. reflexivity.
      - rewrite Hoff. apply andb_false_r. }
    rewrite Hnew in Hset. split; [exact Hset|].
    unfold SpinnerComponent.inBounds. rewrite Hmin', Hmax', Hmin, Hmax, Hset.
    apply SpinnerFacts.performWrapMode_between. exact Hlt.
  - intros Hsame Hon. rewrite Hon in Hset.
    rewrite (proj2 (Z.eqb_eq _ _) Hsame) in Hset. exact Hset.
Qed.

Module SpinnerClickFacts.
Import SpinnerComponent SpinnerCallbacks.

(** A click on an enabled spinner whose sum lies inside the bounds and
    differs from the value held. *)
Lemma click_inside (W : Type) (handler : Z -> Z -> W -> W) adjustment s w :
  isDisabled (widget s) = false ->
  adjustment <> 0 ->
  minimum s <= _value s + adjustment <= maximum s - 1 ->
  let clicked := onWidgetChange (Some handler) (_value s) adjustment (s, w) in
  _value (fst clicked) = _value s + adjustment /\
  snd clicked = handler (_value s + adjustment) adjustment w /\
  increment (fst clicked) = increment s /\
  minimum (fst clicked) = minimum s /\ maximum (fst clicked) = maximum s /\
  isDisabled (widget (fst clicked)) = (maximum s - 1 <=? minimum s).
Proof.
  intros Henabled Hstep Hin. cbv zeta. unfold onWidgetChange.
  rewrite Henabled. cbn [fst snd].
  match goal with
  | |- context [log ?line s] =>
      destruct (SpinnerCallbackFacts.log_keeps line s)
        as (Hvalue & Hmin & Hmax & _ & _ & Hincrement & _);
      set (logged := log line s) in *
  end.
  destruct (SpinnerCallbackFacts.set_inside (_value s + adjustment) logged)
    as (Hv & _ & Hi & Hlo & Hhi & Hw); [lia | lia |].
  rewrite Hv, Hi, Hlo, Hhi, Hw, Hincrement, Hmin, Hmax. repeat split.
Qed.

End SpinnerClickFacts.

(** X14.  Spinning up and down again returns to the value held: for an
    enabled spinner with a positive increment whose value plus the increment
    is still within the bounds, a click on the increment button stores the
    value plus the increment, a click on the decrement button after it stores
    the first value again, and [onChange] is called once per click with the
    value stored by it. *)
Theorem spinner_up_and_down_again
    (W : Type) (handler : Z -> Z -> W -> W) (s : SpinnerComponent.t) (w : W) :
  SpinnerComponent.isDisabled (SpinnerComponent.widget s) = false ->
  0 < SpinnerComponent.increment s ->
  SpinnerComponent.minimum s <= SpinnerComponent._value s ->
  SpinnerComponent._value s + SpinnerComponent.increment s <= SpinnerComponent.maximum s - 1 ->
  let up := SpinnerCallbacks.onIncrement (Some handler) (s, w) in
  let down := SpinnerCallbacks.onDecrement (Some handler) up in
  SpinnerComponent._value (fst up) = SpinnerComponent._value s + SpinnerComponent.increment s /\
  SpinnerComponent._value (fst down) = SpinnerComponent._value s /\
  snd down
    = handler (SpinnerComponent._value s) (- SpinnerComponent.increment s)
        (handler (SpinnerComponent._value s + SpinnerComponent.increment s)
                 (SpinnerComponent.increment s) w).
Proof.
  intros Henabled Hstep Hlow Hhigh. cbv zeta.
  unfold SpinnerCallbacks.onIncrement, SpinnerCallbacks.onDecrement. cbn [fst].
  destruct (SpinnerClickFacts.click_inside W handler (SpinnerComponent.increment s) s w
              Henabled ltac:(lia) ltac:(lia))
    as (Hvalue & Hworld & Hincrement & Hmin & Hmax & Hwidget).
  set (up := SpinnerCallbacks.onWidgetChange (Some handler) (SpinnerComponent._value s)
               (SpinnerComponent.increment s) (s, w)) in *.
  split; [exact Hvalue|].
  assert (Hagain : SpinnerComponent.isDisabled (SpinnerComponent.widget (fst up)) = false)
    by (rewrite Hwidget; apply Z.leb_gt; lia).
  destruct up as [s1 w1]. cbn [fst snd] in *.
  destruct (SpinnerClickFacts.click_inside W handler (- SpinnerComponent.increment s1) s1 w1
              Hagain ltac:(lia) ltac:(lia))
    as (Hvalue' & Hworld' & _).
  rewrite Hvalue', Hworld', Hvalue, Hincrement, Hworld.
  replace (SpinnerComponent._value s + SpinnerComponent.increment s
           + - SpinnerComponent.increment s) with (SpinnerComponent._value s) by lia.
  split; reflexivity.
Qed.

(** X15.  Setting a value twice is setting it once: with
    [minimum < maximum], a second [set] of the same value leaves the spinner
    exactly as the first left it - value, activity, widget and console. *)
Theorem spinner_set_twice (value : Z) (s : SpinnerComponent.t) :
  SpinnerComponent.minimum s < SpinnerComponent.maximum s ->
  SpinnerComponent.set value (SpinnerComponent.set value s) = SpinnerComponent.set value s.
Proof.
  intros Hlt.
  assert (Hfresh : (SpinnerComponent.maximum s <=? SpinnerComponent.minimum s) = false)
    by (apply Z.leb_gt; lia).
  assert (Hltb : (SpinnerComponent.minimum s <? SpinnerComponent.maximum s) = true)
    by (apply Z.ltb_lt; lia).
  unfold SpinnerComponent.set at 2. rewrite Hfresh.
  destruct ((value =? SpinnerComponent._value s) && SpinnerComponent._isActive s) eqn:Hsame.
  - unfold SpinnerComponent.set. rewrite Hfresh, Hsame. reflexivity.
  - assert (Hfirst :
      SpinnerComponent.set value s
        = SpinnerComponent.refreshWidget
            (s <| SpinnerComponent._isActive := true |>
               <| SpinnerComponent._value := SpinnerComponent.performWrapMode s value |>))
      by (unfold SpinnerComponent.set; rewrite Hfresh, Hsame; reflexivity).
    rewrite Hfirst. clear Hfirst Hsame.
    unfold SpinnerComponent.set, SpinnerComponent.refreshWidget.
    destruct s. cbn in *. rewrite Hltb. cbn. rewrite Hfresh.
    destruct (value =? _) eqn:Hstored; cbn; [reflexivity|].
    rewrite Hltb. reflexivity.
Qed.

(** * The viewport *)

Section ViewportFacts.

Import ViewportComponent.

Variable getEntity : Z -> option (Z * Z * Z).
Variable withoutEntity : t * Context.t -> t * Context.t.

Lemma shown_moveTo position v : shown (moveTo position v) = Some position.
Proof.
  unfold shown, moveTo. destruct v as [name active entity updater moved]. cbn.
  rewrite map_app. cbn. apply last_last.
Qed.

(** While an entity is followed, [update] touches neither the fields of
    the component nor the subscriptions. *)
Lemma update_following v context :
  (_entityId v =? -1) = false ->
  let updated := update getEntity withoutEntity (v, context) in
  snd updated = context /\ _isActive (fst updated) = _isActive v /\
  _entityId (fst updated) = _entityId v /\ _updater (fst updated) = _updater v.
Proof.
  intros Hentity. cbv zeta. unfold update. rewrite Hentity.
  destruct (getEntity (_entityId v)) as [[[x y] z]|]; destruct v; repeat split.
Qed.

(** X16.  [goTo] ends every following: afterwards the viewport follows no
    entity and holds no updater, and an updater it held is disposed.  It
    shows the position asked for only if it held no updater: with an updater
    held, the last place the viewport is sent to is the far-away corner. *)
Theorem viewport_goTo_stops_following
    (position : Position) (v : t) (context : Context.t) :
  let gone := goTo getEntity withoutEntity position (v, context) in
  _entityId (fst gone) = -1 /\ _isActive (fst gone) = true /\
  _updater (fst gone) = None /\
  snd gone = match _updater v with
             | Some handle => Context.dispose handle context
             | None => context
             end /\
  shown (fst gone) = Some match _updater v with
                          | Some _ => farAway
                          | None => position
                          end.
Proof.
  cbv zeta. unfold goTo, refreshWidget.
  destruct v as [name active entity [handle|] moved]; cbn [fst snd].
  - cbn. repeat split. unfold shown. cbn. rewrite !map_app. cbn.
    apply last_last.
  - cbn. repeat split. unfold shown. cbn. rewrite map_app. cbn. apply last_last.
Qed.

(** What one refresh leaves behind. *)
Lemma refreshWidget_result v context once :
  refreshWidget getEntity withoutEntity (v, context) = once ->
  ((_isActive v && negb (_entityId v =? -1)) = true ->
   (_isActive (fst once) && negb (_entityId (fst once) =? -1)) = true /\
   match _updater v with
   | Some handle => snd once = context /\ _updater (fst once) = Some handle
   | None =>
       snd once = snd (Context.subscribe Context.IntervalTick context) /\
       _updater (fst once) = Some (Context.nextHandle context)
   end) /\
  ((_isActive v && negb (_entityId v =? -1)) = false ->
   (_isActive (fst once) && negb (_entityId (fst once) =? -1)) = false /\
   _updater (fst once) = None /\
   snd once = match _updater v with
              | Some handle => Context.dispose handle context
              | None => context
              end).
Proof.
  intros Honce. unfold refreshWidget in Honce.
  destruct (_isActive v && negb (_entityId v =? -1)) eqn:Hfollowing.
  - split; [intros _ | discriminate].
    apply andb_true_iff in Hfollowing. destruct Hfollowing as (Hactive & Hentity).
    apply negb_true_iff in Hentity.
    destruct (_updater v) as [handle|] eqn:Hupdater.
    + destruct (update_following v context Hentity) as (Hc & Ha & He & Hu).
      rewrite Honce in Hc, Ha, He, Hu. rewrite Ha, He, Hactive, Hentity, Hc, Hu, Hupdater.
      repeat split.
    + change (update getEntity withoutEntity
                (v <| _updater := Some (Context.nextHandle context) |>,
                 snd (Context.subscribe Context.IntervalTick context)) = once) in Honce.
      set (v1 := v <| _updater := Some (Context.nextHandle context) |>) in Honce.
      assert (Hentity1 : (_entityId v1 =? -1) = false) by (destruct v; exact Hentity).
      destruct (update_following v1 (snd (Context.subscribe Context.IntervalTick context))
                  Hentity1) as (Hc & Ha & He & Hu).
      rewrite Honce in Hc, Ha, He, Hu. rewrite Ha, He, Hc, Hu.
      replace (_isActive v1) with (_isActive v) by (destruct v; reflexivity).
      rewrite Hentity1, Hactive. destruct v; repeat split.
  - split; [discriminate | intros _].
    destruct (_updater v) as [handle|] eqn:Hupdater; subst once; cbn [fst snd].
    + destruct v; cbn in *. rewrite Hfollowing. repeat split.
    + rewrite Hfollowing, Hupdater. repeat split.
Qed.

(** X17.  Refreshing the viewport never piles up subscriptions.  While an
    entity is followed, [refreshWidget] subscribes to the tick only if no
    updater is held, and keeps the updater it holds; while none is followed
    it disposes the updater it holds; and a second refresh right after the
    first changes neither the subscriptions nor the updater. *)
Theorem viewport_refresh_subscribes_once (v : t) (context : Context.t) :
  let following := _isActive v && negb (_entityId v =? -1) in
  let once := refreshWidget getEntity withoutEntity (v, context) in
  let twice := refreshWidget getEntity withoutEntity once in
  (following = true ->
   match _updater v with
   | Some handle => snd once = context /\ _updater (fst once) = Some handle
   | None =>
       snd once = snd (Context.subscribe Context.IntervalTick context) /\
       _updater (fst once) = Some (Context.nextHandle context)
   end) /\
  (following = false ->
   _updater (fst once) = None /\
   snd once = match _updater v with
              | Some handle => Context.dispose handle context
              | None => context
              end) /\
  snd twice = snd once /\ _updater (fst twice) = _updater (fst once).
Proof.
  cbv zeta.
  destruct (refreshWidget getEntity withoutEntity (v, context)) as [v1 context1] eqn:Honce.
  destruct (refreshWidget_result v context _ Honce) as (Hfollowing & Hresting).
  destruct (refreshWidget getEntity withoutEntity (v1, context1)) as [v2 context2] eqn:Htwice.
  destruct (refreshWidget_result v1 context1 _ Htwice) as (Hfollowing1 & Hresting1).
  cbn [fst snd] in *.
  split; [intros H; exact (proj2 (Hfollowing H))|].
  split; [intros H; exact (proj2 (Hresting H))|].
  destruct (_isActive v && negb (_entityId v =? -1)).
  - destruct (Hfollowing eq_refl) as (Hstill & Hheld).
    assert (Hsome : exists handle, _updater v1 = Some handle)
      by (destruct (_updater v); destruct Hheld as (_ & ->); eexists; reflexivity).
    destruct Hsome as (handle & Hupdater). destruct (Hfollowing1 Hstill) as (_ & Hsecond).
    rewrite Hupdater in Hsecond |- *. exact Hsecond.
  - destruct (Hresting eq_refl) as (Hstill & Hnone & _).
    destruct (Hresting1 Hstill) as (_ & Hnone2 & Hsame).
    rewrite Hnone in Hsame |- *. split; assumption.
Qed.

End ViewportFacts.

(** * The names of the ride types *)

Section RideTypeNameFacts.

Variable objectName : RideType.t -> string.

Lemma append_empty (s : string) : (s ++ "")%string = s.
Proof. induction s as [|c s IH]; cbn; [reflexivity | rewrite IH; reflexivity]. Qed.

Lemma append_assoc (a b c : string) : ((a ++ b) ++ c)%string = (a ++ (b ++ c))%string.
Proof. induction a as [|x a IH]; cbn; [reflexivity | rewrite IH; reflexivity]. Qed.

Lemma uniqueNamesLoop_labels rideTypes before :
  uniqueNamesLoop objectName rideTypes
    (hd_error before)
    (match before with
     | [] => None
     | name :: earlier => Some (name ++ spaces (streakOf earlier name))%string
     end)
  = labelsAfter before (map objectName rideTypes).
Proof.
  revert before. induction rideTypes as [|rideType rest IH]; intros before; [reflexivity|].
  cbn [uniqueNamesLoop map labelsAfter].
  assert (Hfresh :
    uniqueNamesLoop objectName rest (Some (objectName rideType)) (Some (objectName rideType))
      = labelsAfter [objectName rideType] (map objectName rest)).
  { pose proof (IH [objectName rideType]) as H. cbn [hd_error streakOf spaces] in H.
    rewrite append_empty in H. exact H. }
  destruct before as [|name earlier]; cbn [hd_error streakOf spaces].
  - rewrite append_empty. f_equal. exact Hfresh.
  - destruct (String.eqb_spec (objectName rideType) name) as [Hsame|Hother].
    + rewrite <- Hsame. rewrite String.eqb_refl. cbn [spaces].
      rewrite append_assoc. f_equal.
      pose proof (IH (objectName rideType :: objectName rideType :: earlier)) as H.
      cbn [hd_error streakOf] in H. rewrite String.eqb_refl in H. exact H.
    + destruct (String.eqb_spec name (objectName rideType)) as [Hsame|_]; [congruence|].
      cbn [spaces]. rewrite append_empty. f_equal.
      pose proof (IH (objectName rideType :: name :: earlier)) as H.
      cbn [hd_error streakOf] in H.
      destruct (String.eqb_spec name (objectName rideType)) as [Hsame|_]; [congruence|].
      cbn [spaces] in H. rewrite append_empty in H. exact H.
Qed.

Lemma labelsAfter_length before names :
  List.length (labelsAfter before names) = List.length names.
Proof.
  revert before. induction names as [|name rest IH]; intros before; [reflexivity|].
  cbn. rewrite IH. reflexivity.
Qed.

Lemma labelsAfter_nth names before i name :
  nth_error names i = Some name ->
  nth_error (labelsAfter before names) i
    = Some (name ++ spaces (streakOf (rev (firstn i names) ++ before) name))%string.
Proof.
  revert before i. induction names as [|first rest IH]; intros before [|i] Hname;
    try discriminate.
  - inversion Hname. subst. reflexivity.
  - cbn [labelsAfter nth_error firstn rev] in *. rewrite (IH _ _ Hname).
    rewrite <- app_assoc. reflexivity.
Qed.

Lemma firstn_succ {T : Type} (items : list T) k item :
  nth_error items k = Some item -> firstn (S k) items = firstn k items ++ [item].
Proof.
  revert k. induction items as [|first rest IH]; intros [|k] H; try discriminate.
  - inversion H. reflexivity.
  - cbn [firstn app]. f_equal. apply IH. exact H.
Qed.

Lemma streakBefore_step names k name :
  nth_error names k = Some name -> nth_error names (S k) = Some name ->
  streakBefore names (S k) = S (streakBefore names k).
Proof.
  intros Hk Hnext. unfold streakBefore. rewrite Hk, Hnext, (firstn_succ _ _ _ Hk).
  rewrite rev_app_distr. cbn. rewrite String.eqb_refl. reflexivity.
Qed.

Lemma grouped_streak names distance i name :
  grouped names ->
  nth_error names i = Some name -> nth_error names (distance + i) = Some name ->
  streakBefore names (distance + i) = (distance + streakBefore names i)%nat.
Proof.
  intros Hgrouped. revert i. induction distance as [|distance IH]; intros i Hi Hj;
    [reflexivity|].
  assert (Hnext : nth_error names (S i) = Some name)
    by (apply (Hgrouped i (S distance + i)%nat); [lia | exact Hi | exact Hj]).
  replace (S distance + i)%nat with (distance + S i)%nat in * by lia.
  rewrite (IH (S i) Hnext Hj), (streakBefore_step _ _ _ Hi Hnext). lia.
Qed.

Lemma endsWithSpace_append (s : string) : endsWithSpace (s ++ " ") = true.
Proof.
  induction s as [|c s IH]; [reflexivity|].
  cbn [append endsWithSpace]. destruct (s ++ " ")%string eqn:Hrest; [|exact IH].
  destruct s; discriminate.
Qed.

Lemma append_space_inj (a b : string) : (a ++ " ")%string = (b ++ " ")%string -> a = b.
Proof.
  revert b. induction a as [|c a IH]; intros [|d b] H; cbn in H.
  - reflexivity.
  - inversion H. destruct b; discriminate.
  - inversion H. destruct a; discriminate.
  - inversion H. f_equal. apply IH. assumption.
Qed.

(** A name that does not end with a space can be read off its label,
    together with the number of spaces that were added. *)
Lemma label_inj a b m n :
  endsWithSpace a = false -> endsWithSpace b = false ->
  (a ++ spaces m)%string = (b ++ spaces n)%string -> a = b /\ m = n.
Proof.
  intros Ha Hb. revert n. induction m as [|m IH]; intros [|n] H; cbn [spaces] in H.
  - rewrite !append_empty in H. split; [exact H | reflexivity].
  - rewrite append_empty, <- append_assoc in H. rewrite H, endsWithSpace_append in Ha.
    discriminate.
  - rewrite append_empty, <- append_assoc in H. rewrite <- H, endsWithSpace_append in Hb.
    discriminate.
  - rewrite <- !append_assoc in H. apply append_space_inj in H.
    destruct (IH n H) as (-> & ->). split; reflexivity.
Qed.

Lemma getUniqueRideTypeNames_labels rideTypes :
  getUniqueRideTypeNames objectName rideTypes = labelsAfter [] (map objectName rideTypes).
Proof. exact (uniqueNamesLoop_labels rideTypes []). Qed.

(** X18.  [getUniqueRideTypeNames] gives one label per ride type, in the
    order of the ride types: the name of the ride type followed by one
    invisible space for every ride type directly before it that has the same
    name.  A name that differs from the one before it is left as it is. *)
Theorem unique_names_add_spaces (rideTypes : list RideType.t) :
  let names := map objectName rideTypes in
  let labels := getUniqueRideTypeNames objectName rideTypes in
  List.length labels = List.length rideTypes /\
  forall i name,
    nth_error names i = Some name ->
    nth_error labels i = Some (name ++ spaces (streakBefore names i))%string.
Proof.
  cbv zeta. rewrite getUniqueRideTypeNames_labels. split.
  - rewrite labelsAfter_length. apply length_map.
  - intros i name Hname. rewrite (labelsAfter_nth _ _ _ _ Hname).
    unfold streakBefore. rewrite Hname, app_nil_r. reflexivity.
Qed.

(** X19.  The labels are pairwise distinct when the ride types are grouped
    by name (a name that comes again later is also the name of the next ride
    type) and no name ends with a space. *)
Theorem unique_names_are_distinct (rideTypes : list RideType.t) :
  grouped (map objectName rideTypes) ->
  (forall rideType, In rideType rideTypes -> endsWithSpace (objectName rideType) = false) ->
  NoDup (getUniqueRideTypeNames objectName rideTypes).
Proof.
  intros Hgrouped Hnames.
  set (names := map objectName rideTypes) in *.
  assert (Hclean : forall i name, nth_error names i = Some name -> endsWithSpace name = false).
  { intros i name Hname. apply nth_error_In in Hname. apply in_map_iff in Hname.
    destruct Hname as (rideType & <- & Hin). apply Hnames, Hin. }
  rewrite getUniqueRideTypeNames_labels. fold names.
  assert (Hordered : forall i j a b, (i < j)%nat ->
            nth_error names i = Some a -> nth_error names j = Some b ->
            (a ++ spaces (streakBefore names i))%string
              <> (b ++ spaces (streakBefore names j))%string).
  { intros i j a b Hlt Ha Hb Hequal.
    destruct (label_inj a b _ _ (Hclean i a Ha) (Hclean j b Hb) Hequal) as (<- & Hsame).
    replace j with ((j - i) + i)%nat in Hb, Hsame by lia.
    rewrite (grouped_streak names (j - i) i a Hgrouped Ha Hb) in Hsame. lia. }
  assert (Hlabel : forall i name, nth_error names i = Some name ->
            nth_error (labelsAfter [] names) i
              = Some (name ++ spaces (streakBefore names i))%string).
  { intros i name Hname. rewrite (labelsAfter_nth _ _ _ _ Hname).
    unfold streakBefore. rewrite Hname, app_nil_r. reflexivity. }
  apply NoDup_nth_error. intros i j Hi Hsame.
  rewrite labelsAfter_length in Hi.
  destruct (nth_error names i) as [a|] eqn:Ha; [|apply nth_error_None in Ha; lia].
  rewrite (Hlabel i a Ha) in Hsame.
  destruct (nth_error names j) as [b|] eqn:Hb.
  - rewrite (Hlabel j b Hb) in Hsame. inversion Hsame as [Hequal].
    destruct (Nat.lt_trichotomy i j) as [Hlt|[Heq|Hgt]]; [exfalso | exact Heq | exfalso].
    + exact (Hordered i j a b Hlt Ha Hb Hequal).
    + exact (Hordered j i b a Hgt Hb Ha (eq_sym Hequal)).
  - apply nth_error_None in Hb. rewrite <- (labelsAfter_length []) in Hb.
    apply nth_error_None in Hb. rewrite Hb in Hsame. discriminate.
Qed.

End RideTypeNameFacts.

(** * The labels of the variants *)

Module DecimalFacts.

(** [toString] can be read back. *)
Lemma toString_inj a b : JS.toString a = JS.toString b -> a = b.
Proof.
  unfold JS.toString. intros H.
  assert (Hread : forall n, NilZero.int_of_string (NilZero.string_of_int (Z.to_int n))
                            = Some (Z.to_int n)).
  { intros n. apply NilZero.isi; destruct n as [|p|p]; cbn; try discriminate;
      intros Hnil; inversion Hnil as [Hp]; exact (DecimalPos.Unsigned.to_uint_nonnil p Hp). }
  pose proof (Hread a) as Ha. rewrite H, Hread in Ha. inversion Ha as [Hint].
  apply DecimalZ.to_int_inj. symmetry. exact Hint.
Qed.

Lemma leadingDigits_uint d rest :
  leadingDigits (NilEmpty.string_of_uint d ++ rest)
    = (NilEmpty.string_of_uint d ++ leadingDigits rest)%string.
Proof. induction d; cbn; try rewrite IHd; reflexivity. Qed.

(** The digits a string starts with, when it starts with a number that is
    not negative. *)
Lemma leadingDigits_toString (index : nat) rest :
  leadingDigits (JS.toString (Z.of_nat index) ++ rest)
    = (JS.toString (Z.of_nat index) ++ leadingDigits rest)%string.
Proof.
  unfold JS.toString. destruct (Z.of_nat index) as [|p|p] eqn:Hindex; [reflexivity | | lia].
  cbn [Z.to_int NilZero.string_of_int]. unfold NilZero.string_of_uint.
  destruct (Pos.to_uint p) eqn:Hp; try apply (leadingDigits_uint (Pos.to_uint p) rest);
    rewrite <- ?Hp; try apply leadingDigits_uint.
  exfalso. exact (DecimalPos.Unsigned.to_uint_nonnil p Hp).
Qed.

Lemma NoDup_map_injective {A B : Type} (f : A -> B) (l : list A) :
  (forall a b, f a = f b -> a = b) -> NoDup l -> NoDup (map f l).
Proof.
  intros Hinj. induction 1 as [|a l Hnotin Hnodup IH]; cbn; constructor; [|exact IH].
  intros Hin. apply in_map_iff in Hin. destruct Hin as (b & Hb & Hin).
  apply Hinj in Hb. subst b. contradiction.
Qed.

End DecimalFacts.

Section VariantFacts.

Variable RideVehicleVariant : Type.
Variable Visibility : Type.
Variable _visibility : RideVehicleVariant -> Visibility.
Variable isVisible : Visibility -> bool.
Variable isFalsy : Visibility -> bool.

Lemma append_empty_r (s : string) : (s ++ "")%string = s.
Proof. induction s as [|c s IH]; cbn; [reflexivity | rewrite IH; reflexivity]. Qed.

(** A label starts with the number of its variant, and nothing after it
    is a digit. *)
Lemma formatVariant_index variant index :
  leadingDigits (formatVariant _visibility isVisible isFalsy variant index)
    = JS.toString (Z.of_nat index).
Proof.
  unfold formatVariant.
  destruct (isVisible (_visibility variant)).
  - rewrite <- (append_empty_r (JS.toString (Z.of_nat index))) at 1.
    rewrite DecimalFacts.leadingDigits_toString. apply append_empty_r.
  - rewrite DecimalFacts.leadingDigits_toString.
    destruct (isFalsy (_visibility variant)); apply append_empty_r.
Qed.

Lemma variantItemsFrom_digits variants start :
  map leadingDigits (variantItemsFrom _visibility isVisible isFalsy variants start)
    = map (fun index => JS.toString (Z.of_nat index)) (seq start (List.length variants)).
Proof.
  revert start. induction variants as [|variant rest IH]; intros start; [reflexivity|].
  cbn [variantItemsFrom map List.length seq]. rewrite formatVariant_index, IH. reflexivity.
Qed.

(** X20.  The labels of the variant list tell the variants apart: there is
    one label per variant, every label starts with the position of its
    variant and has no digit right after it, so that no two labels of the
    list are the same, whatever the visibility of the variants. *)
Theorem variant_labels_are_distinct (variants : list RideVehicleVariant) :
  let labels := variantItems _visibility isVisible isFalsy variants in
  List.length labels = List.length variants /\
  (forall index label,
     nth_error labels index = Some label ->
     leadingDigits label = JS.toString (Z.of_nat index)) /\
  NoDup labels.
Proof.
  cbv zeta. unfold variantItems.
  assert (Hdigits := variantItemsFrom_digits variants 0).
  split; [|split].
  - rewrite <- (length_map leadingDigits), Hdigits, length_map. apply length_seq.
  - intros index label Hlabel.
    apply (map_nth_error leadingDigits) in Hlabel. rewrite Hdigits in Hlabel.
    destruct (nth_error (seq 0 (List.length variants)) index) as [position|] eqn:Hposition.
    + rewrite (map_nth_error _ _ _ Hposition) in Hlabel. inversion Hlabel.
      assert (Hlt : (index < List.length (seq 0 (List.length variants)))%nat)
        by (apply nth_error_Some; congruence).
      rewrite length_seq in Hlt.
      rewrite (nth_error_nth' _ 0%nat) in Hposition by (rewrite length_seq; exact Hlt).
      rewrite seq_nth in Hposition by exact Hlt. inversion Hposition. reflexivity.
    + apply nth_error_None in Hposition.
      assert (Hnone : nth_error (map (fun i => JS.toString (Z.of_nat i))
                         (seq 0 (List.length variants))) index = None)
        by (apply nth_error_None; rewrite length_map; exact Hposition).
      congruence.
  - apply (NoDup_map_inv leadingDigits). rewrite Hdigits.
    apply DecimalFacts.NoDup_map_injective; [|apply seq_NoDup].
    intros a b H. apply DecimalFacts.toString_inj in H. lia.
Qed.

End VariantFacts.

(** * What is kept between sessions *)

(** X21.  The choice "Side window sticks to main window" is read back as
    it was stored: after [setSticky isSticky] the store [stickySideWindow]
    starts with that choice and [isSideWindowSticky] moves the side window to
    the right edge of the main window, at its height, exactly when the choice
    is on; other keys of the storage are not touched.  With nothing stored
    under the key the two disagree: the store starts as [true], and
    [isSideWindowSticky] leaves the side window where it is. *)
Theorem sticky_choice_is_read_back
    (storage : SharedStorage.t) (isSticky : bool) (main side : Windows.Window) :
  let stored := Windows.setSticky isSticky storage in
  Windows.stickySideWindow stored = SharedStorage.Flag isSticky /\
  Windows.isSideWindowSticky stored (Some main) (Some side)
    = Some (if isSticky
            then {| Windows.x := Windows.x main + Windows.width main;
                    Windows.y := Windows.y main;
                    Windows.width := Windows.width side;
                    Windows.height := Windows.height side |}
            else side) /\
  (forall key, key <> "pe.sticky" ->
     SharedStorage.get key stored = SharedStorage.get key storage) /\
  (SharedStorage.get "pe.sticky" storage = None ->
   Windows.stickySideWindow storage = SharedStorage.Flag true /\
   Windows.isSideWindowSticky storage (Some main) (Some side) = Some side).
Proof.
  cbv zeta. unfold Windows.stickySideWindow, Windows.isSideWindowSticky, Windows.setSticky,
    SharedStorage.getOr, SharedStorage.get, SharedStorage.set.
  split; [reflexivity|]. split; [destruct isSticky, side; reflexivity|]. split.
  - intros key Hkey. destruct (String.eqb_spec key "pe.sticky"); [contradiction | reflexivity].
  - intros Hnone. rewrite Hnone. split; reflexivity.
Qed.

(** X22.  [setTheme] and the theme the window starts with do not meet:
    [getTheme] reads back what [setTheme] stored, but the store [theme] is
    read from another key, so that it starts with the same value whether or
    not [setTheme] was called - ["rct1"] when nothing was ever stored under
    its own key. *)
Theorem theme_store_ignores_setTheme
    (storage : SharedStorage.t) (chosen fallback : string) :
  Windows.getTheme fallback (Windows.setTheme chosen storage) = SharedStorage.Text chosen /\
  Windows.theme (Windows.setTheme chosen storage) = Windows.theme storage /\
  (SharedStorage.get "rve.theme" storage = None ->
   Windows.theme (Windows.setTheme chosen storage) = SharedStorage.Text "rct1").
Proof.
  unfold Windows.getTheme, Windows.theme, Windows.setTheme,
    SharedStorage.getOr, SharedStorage.get, SharedStorage.set.
  split; [reflexivity|]. split; [reflexivity|].
  intros Hnone. cbn. rewrite Hnone. reflexivity.
Qed.

(** * More of the clipboard *)

Section ClipboardOrigin.

Import VehicleEditorWindow.

Variable VehicleSettings : Type.
Variable W : Type.

Lemma click_fromCopyHandler copyHandler (c : Click W) (state : t VehicleSettings W * W) :
  fromCopyHandler copyHandler (fst state) ->
  fromCopyHandler copyHandler (fst (click c state)).
Proof.
  destruct state as [window w]. intros (Hhandler & Hheld).
  destruct c; cbn [click fst snd]; [|split; assumption|split; assumption].
  unfold onClickCopy, fromCopyHandler.
  destruct window as [copied pressed disabled onCopy onPaste].
  cbn in *. subst onCopy. destruct pressed; cbn.
  - split; [reflexivity | discriminate].
  - destruct copyHandler as [handler|]; cbn; [|split; [reflexivity | exact Hheld]].
    destruct (handler w) as [captured|] eqn:Hcaptured; cbn; (split; [reflexivity|]).
    + intros settings Hsettings. inversion Hsettings. subst.
      exists handler, w. split; [reflexivity | exact Hcaptured].
    + discriminate.
Qed.

Lemma clicks_fromCopyHandler copyHandler (cs : list (Click W)) (state : t VehicleSettings W * W) :
  fromCopyHandler copyHandler (fst state) ->
  fromCopyHandler copyHandler (fst (clicks cs state)).
Proof.
  revert state. induction cs as [|c rest IH]; intros state Hstate; [exact Hstate|].
  cbn [clicks]. apply IH, click_fromCopyHandler, Hstate.
Qed.

Lemma clicks_pasteHandler (cs : list (Click W)) (state : t VehicleSettings W * W) :
  onPasteVehicle (fst (clicks cs state)) = onPasteVehicle (fst state).
Proof.
  revert state. induction cs as [|c rest IH]; intros state; [reflexivity|].
  cbn [clicks]. rewrite IH. destruct state as [window w], c; cbn [click fst snd];
    try reflexivity.
  unfold onClickCopy. destruct window as [copied [|] disabled [handler|] onPaste]; cbn;
    try reflexivity.
  destruct (handler w); reflexivity.
Qed.

(** X23.  Whatever the clipboard holds was captured by the copy handler:
    after any sequence of clicks on the two buttons and changes of the game,
    starting from the loaded window, a snapshot held is a snapshot the copy
    handler returned for some state of the game - so a window without a copy
    handler never holds one - and it is the only thing the paste button hands
    to the paste handler. *)
Theorem clipboard_holds_only_copies
    (copyHandler : option (W -> option VehicleSettings))
    (pasteHandler : option (VehicleSettings -> W -> W))
    (cs : list (Click W)) (w0 : W) :
  let state := clicks cs (loaded copyHandler pasteHandler, w0) in
  (forall settings,
     copiedVehicleSettings (fst state) = Some settings ->
     exists handler world, copyHandler = Some handler /\ handler world = Some settings) /\
  (copyHandler = None -> copiedVehicleSettings (fst state) = None) /\
  (forall handler, pasteHandler = Some handler ->
     onClickPaste (fst state) (snd state) = snd state \/
     exists captured world settings,
       copyHandler = Some captured /\ captured world = Some settings /\
       onClickPaste (fst state) (snd state) = handler settings (snd state)).
Proof.
  cbv zeta.
  pose proof (clicks_fromCopyHandler copyHandler cs (loaded copyHandler pasteHandler, w0))
    as Hinvariant.
  pose proof (clicks_pasteHandler cs (loaded copyHandler pasteHandler, w0)) as Hpaste.
  destruct Hinvariant as (_ & Hheld); [split; [reflexivity | discriminate]|].
  set (state := clicks cs (loaded copyHandler pasteHandler, w0)) in *.
  change (onPasteVehicle (fst (loaded copyHandler pasteHandler, w0))) with pasteHandler
    in Hpaste.
  split; [exact Hheld|]. split.
  - intros ->. destruct (copiedVehicleSettings (fst state)) as [settings|] eqn:Hsettings;
      [|reflexivity].
    destruct (Hheld settings eq_refl) as (handler & _ & Hnone & _). discriminate.
  - intros handler ->. unfold onClickPaste. rewrite Hpaste.
    destruct (copiedVehicleSettings (fst state)) as [settings|] eqn:Hsettings;
      [right | left; reflexivity].
    destruct (Hheld settings eq_refl) as (captured & world & Hcopy & Hcaptured).
    exists captured, world, settings. repeat split; assumption.
Qed.

End ClipboardOrigin.

(** * The further theorems at concrete inputs *)

(** X1 after the second car was chosen: the selected vehicle is the item
    of [_vehicles] at position 1. *)
Lemma selections_point_into_lists_witness :
  reachable Examples.noTargets Examples.noSubscriptions Examples.secondCar /\
  _selectedVehicle (fst Examples.secondCar) = Some (Examples.vehicle 11, 1%nat) /\
  nth_error (_vehicles (fst Examples.secondCar)) 1 = Some (Examples.vehicle 11).
Proof.
  assert (Hreach : reachable Examples.noTargets Examples.noSubscriptions Examples.secondCar)
    by (exists Examples.secondCarRun; reflexivity).
  split; [exact Hreach|]. split; [reflexivity|].
  destruct (selections_point_into_lists Examples.noTargets Examples.noSubscriptions
              Examples.secondCar Hreach) as (_ & _ & Hvehicle & _).
  apply Hvehicle. reflexivity.
Defined.

(** X2 after the second car of three was chosen. *)
Lemma amount_maximum_in_range_witness :
  reachable Examples.noTargets Examples.noSubscriptions Examples.secondCar /\
  1 <= amount_maximum (fst Examples.secondCar).
Proof.
  assert (Hreach : reachable Examples.noTargets Examples.noSubscriptions Examples.secondCar)
    by (exists Examples.secondCarRun; reflexivity).
  split; [exact Hreach|].
  exact (proj1 (amount_maximum_in_range Examples.noTargets Examples.noSubscriptions
                  Examples.secondCar Hreach)).
Defined.

(** X3 at the closed window: a car with six seats is picked, and the
    mirrored stores still show the four seats of before. *)
Lemma closed_window_pulls_nothing_witness :
  reachable Examples.noTargets Examples.noSubscriptions Cases.closed /\
  JS.truthy (_isOpen (fst Cases.closed)) = false /\
  mirroredFields
    (fst (step Examples.noTargets Examples.game1 (CarPicked (Examples.carOf 21)) Cases.closed))
    = mirroredFields (fst Cases.closed).
Proof.
  assert (Hreach : reachable Examples.noTargets Examples.noSubscriptions Cases.closed)
    by (exists Cases.closedRun; reflexivity).
  assert (Hclosed : JS.truthy (_isOpen (fst Cases.closed)) = false) by reflexivity.
  split; [exact Hreach|]. split; [exact Hclosed|].
  apply (closed_window_pulls_nothing Examples.noTargets Examples.noSubscriptions Cases.closed
           Examples.game1 (CarPicked (Examples.carOf 21)) Hreach Hclosed).
  - intros types rides H. discriminate H.
  - intros value H. discriminate H.
Defined.

(** X4 at the first opening of the window on the park with both rides. *)
Lemma open_selects_and_pulls_witness :
  reachable Examples.noTargets Examples.noSubscriptions
    (Examples.freshModel, Examples.noSubscriptions) /\
  _isOpen (fst (_open Examples.noTargets Examples.game0 [Examples.type7]
                  [Examples.ride1; Examples.ride2]
                  (Examples.freshModel, Examples.noSubscriptions))) = Some true.
Proof.
  assert (Hreach : reachable Examples.noTargets Examples.noSubscriptions
                     (Examples.freshModel, Examples.noSubscriptions))
    by (exists []; reflexivity).
  split; [exact Hreach|].
  exact (proj1 (open_selects_and_pulls Examples.noTargets Examples.noSubscriptions
                  (Examples.freshModel, Examples.noSubscriptions) Examples.game0
                  [Examples.type7] Examples.ride1 [Examples.ride2] Hreach)).
Defined.

(** X5 at the opened window: the second car of the second train is
    picked. *)
Lemma select_finds_car_witness :
  nth_error (_rides (fst Examples.opened)) 0 = Some Examples.ride1 /\
  ParkRide._id Examples.ride1 = Car.ride (Examples.carOf 21) /\
  In Examples.train2 (ParkRide._trains Examples.ride1) /\
  In (Examples.vehicle 21) (RideTrain._vehicles Examples.train2) /\
  RideVehicle._id (Examples.vehicle 21) = Car.id (Examples.carOf 21) /\
  exists found t selected v,
    _selectedVehicle (_select Examples.noTargets Examples.game0 (Examples.carOf 21)
                        (fst Examples.opened)) = Some (selected, v) /\
    _selectedTrain (_select Examples.noTargets Examples.game0 (Examples.carOf 21)
                      (fst Examples.opened)) = Some (found, t) /\
    RideVehicle._id selected = Car.id (Examples.carOf 21).
Proof.
  assert (Hride : nth_error (_rides (fst Examples.opened)) 0 = Some Examples.ride1)
    by reflexivity.
  assert (Hid : ParkRide._id Examples.ride1 = Car.ride (Examples.carOf 21)) by reflexivity.
  assert (Htrain : In Examples.train2 (ParkRide._trains Examples.ride1))
    by (right; left; reflexivity).
  assert (Hvehicle : In (Examples.vehicle 21) (RideTrain._vehicles Examples.train2))
    by (right; left; reflexivity).
  assert (Hcar : RideVehicle._id (Examples.vehicle 21) = Car.id (Examples.carOf 21))
    by reflexivity.
  repeat (split; [assumption|]).
  destruct (select_finds_car Examples.noTargets Examples.game0 (Examples.carOf 21)
              (fst Examples.opened) 0%nat Examples.ride1 Examples.train2 (Examples.vehicle 21)
              Hride Hid ltac:(intros k other Hk; lia) Htrain Hvehicle Hcar)
    as (found & t & selected & v & _ & _ & Hfound & _ & _ & Hselected & _ & Hsame & _).
  exists found, t, selected, v. repeat split; assumption.
Defined.

(** X6 at the opened window and a car of a ride that is not listed. *)
Lemma select_without_match_witness :
  (forall ride, In ride (_rides (fst Examples.opened)) ->
     ParkRide._id ride <> Car.ride Cases.strayCar) /\
  _select Examples.noTargets Examples.game0 Cases.strayCar (fst Examples.opened)
    = fst Examples.opened.
Proof.
  assert (Hnone : forall ride, In ride (_rides (fst Examples.opened)) ->
                    ParkRide._id ride <> Car.ride Cases.strayCar).
  { intros ride [<-|[<-|[]]]; discriminate. }
  split; [exact Hnone|].
  exact (proj1 (select_without_match Examples.noTargets Examples.game0 Cases.strayCar
                  (fst Examples.opened)) Hnone).
Defined.

(** X7 at the opened window: the status of the selected ride changed, and
    the ride and the selected train are still there. *)
Lemma playerAction_ignored_witness :
  PlayerAction.action Cases.rideClosed = "ridesetstatus" /\
  _selectedTrain (fst Examples.opened) = Some (Examples.train1, 0%nat) /\
  PlayerAction.train_refresh Cases.unchangedPark Examples.train1 = true /\
  _onPlayerActionExecuted Examples.noTargets Examples.game0 Cases.unchangedPark
    Cases.rideClosed (fst Examples.opened) = fst Examples.opened.
Proof.
  split; [reflexivity|]. split; [reflexivity|]. split; [reflexivity|].
  destruct (playerAction_ignored Examples.noTargets Examples.game0 Cases.unchangedPark
              Cases.rideClosed (fst Examples.opened)) as (_ & _ & _ & _ & Hstill).
  apply (Hstill eq_refl Examples.train1 0%nat eq_refl); [|reflexivity].
  intros ride Hin. reflexivity.
Defined.

(** X8 at the opened window: the selected ride was closed and its trains
    are gone. *)
Lemma playerAction_trains_removed_witness :
  reachable Examples.noTargets Examples.noSubscriptions Examples.opened /\
  _selectedRide (fst Examples.opened) = Some (Examples.ride1, 0%nat) /\
  (exists train t, _selectedTrain (fst Examples.opened) = Some (train, t) /\
     PlayerAction.train_refresh Cases.trainsGone train = false) /\
  _selectedVehicle (_onPlayerActionExecuted Examples.noTargets Examples.game0
                      Cases.trainsGone Cases.rideClosed (fst Examples.opened)) = None /\
  _seats (_onPlayerActionExecuted Examples.noTargets Examples.game0
            Cases.trainsGone Cases.rideClosed (fst Examples.opened)) = 4.
Proof.
  assert (Hreach : reachable Examples.noTargets Examples.noSubscriptions Examples.opened)
    by (exists Examples.openedRun; reflexivity).
  assert (Hselected : _selectedRide (fst Examples.opened) = Some (Examples.ride1, 0%nat))
    by reflexivity.
  assert (Hgone : exists train t, _selectedTrain (fst Examples.opened) = Some (train, t) /\
                    PlayerAction.train_refresh Cases.trainsGone train = false)
    by (exists Examples.train1, 0%nat; split; reflexivity).
  split; [exact Hreach|]. split; [exact Hselected|]. split; [exact Hgone|].
  destruct (playerAction_trains_removed Examples.noTargets Examples.noSubscriptions
              Examples.opened Examples.game0 Cases.trainsGone Cases.rideClosed
              Examples.ride1 0%nat Hreach eq_refl eq_refl Hselected eq_refl (or_intror Hgone))
    as (_ & _ & _ & Hvehicle & _ & _ & Hmirror).
  split; [exact Hvehicle|].
  exact (f_equal (fun fields => snd (fst (fst (fst (fst fields))))) Hmirror).
Defined.

(** X9 at the window opened on a ride without trains: the ride is opened
    and a train of two cars appears. *)
Lemma playerAction_trains_spawned_witness :
  reachable Examples.noTargets Examples.noSubscriptions Cases.openedEmpty /\
  _onPlayerAction (fst Cases.openedEmpty) <> None /\
  _selectedRide (fst Cases.openedEmpty) = Some (Examples.ride2, 0%nat) /\
  _selectedTrain (fst Cases.openedEmpty) = None /\
  _selectedVehicle (_onPlayerActionExecuted Examples.noTargets Examples.game0
                      Cases.trainSpawned Cases.rideOpened (fst Cases.openedEmpty))
    = Some (Examples.vehicle 20, 0%nat).
Proof.
  assert (Hreach : reachable Examples.noTargets Examples.noSubscriptions Cases.openedEmpty)
    by (exists Cases.openedEmptyRun; reflexivity).
  assert (Hsubscribed : _onPlayerAction (fst Cases.openedEmpty) <> None)
    by (intros H; discriminate H).
  assert (Hselected : _selectedRide (fst Cases.openedEmpty) = Some (Examples.ride2, 0%nat))
    by reflexivity.
  assert (Htrain : _selectedTrain (fst Cases.openedEmpty) = None) by reflexivity.
  split; [exact Hreach|]. split; [exact Hsubscribed|]. split; [exact Hselected|].
  split; [exact Htrain|].
  destruct (playerAction_trains_spawned Examples.noTargets Examples.noSubscriptions
              Cases.openedEmpty Examples.game0 Cases.trainSpawned Cases.rideOpened
              Examples.ride2 0%nat Examples.train2 []
              Hreach Hsubscribed eq_refl eq_refl Hselected eq_refl Htrain
              ltac:(intros ride Hin Hid; split; reflexivity))
    as (_ & _ & _ & Hvehicle & _).
  exact Hvehicle.
Defined.

(** X10 at the opened window and the closing of the selected ride. *)
Lemma playerAction_keeps_reachable_witness :
  reachable Examples.noTargets Examples.noSubscriptions Examples.opened /\
  reachable Examples.noTargets Examples.noSubscriptions
    (playerActionExecuted Examples.noTargets Examples.game0 Cases.trainsGone
       Cases.rideClosed Examples.opened).
Proof.
  assert (Hreach : reachable Examples.noTargets Examples.noSubscriptions Examples.opened)
    by (exists Examples.openedRun; reflexivity).
  split; [exact Hreach|].
  exact (proj1 (playerAction_keeps_reachable Examples.noTargets Examples.noSubscriptions
                  Examples.opened Examples.game0 Cases.trainsGone Cases.rideClosed Hreach)).
Defined.

(** X11 at the filter with bit 1: its box is checked after it was
    enabled. *)
Lemma filter_checkbox_reads_back_witness :
  (exists i, 0 <= i < 32 /\ Z.testbit 2 i = true) /\
  filter_isChecked 2 (_setFilter 2 true Examples.freshModel) = true.
Proof.
  assert (Hbit : exists i, 0 <= i < 32 /\ Z.testbit 2 i = true)
    by (exists 1; split; [lia | reflexivity]).
  split; [exact Hbit|].
  exact (proj1 (filter_checkbox_reads_back 2 1 true Examples.freshModel Hbit)).
Defined.

(** X12 at the spinner that was built and never set: a click on its
    increment button reaches no [onChange]. *)
Lemma spinner_without_choice_ignores_clicks_witness :
  SpinnerComponent._isActive Examples.variantSpinner = false /\
  snd (SpinnerCallbacks.onIncrement SpinnerCallbacks.noteChange
         (SpinnerComponent.refreshWidget Examples.variantSpinner, [])) = [].
Proof.
  split; [reflexivity|].
  exact (proj1 (spinner_without_choice_ignores_clicks (list (Z * Z))
                  SpinnerCallbacks.noteChange Examples.variantSpinner []
                  (or_introl eq_refl) _ (or_introl eq_refl))).
Defined.

(** X13 at the spinner set to 4: a click that adds 1 reports 5. *)
Lemma spinner_click_reports_stored_value_witness :
  SpinnerComponent.isDisabled (SpinnerComponent.widget Cases.boundSpinner) = false /\
  SpinnerComponent.minimum Cases.boundSpinner < SpinnerComponent.maximum Cases.boundSpinner /\
  4 + 1 <> SpinnerComponent._value Cases.boundSpinner /\
  SpinnerComponent._value
    (fst (SpinnerCallbacks.onWidgetChange
            (Some (fun value adjustment calls => calls ++ [(value, adjustment)]))
            4 1 (Cases.boundSpinner, []))) = 5.
Proof.
  assert (Henabled :
    SpinnerComponent.isDisabled (SpinnerComponent.widget Cases.boundSpinner) = false)
    by reflexivity.
  assert (Hlt : SpinnerComponent.minimum Cases.boundSpinner
                < SpinnerComponent.maximum Cases.boundSpinner) by reflexivity.
  assert (Hnew : 4 + 1 <> SpinnerComponent._value Cases.boundSpinner)
    by (intros H; discriminate H).
  split; [exact Henabled|]. split; [exact Hlt|]. split; [exact Hnew|].
  destruct (spinner_click_reports_stored_value (list (Z * Z))
              (fun value adjustment calls => calls ++ [(value, adjustment)])
              4 1 Cases.boundSpinner [] Henabled Hlt) as (_ & Hstored & _).
  exact (proj1 (Hstored (or_introl Hnew))).
Defined.

(** X14 at the spinner set to 4. *)
Lemma spinner_up_and_down_again_witness :
  SpinnerComponent.isDisabled (SpinnerComponent.widget Cases.boundSpinner) = false /\
  0 < SpinnerComponent.increment Cases.boundSpinner /\
  SpinnerComponent.minimum Cases.boundSpinner <= SpinnerComponent._value Cases.boundSpinner /\
  SpinnerComponent._value Cases.boundSpinner + SpinnerComponent.increment Cases.boundSpinner
    <= SpinnerComponent.maximum Cases.boundSpinner - 1 /\
  SpinnerComponent._value
    (fst (SpinnerCallbacks.onDecrement SpinnerCallbacks.noteChange
            (SpinnerCallbacks.onIncrement SpinnerCallbacks.noteChange
               (Cases.boundSpinner, [])))) = 4.
Proof.
  assert (Henabled :
    SpinnerComponent.isDisabled (SpinnerComponent.widget Cases.boundSpinner) = false)
    by reflexivity.
  assert (Hstep : 0 < SpinnerComponent.increment Cases.boundSpinner) by reflexivity.
  assert (Hlow : SpinnerComponent.minimum Cases.boundSpinner
                 <= SpinnerComponent._value Cases.boundSpinner)
    by (intros H; discriminate H).
  assert (Hhigh : SpinnerComponent._value Cases.boundSpinner
                  + SpinnerComponent.increment Cases.boundSpinner
                  <= SpinnerComponent.maximum Cases.boundSpinner - 1)
    by (intros H; discriminate H).
  repeat (split; [assumption|]).
  destruct (spinner_up_and_down_again (list (Z * Z))
              (fun value adjustment calls => calls ++ [(value, adjustment)])
              Cases.boundSpinner [] Henabled Hstep Hlow Hhigh) as (_ & Hback & _).
  exact Hback.
Defined.

(** X15 at the spinner that was built and is set to 12 twice. *)
Lemma spinner_set_twice_witness :
  SpinnerComponent.minimum Examples.variantSpinner
    < SpinnerComponent.maximum Examples.variantSpinner /\
  SpinnerComponent.set 12 (SpinnerComponent.set 12 Examples.variantSpinner)
    = SpinnerComponent.set 12 Examples.variantSpinner.
Proof.
  assert (Hlt : SpinnerComponent.minimum Examples.variantSpinner
                < SpinnerComponent.maximum Examples.variantSpinner) by reflexivity.
  split; [exact Hlt|].
  exact (spinner_set_twice 12 Examples.variantSpinner Hlt).
Defined.

(** X17 at a viewport that follows a car: a refresh subscribes to
    nothing. *)
Lemma viewport_refresh_subscribes_once_witness :
  (ViewportComponent._isActive (fst Cases.followingViewport)
   && negb (ViewportComponent._entityId (fst Cases.followingViewport) =? -1)) = true /\
  snd (ViewportComponent.refreshWidget Cases.entityPosition Cases.unconcerned
         Cases.followingViewport) = snd Cases.followingViewport.
Proof.
  split; [reflexivity|].
  destruct (viewport_refresh_subscribes_once Cases.entityPosition Cases.unconcerned
              (fst Cases.followingViewport) (snd Cases.followingViewport))
    as (Hfollowing & _).
  exact (proj1 (Hfollowing eq_refl)).
Defined.

(** X18 at two pairs of ride types with the same name: the second of a
    pair gets one space. *)
Lemma unique_names_add_spaces_witness :
  nth_error (map Cases.typeNames Cases.fourTypes) 1 = Some "Wooden Roller Coaster Trains" /\
  nth_error (getUniqueRideTypeNames Cases.typeNames Cases.fourTypes) 1
    = Some "Wooden Roller Coaster Trains ".
Proof.
  split; [reflexivity|].
  exact (proj2 (unique_names_add_spaces Cases.typeNames Cases.fourTypes) 1%nat
           "Wooden Roller Coaster Trains" eq_refl).
Defined.

(** X19 at the same ride types. *)
Lemma unique_names_are_distinct_witness :
  grouped (map Cases.typeNames Cases.fourTypes) /\
  (forall rideType, In rideType Cases.fourTypes ->
     endsWithSpace (Cases.typeNames rideType) = false) /\
  NoDup (getUniqueRideTypeNames Cases.typeNames Cases.fourTypes).
Proof.
  assert (Hgrouped : grouped (map Cases.typeNames Cases.fourTypes)).
  { intros i j name Hlt Hi Hj.
    destruct i as [|[|[|[|i]]]]; destruct j as [|[|[|[|j]]]]; cbn in *;
      try lia; try discriminate; try congruence;
      try (destruct j; discriminate); destruct i; discriminate. }
  assert (Hclean : forall rideType, In rideType Cases.fourTypes ->
                     endsWithSpace (Cases.typeNames rideType) = false).
  { intros rideType Hin. unfold Cases.typeNames.
    destruct (RideType._id rideType <? 3); reflexivity. }
  split; [exact Hgrouped|]. split; [exact Hclean|].
  exact (unique_names_are_distinct Cases.typeNames Cases.fourTypes Hgrouped Hclean).
Defined.

(** X20 at a visible variant, one shown as a green square and an
    invisible one. *)
Lemma variant_labels_are_distinct_witness :
  nth_error (variantItems Cases.visibilityOf (Z.eqb 1) (Z.eqb 0) Cases.threeVariants) 1
    = Some "1  (green square)" /\
  leadingDigits "1  (green square)" = JS.toString 1.
Proof.
  assert (Hlabel :
    nth_error (variantItems Cases.visibilityOf (Z.eqb 1) (Z.eqb 0) Cases.threeVariants) 1
      = Some "1  (green square)") by reflexivity.
  split; [exact Hlabel|].
  exact (proj1 (proj2 (variant_labels_are_distinct Z Z Cases.visibilityOf (Z.eqb 1) (Z.eqb 0)
                         Cases.threeVariants))
           1%nat "1  (green square)" Hlabel).
Defined.

(** X21 at a storage that holds nothing: the store starts as [true] and
    the side window stays where it is. *)
Lemma sticky_choice_is_read_back_witness :
  SharedStorage.get "pe.sticky" SharedStorage.empty = None /\
  Windows.stickySideWindow SharedStorage.empty = SharedStorage.Flag true /\
  Windows.isSideWindowSticky SharedStorage.empty (Some Cases.mainAt) (Some Cases.sideAt)
    = Some Cases.sideAt.
Proof.
  split; [reflexivity|].
  destruct (sticky_choice_is_read_back SharedStorage.empty true Cases.mainAt Cases.sideAt)
    as (_ & _ & _ & Hnever).
  exact (Hnever eq_refl).
Defined.

(** X22 at a storage that holds nothing: after [setTheme "rct2"] the
    window still starts with ["rct1"]. *)
Lemma theme_store_ignores_setTheme_witness :
  SharedStorage.get "rve.theme" SharedStorage.empty = None /\
  Windows.theme (Windows.setTheme "rct2" SharedStorage.empty) = SharedStorage.Text "rct1".
Proof.
  split; [reflexivity|].
  destruct (theme_store_ignores_setTheme SharedStorage.empty "rct2" "rct1")
    as (_ & _ & Hstart).
  exact (Hstart eq_refl).
Defined.

(** X23 at a window without a copy handler: a click on the copy button
    leaves the clipboard empty. *)
Lemma clipboard_holds_only_copies_witness :
  VehicleEditorWindow.copiedVehicleSettings
    (fst (VehicleEditorWindow.clicks [VehicleEditorWindow.CopyClicked]
            (VehicleEditorWindow.loaded (@None (Z -> option Z)) None, 1))) = None.
Proof.
  destruct (clipboard_holds_only_copies Z Z None None [VehicleEditorWindow.CopyClicked] 1)
    as (_ & Hnone & _).
  exact (Hnone eq_refl).
Defined.

(** * Closing and opening again *)

Section ReopenFacts.

Variable getTargets :
  Z -> option (ParkRide.t * nat) -> option (RideTrain.t * nat) ->
  option (RideVehicle.t * nat) -> list VehicleSpan.

Lemma nextSelection_keeps {T : Type} (entity item : T) index items :
  nth_error items index = Some item ->
  nextSelection (Some (entity, index)) items = Some (item, index).
Proof.
  intros Hitem. unfold nextSelection.
  assert (Hlt : (index < List.length items)%nat)
    by (apply nth_error_Some; rewrite Hitem; discriminate).
  assert ((0 <? List.length items)%nat = true) as -> by (apply Nat.ltb_lt; lia).
  assert ((index <? List.length items)%nat = true) as -> by (apply Nat.ltb_lt; lia).
  rewrite Hitem. reflexivity.
Qed.

(** X24.  Closing the window and opening it again on the same park keeps
    the selection: in a state the view model can be in, with a ride selected
    whose trains are those in [_trains], the ride is selected at the same
    position after [_close] and [_open] with the same list of rides, and so
    are the train and the vehicle that were selected; the multiplier and the
    synchronize flag are back at their defaults, and the window counts as
    open. *)
Theorem reopen_keeps_selection
    (before : Context.t) (state : VehicleViewModel * Context.t) (game : Game)
    (types : list RideType.t) (ride : ParkRide.t) (position : nat) :
  reachable getTargets before state ->
  _selectedRide (fst state) = Some (ride, position) ->
  _trains (fst state) = ParkRide._trains ride ->
  let vm := fst state in
  let vm' := fst (_open getTargets game types (_rides vm) (_close state)) in
  _selectedRide vm' = Some (ride, position) /\
  (forall train t, _selectedTrain vm = Some (train, t) ->
     _selectedTrain vm' = Some (train, t)) /\
  (forall vehicle v, _selectedVehicle vm = Some (vehicle, v) ->
     _selectedVehicle vm' = Some (vehicle, v)) /\
  _rides vm' = _rides vm /\ _trains vm' = _trains vm /\
  _multiplierIndex vm' = 0 /\ _synchronizeTargets vm' = false /\
  _isOpen vm' = Some true.
Proof.
  intros Hreachable Hride Htrains. cbv zeta.
  pose proof (reachable_consistent getTargets before state Hreachable) as (Hpre & _).
  destruct (reachable_positioned getTargets before state Hreachable)
    as (Hrides & Htrain & Hvehicle & Hvehicles).
  destruct state as [vm context]. cbn [fst] in *.
  unfold _close.
  match goal with
  | |- context [_open getTargets game types (_rides vm) (?closed, ?c)] =>
      set (vmC := closed); set (contextC := c)
  end.
  assert (Hsame : _selectedRide vmC = _selectedRide vm /\ _selectedTrain vmC = _selectedTrain vm /\
                  _selectedVehicle vmC = _selectedVehicle vm /\ _rides vmC = _rides vm /\
                  _trains vmC = _trains vm /\ _vehicles vmC = _vehicles vm /\
                  _multiplierIndex vmC = 0 /\ _synchronizeTargets vmC = false)
    by (destruct vm; repeat split).
  clearbody vmC contextC.
  destruct Hsame as (Hr & Ht & Hv & Hrs & Hts & Hvs & Hmultiplier & Hsynchronize).
  destruct (open_flag getTargets game types (_rides vm) (vmC, contextC)) as (Hopen & _).
  assert (Hfixed :
    _multiplierIndex (fst (_open getTargets game types (_rides vm) (vmC, contextC))) = 0 /\
    _synchronizeTargets (fst (_open getTargets game types (_rides vm) (vmC, contextC))) = false).
  { unfold _open.
    set (vm0 := vmC <| _isOpen := Some true |> <| _rideTypes := types |>).
    destruct (fixed_parts _ _ (proj2 (proj2 (set_rides_frame getTargets game (_rides vm) vm0))))
      as (_ & _ & Hs & _ & _ & _ & _ & Hm).
    set (vmA := set_rides getTargets game (_rides vm) vm0) in *.
    assert (Hm0 : _multiplierIndex vmA = 0) by (rewrite Hm; destruct vmC; exact Hmultiplier).
    assert (Hs0 : _synchronizeTargets vmA = false)
      by (rewrite Hs; destruct vmC; exact Hsynchronize).
    clearbody vmA. clear Hm Hs.
    destruct vmA as [? ? ? ? ? ? ? ? ? ? ? ? ? ? ? ? ? ? ? ? ? ? ? ? ? ? ? ? [a|] [t|]];
      cbn in *; split; assumption. }
  destruct (open_hierarchy getTargets game types (_rides vm) vmC contextC)
    as (_ & -> & -> & -> & -> & -> & _).
  set (vm0 := vmC <| _isOpen := Some true |> <| _rideTypes := types |>).
  rewrite set_rides_unfold.
  replace (_selectedRide vm0) with (Some (ride, position))
    by (rewrite <- Hride, <- Hr; destruct vmC; reflexivity).
  rewrite (nextSelection_keeps ride ride position (_rides vm) (Hrides _ _ Hride)).
  set (vm1 := vm0 <| _rides := _rides vm |>).
  assert (H1 : _selectedTrain vm1 = _selectedTrain vm /\
               _selectedVehicle vm1 = _selectedVehicle vm)
    by (rewrite <- Ht, <- Hv; destruct vmC; split; reflexivity).
  destruct H1 as (Ht1 & Hv1).
  destruct (set_selectedRide_frame getTargets game (Some (ride, position)) vm1)
    as (Hride' & Hrides' & _).
  assert (Hnotified :
    set_selectedRide getTargets game (Some (ride, position)) vm1
      = set_trains getTargets game (ParkRide._trains ride)
          (vm1 <| _selectedRide := Some (ride, position) |>)).
  { unfold set_selectedRide, notify_selectedRide.
    destruct (_selectedRide vm1); destruct vm1; reflexivity. }
  set (vm2 := vm1 <| _selectedRide := Some (ride, position) |>) in *.
  assert (H2 : _selectedTrain vm2 = _selectedTrain vm /\
               _selectedVehicle vm2 = _selectedVehicle vm)
    by (rewrite <- Ht1, <- Hv1; destruct vm1; split; reflexivity).
  destruct H2 as (Ht2 & Hv2).
  destruct (set_trains_frame getTargets game (ParkRide._trains ride) vm2)
    as (Htrains' & Htrain' & _).
  split; [exact Hride'|]. split; [|split; [|split; [|split]]].
  - intros train t Hselected. rewrite Hnotified, Htrain', Ht2, Hselected.
    apply nextSelection_keeps. rewrite <- Htrains. exact (Htrain _ _ Hselected).
  - intros vehicle v Hselected.
    destruct (_selectedTrain vm) as [[train t]|] eqn:Hselection.
    2:{ destruct (Hpre eq_refl) as (_ & Hnone). congruence. }
    rewrite Hnotified, set_trains_unfold, Ht2.
    rewrite (nextSelection_keeps train train t (ParkRide._trains ride))
      by (rewrite <- Htrains; exact (Htrain _ _ eq_refl)).
    destruct (set_selectedTrain_cascade getTargets game (Some (train, t))
                (vm2 <| _trains := ParkRide._trains ride |>))
      as [(_ & Hnone & _) | (_ & _ & ->)]; [discriminate|].
    replace (_selectedVehicle (vm2 <| _trains := ParkRide._trains ride |>))
      with (Some (vehicle, v)) by (rewrite <- Hselected, <- Hv2; destruct vm2; reflexivity).
    apply nextSelection_keeps. rewrite <- Hvehicles. exact (Hvehicle _ _ Hselected).
  - rewrite Hrides'. destruct vm0; reflexivity.
  - rewrite Hnotified, Htrains'. symmetry. exact Htrains.
  - destruct Hfixed as (Hm & Hs). split; [exact Hm|]. split; [exact Hs | exact Hopen].
Qed.

End ReopenFacts.

(** X24 at the window in which the second car was chosen. *)
Lemma reopen_keeps_selection_witness :
  reachable Examples.noTargets Examples.noSubscriptions Examples.secondCar /\
  _selectedRide (fst Examples.secondCar) = Some (Examples.ride1, 0%nat) /\
  _trains (fst Examples.secondCar) = ParkRide._trains Examples.ride1 /\
  _selectedVehicle (fst Examples.secondCar) = Some (Examples.vehicle 11, 1%nat) /\
  _selectedVehicle
    (fst (_open Examples.noTargets Examples.game1 [Examples.type7]
            (_rides (fst Examples.secondCar)) (_close Examples.secondCar)))
    = Some (Examples.vehicle 11, 1%nat).
Proof.
  assert (Hreach : reachable Examples.noTargets Examples.noSubscriptions Examples.secondCar)
    by (exists Examples.secondCarRun; reflexivity).
  assert (Hride : _selectedRide (fst Examples.secondCar) = Some (Examples.ride1, 0%nat))
    by reflexivity.
  assert (Htrains : _trains (fst Examples.secondCar) = ParkRide._trains Examples.ride1)
    by reflexivity.
  assert (Hvehicle : _selectedVehicle (fst Examples.secondCar)
                     = Some (Examples.vehicle 11, 1%nat)) by reflexivity.
  repeat (split; [assumption|]).
  destruct (reopen_keeps_selection Examples.noTargets Examples.noSubscriptions
              Examples.secondCar Examples.game1 [Examples.type7] Examples.ride1 0%nat
              Hreach Hride Htrains) as (_ & _ & Hkept & _).
  exact (Hkept (Examples.vehicle 11) 1%nat Hvehicle).
Defined.

(** * The refresh callback and the lock on the position *)

Section RefreshFacts.

Variable getTargets :
  Z -> option (ParkRide.t * nat) -> option (RideTrain.t * nat) ->
  option (RideVehicle.t * nat) -> list VehicleSpan.

Lemma isMoving_statuses status :
  isMoving status = true <->
  In status [ "arriving"; "crashing"; "departing"; "moving_to_end_of_station";
              "travelling_boat"; "travelling_cable_lift"; "travelling_dodgems";
              "travelling" ].
Proof.
  unfold isMoving. rewrite existsb_exists. split.
  - intros (name & Hin & Hsame). apply String.eqb_eq in Hsame. subst name. exact Hin.
  - intros Hin. exists status. split; [exact Hin | apply String.eqb_refl].
Qed.

(** X25.  The position is locked exactly while the train moves: in a state
    the view model can be in with a vehicle selected, a train is selected
    too, and after a game tick [_isPositionDisabled] is true exactly when the
    status of the first car of that train is one of the eight moving
    states. *)
Theorem position_locked_while_moving
    (before : Context.t) (state : VehicleViewModel * Context.t) (game : Game)
    (vehicle : RideVehicle.t) (index : nat) :
  reachable getTargets before state ->
  _selectedVehicle (fst state) = Some (vehicle, index) ->
  exists train t,
    _selectedTrain (fst state) = Some (train, t) /\
    let status := Car.status (_car game (RideTrain._head train)) in
    _isPositionDisabled (_onGameTickExecuted game (fst state)) = isMoving status /\
    (_isPositionDisabled (_onGameTickExecuted game (fst state)) = true <->
     In status [ "arriving"; "crashing"; "departing"; "moving_to_end_of_station";
                 "travelling_boat"; "travelling_cable_lift"; "travelling_dodgems";
                 "travelling" ]).
Proof.
  intros Hreachable Hvehicle.
  pose proof (reachable_consistent getTargets before state Hreachable) as (Hpre & _).
  destruct state as [vm context]. cbn [fst] in *.
  destruct (_selectedTrain vm) as [[train t]|] eqn:Htrain.
  2:{ destruct (Hpre eq_refl) as (_ & Hnone). congruence. }
  exists train, t. split; [reflexivity|]. cbv zeta.
  assert (Hlocked : _isPositionDisabled (_onGameTickExecuted game vm)
                    = isMoving (Car.status (_car game (RideTrain._head train)))).
  { unfold _onGameTickExecuted, _isPositionDisabled, _isEditDisabled, _updateDynamicDataFromCar.
    rewrite Hvehicle. destruct vm; cbn in *. rewrite Htrain. cbn. rewrite Hvehicle.
    apply orb_false_r. }
  split; [exact Hlocked|]. rewrite Hlocked. apply isMoving_statuses.
Qed.

(** X26.  The refresh callback acts on the selected vehicle of an open
    window only: it changes nothing while the window is not open, while no
    vehicle is selected, and for the id of another vehicle; for the id of the
    selected vehicle, in a state the view model can be in with the window
    open, it leaves every selection, list and setting as it is and fills the
    fifteen mirrored stores with what the car of that vehicle shows. *)
Theorem refresh_reaches_selected_vehicle_only
    (before : Context.t) (state : VehicleViewModel * Context.t) (game : Game) (id : Z) :
  reachable getTargets before state ->
  let vm := fst state in
  (JS.truthy (_isOpen vm) = false -> onRefreshVehicle game id vm = vm) /\
  (_selectedVehicle vm = None -> onRefreshVehicle game id vm = vm) /\
  (forall vehicle index,
     _selectedVehicle vm = Some (vehicle, index) -> RideVehicle._id vehicle <> id ->
     onRefreshVehicle game id vm = vm) /\
  (forall vehicle index,
     _selectedVehicle vm = Some (vehicle, index) -> RideVehicle._id vehicle = id ->
     JS.truthy (_isOpen vm) = true ->
     otherFields (onRefreshVehicle game id vm) = otherFields vm /\
     exists train t,
       _selectedTrain vm = Some (train, t) /\
       mirroredFields (onRefreshVehicle game id vm)
         = pulledFields game (_rideTypes vm) train vehicle index).
Proof.
  intros Hreachable. cbv zeta.
  pose proof (reachable_consistent getTargets before state Hreachable) as (Hpre & _).
  destruct state as [vm context]. cbn [fst] in *. unfold onRefreshVehicle.
  split; [intros ->; reflexivity|].
  split; [intros ->; destruct (negb _); reflexivity|].
  split.
  - intros vehicle index -> Hother. apply Z.eqb_neq in Hother. rewrite Hother.
    destruct (negb _); reflexivity.
  - intros vehicle index Hvehicle Hsame Hopen. rewrite Hopen, Hvehicle. cbn [negb].
    rewrite (proj2 (Z.eqb_eq _ _) Hsame).
    split; [apply updateVehicleInfo_other|].
    destruct (_selectedTrain vm) as [[train t]|] eqn:Htrain.
    2:{ destruct (Hpre eq_refl) as (_ & Hnone). congruence. }
    exists train, t. split; [reflexivity|].
    exact (updateVehicleInfo_mirror game vehicle index vm train t Htrain).
Qed.

End RefreshFacts.

(** X25 at the opened window, whose cars wait for passengers. *)
Lemma position_locked_while_moving_witness :
  reachable Examples.noTargets Examples.noSubscriptions Examples.opened /\
  _selectedVehicle (fst Examples.opened) = Some (Examples.vehicle 10, 0%nat) /\
  exists train t,
    _selectedTrain (fst Examples.opened) = Some (train, t) /\
    _isPositionDisabled (_onGameTickExecuted Examples.game0 (fst Examples.opened))
      = isMoving (Car.status (_car Examples.game0 (RideTrain._head train))).
Proof.
  assert (Hreach : reachable Examples.noTargets Examples.noSubscriptions Examples.opened)
    by (exists Examples.openedRun; reflexivity).
  assert (Hvehicle : _selectedVehicle (fst Examples.opened)
                     = Some (Examples.vehicle 10, 0%nat)) by reflexivity.
  split; [exact Hreach|]. split; [exact Hvehicle|].
  destruct (position_locked_while_moving Examples.noTargets Examples.noSubscriptions
              Examples.opened Examples.game0 (Examples.vehicle 10) 0%nat Hreach Hvehicle)
    as (train & t & Htrain & Hlocked & _).
  exists train, t. split; [exact Htrain | exact Hlocked].
Defined.

(** X26 at the opened window, whose first car is selected: the refresh of
    another car changes nothing. *)
Lemma refresh_reaches_selected_vehicle_only_witness :
  reachable Examples.noTargets Examples.noSubscriptions Examples.opened /\
  _selectedVehicle (fst Examples.opened) = Some (Examples.vehicle 10, 0%nat) /\
  RideVehicle._id (Examples.vehicle 10) <> 11 /\
  onRefreshVehicle Examples.game1 11 (fst Examples.opened) = fst Examples.opened.
Proof.
  assert (Hreach : reachable Examples.noTargets Examples.noSubscriptions Examples.opened)
    by (exists Examples.openedRun; reflexivity).
  assert (Hvehicle : _selectedVehicle (fst Examples.opened)
                     = Some (Examples.vehicle 10, 0%nat)) by reflexivity.
  assert (Hother : RideVehicle._id (Examples.vehicle 10) <> 11)
    by (intros H; discriminate H).
  split; [exact Hreach|]. split; [exact Hvehicle|]. split; [exact Hother|].
  destruct (refresh_reaches_selected_vehicle_only Examples.noTargets Examples.noSubscriptions
              Examples.opened Examples.game1 11 Hreach) as (_ & _ & Hignored & _).
  exact (Hignored (Examples.vehicle 10) 0%nat Hvehicle Hother).
Defined.
